(** * Zantra Medical: the Halo Connect client and the orchestration scheduler

    A shallow embedding of [src/connector/halo_client.py] (token cache,
    request wrapper, error logging, the FHIR and SQL clients), of
    [src/orchestrator/main.py] (task log, daily scheduler, command line entry
    point) and of the agents behind [run_recalls]
    ([src/orchestrator/agents/appointment.py] and
    [src/orchestrator/agents/recall.py]), followed by the properties of the
    specification that concern them and by further properties of the code.

    Modelling conventions.
    - A Python [str] is a [string] whose characters are code points below 256.
    - A JSON value is a [json]: [None], booleans, unbounded integers ([Z]),
      strings, lists and dicts with string keys.  Floats and characters above
      U+00FF are not values of the model.  [Json.loads] decodes the documents
      of this fragment as [json.loads] does, and answers
      [UNSUPPORTED_FLOAT] or [UNSUPPORTED_ESCAPE] where a document leaves it;
      a property that has [Json.loads] decode a document, or the program read
      a log or a response, is therefore a property of documents of the
      fragment.
    - [Json.check] is the verdict of [json.loads] on every text, floats and
      escapes of any code point included: the message of the
      [JSONDecodeError] or the kind of value decoded.  Properties about texts
      that [json.loads] rejects are stated with [Json.check].
    - The limits of the interpreter (recursion depth, the number of digits
      [int] converts) are not modelled.
    - Python exceptions are values of [pyexc]; a computation that may raise
      returns an [outcome].
    - Clocks, the token endpoint and the HTTP transport are oracles: the state
      carries the number of calls made so far and the oracle maps that index to
      what the outside world answers.
    - [datetime.fromisoformat], whose grammar belongs to the standard library,
      is a parameter of the section that embeds the appointment agent. *)

From Stdlib Require Import ZArith NArith List String Ascii Bool Lia Arith.
From Stdlib Require Import DecimalString DecimalPos DecimalZ DecimalFacts.
Import ListNotations.

Local Open Scope string_scope.
Local Open Scope Z_scope.

(* ================================================================== *)
(** * Python runtime: exceptions and outcomes *)
(* ================================================================== *)

Module Py.

(** The exception classes that occur in the two modules.  [ExcOther] stands
    for any further subclass of [Exception] an action may raise. *)
Inductive exc_class : Type :=
| KeyboardInterrupt
| SystemExit
| ValueError
| JSONDecodeError
| TypeError
| AttributeError
| OverflowError
| RequestException
| RequestsJSONDecodeError
| HaloClientError
| HaloAuthError
| HaloAPIError
| ExcOther (name : string).

(** An exception object: its class, [str(exc)], and [__cause__] as set by
    [raise ... from exc]. *)
#[warnings="-register-all"]
Inductive pyexc : Type :=
| Exc (cls : exc_class) (msg : string) (cause : option pyexc).

Definition exc_cls (e : pyexc) : exc_class := let 'Exc c _ _ := e in c.
Definition exc_str (e : pyexc) : string := let 'Exc _ m _ := e in m.

(** [isinstance(e, Exception)]: everything but the two [BaseException]-only
    classes. *)
Definition is_Exception (c : exc_class) : bool :=
  match c with
  | KeyboardInterrupt | SystemExit => false
  | _ => true
  end.

(** [isinstance(e, ValueError)]: the decode errors of [json] and of
    [requests] derive from it. *)
Definition is_ValueError (c : exc_class) : bool :=
  match c with
  | ValueError | JSONDecodeError | RequestsJSONDecodeError => true
  | _ => false
  end.

(** [isinstance(e, requests.RequestException)]: transport and HTTP errors, and
    the decode error of [Response.json]. *)
Definition is_RequestException (c : exc_class) : bool :=
  match c with
  | RequestException | RequestsJSONDecodeError => true
  | _ => false
  end.

(** [isinstance(e, (TypeError, ValueError))]. *)
Definition is_TypeError_or_ValueError (c : exc_class) : bool :=
  match c with
  | TypeError => true
  | c' => is_ValueError c'
  end.

Inductive outcome (A : Type) : Type :=
| Returns (a : A)
| Raises (e : pyexc).
Arguments Returns {A} a.
Arguments Raises {A} e.

(** State-and-exception monad: a Python statement sequence over a mutable
    store [S]. *)
Definition M (S A : Type) : Type := S -> outcome A * S.

Definition ret {S A} (a : A) : M S A := fun s => (Returns a, s).
Definition raise {S A} (e : pyexc) : M S A := fun s => (Raises e, s).
Definition bind {S A B} (m : M S A) (k : A -> M S B) : M S B :=
  fun s => match m s with
           | (Returns a, s') => k a s'
           | (Raises e, s') => (Raises e, s')
           end.
Definition get {S} : M S S := fun s => (Returns s, s).
Definition modify {S} (f : S -> S) : M S unit := fun s => (Returns tt, f s).

(** [try: body finally: fin].  The [finally] suite always runs; an exception
    it raises replaces whatever [body] produced.  The suite sees the local
    variables as [body] (and its [except] clauses) left them, which is what
    its argument stands for. *)
Definition try_finally_with {S A} (body : M S A) (fin : outcome A -> M S unit)
    : M S A :=
  fun s => let '(r, s1) := body s in
           match fin r s1 with
           | (Returns _, s2) => (r, s2)
           | (Raises e, s2) => (Raises e, s2)
           end.

Definition try_finally {S A} (body : M S A) (fin : M S unit) : M S A :=
  try_finally_with body (fun _ => fin).

(** The first [except] clause whose class filter accepts the exception. *)
Fixpoint select_handler {S A} (clauses : list ((exc_class -> bool) * (pyexc -> M S A)))
    (e : pyexc) : option (M S A) :=
  match clauses with
  | [] => None
  | (catches, handler) :: rest =>
      if catches (exc_cls e) then Some (handler e) else select_handler rest e
  end.

(** [try: body except C1 as exc: h1 exc except C2 as exc: h2 exc ...]. *)
Definition try_except {S A} (body : M S A)
    (clauses : list ((exc_class -> bool) * (pyexc -> M S A))) : M S A :=
  fun s => match body s with
           | (Raises e, s1) =>
               match select_handler clauses e with
               | Some h => h s1
               | None => (Raises e, s1)
               end
           | r => r
           end.

(** A computation that raises or returns without touching the store. *)
Definition lift {S A} (r : outcome A) : M S A := fun s => (r, s).

End Py.

Declare Scope py_scope.
Delimit Scope py_scope with py.
Notation "x <- m ;; k" := (Py.bind m (fun x => k))
  (at level 61, m at next level, right associativity) : py_scope.
Notation "m ;;; k" := (Py.bind m (fun _ => k))
  (at level 61, right associativity) : py_scope.

(* ================================================================== *)
(** * Python strings *)
(* ================================================================== *)

Module PyStr.

Definition chr (n : N) : ascii := ascii_of_N n.
Definition ord (c : ascii) : N := N_of_ascii c.

Definition QUOTE : ascii := chr 34.
Definition NL : string := String (chr 10) "".

(** [str.isspace] on one code point below 256. *)
Definition isspace (c : ascii) : bool :=
  let n := ord c in
  (((9 <=? n) && (n <=? 13)) || ((28 <=? n) && (n <=? 32))
   || (n =? 133) || (n =? 160))%N.

Fixpoint lstrip (s : string) : string :=
  match s with
  | String c r => if isspace c then lstrip r else s
  | EmptyString => EmptyString
  end.

Fixpoint rstrip (s : string) : string :=
  match s with
  | String c r =>
      match rstrip r with
      | EmptyString => if isspace c then EmptyString else String c EmptyString
      | r' => String c r'
      end
  | EmptyString => EmptyString
  end.

(** [s.strip()] *)
Definition strip (s : string) : string := rstrip (lstrip s).

(** [s.startswith(p)] *)
Fixpoint startswith (p s : string) : bool :=
  match p, s with
  | EmptyString, _ => true
  | String a p', String b s' => Ascii.eqb a b && startswith p' s'
  | String _ _, EmptyString => false
  end.

(** [p in s] *)
Fixpoint contains (p s : string) : bool :=
  startswith p s ||
  match s with
  | String _ r => contains p r
  | EmptyString => false
  end.

(** [s[:n]] *)
Fixpoint take (n : nat) (s : string) : string :=
  match n, s with
  | S n', String c r => String c (take n' r)
  | _, _ => EmptyString
  end.

(** [s[n:]] *)
Fixpoint drop (n : nat) (s : string) : string :=
  match n, s with
  | S n', String _ r => drop n' r
  | _, _ => s
  end.

(** [bool(s)] *)
Definition nonempty (s : string) : bool :=
  match s with EmptyString => false | _ => true end.

(** [s.lstrip(chars)] and [s.rstrip(chars)] for a single character. *)
Fixpoint lstrip_char (x : ascii) (s : string) : string :=
  match s with
  | String c r => if Ascii.eqb c x then lstrip_char x r else s
  | EmptyString => EmptyString
  end.

Fixpoint rstrip_char (x : ascii) (s : string) : string :=
  match s with
  | String c r =>
      match rstrip_char x r with
      | EmptyString => if Ascii.eqb c x then EmptyString else String c EmptyString
      | r' => String c r'
      end
  | EmptyString => EmptyString
  end.

(** [s.upper()] on ASCII letters. *)
Definition upper_char (c : ascii) : ascii :=
  let n := ord c in
  if ((97 <=? n) && (n <=? 122))%N then chr (n - 32) else c.

Fixpoint upper (s : string) : string :=
  match s with
  | String c r => String (upper_char c) (upper r)
  | EmptyString => EmptyString
  end.

Fixpoint repeat_str (n : nat) (s : string) : string :=
  match n with
  | O => EmptyString
  | S n' => s ++ repeat_str n' s
  end.

End PyStr.

(* ================================================================== *)
(** * JSON values, [json.dumps(_, indent=2)] and [json.loads] *)
(* ================================================================== *)

Module Json.
Import PyStr.

#[warnings="-register-all"]
Inductive json : Type :=
| JNull
| JBool (b : bool)
| JInt (n : Z)
| JStr (s : string)
| JList (items : list json)
| JDict (members : list (string * json)).

(** Python truthiness, [bool(v)]. *)
Definition truthy (v : json) : bool :=
  match v with
  | JNull => false
  | JBool b => b
  | JInt n => negb (n =? 0)
  | JStr s => nonempty s
  | JList l => match l with [] => false | _ => true end
  | JDict d => match d with [] => false | _ => true end
  end.

(** ** Dictionaries: insertion-ordered association lists with unique keys *)

Fixpoint dict_get {V} (k : string) (d : list (string * V)) : option V :=
  match d with
  | [] => None
  | (k', v) :: d' => if String.eqb k k' then Some v else dict_get k d'
  end.

(** [d[k] = v]: replaces in place, or appends a new key. *)
Fixpoint dict_set {V} (k : string) (v : V) (d : list (string * V))
    : list (string * V) :=
  match d with
  | [] => [(k, v)]
  | (k', v') :: d' =>
      if String.eqb k k' then (k, v) :: d' else (k', v') :: dict_set k v d'
  end.

(** [del d[k]] for a key that may be missing. *)
Fixpoint dict_remove {V} (k : string) (d : list (string * V)) : list (string * V) :=
  match d with
  | [] => []
  | (k', v) :: d' =>
      if String.eqb k k' then dict_remove k d' else (k', v) :: dict_remove k d'
  end.

(** [dict(pairs)] *)
Definition dict_of_pairs {V} (pairs : list (string * V)) : list (string * V) :=
  fold_left (fun d kv => dict_set (fst kv) (snd kv) d) pairs [].

(** ** Encoder *)

Definition hexdig (n : N) : ascii :=
  if (n <? 10)%N then chr (48 + n) else chr (87 + n).

(** One character under [ensure_ascii=True]. *)
Definition escape (c : ascii) : string :=
  let n := ord c in
  if (n =? 34)%N then String "\" (String QUOTE "")
  else if (n =? 92)%N then "\\"
  else if (n =? 10)%N then "\n"
  else if (n =? 13)%N then "\r"
  else if (n =? 9)%N then "\t"
  else if (n =? 8)%N then "\b"
  else if (n =? 12)%N then "\f"
  else if ((n <? 32) || (126 <? n))%N
       then "\u00" ++ String (hexdig (n / 16)) (String (hexdig (n mod 16)) "")
  else String c "".

Fixpoint escape_body (s : string) : string :=
  match s with
  | EmptyString => EmptyString
  | String c r => escape c ++ escape_body r
  end.

Definition encode_str (s : string) : string :=
  String QUOTE (escape_body s ++ String QUOTE "").

(** [int.__repr__] *)
Definition encode_int (n : Z) : string := NilZero.string_of_int (Z.to_int n).

(** A newline followed by [indent * level] spaces, [indent = 2]. *)
Definition newline_indent (level : nat) : string :=
  NL ++ repeat_str level "  ".

(** What follows the first element of a non-empty array: the remaining
    elements, each after a comma, then the closing bracket on its own line. *)
Definition more_items (enc : json -> string) (level : nat)
    : list json -> string :=
  fix more (l : list json) : string :=
    match l with
    | [] => newline_indent level ++ "]"
    | y :: l' => "," ++ newline_indent (S level) ++ enc y ++ more l'
    end.

Definition more_members (enc : json -> string) (level : nat)
    : list (string * json) -> string :=
  fix more (l : list (string * json)) : string :=
    match l with
    | [] => newline_indent level ++ "}"
    | (k, y) :: l' =>
        "," ++ newline_indent (S level) ++ encode_str k ++ ": " ++ enc y ++ more l'
    end.

(** [json.dumps(v, indent=2)] at nesting depth [level]. *)
Fixpoint encode (level : nat) (v : json) : string :=
  match v with
  | JNull => "null"
  | JBool true => "true"
  | JBool false => "false"
  | JInt n => encode_int n
  | JStr s => encode_str s
  | JList [] => "[]"
  | JList (x :: xs) =>
      "[" ++ newline_indent (S level) ++ encode (S level) x
      ++ more_items (encode (S level)) level xs
  | JDict [] => "{}"
  | JDict ((k, x) :: ms) =>
      "{" ++ newline_indent (S level) ++ encode_str k ++ ": " ++ encode (S level) x
      ++ more_members (encode (S level)) level ms
  end.

(** A Python dict has each key once, at every depth. *)
Fixpoint unique_keys (ks : list string) : bool :=
  match ks with
  | [] => true
  | k :: ks' => negb (existsb (String.eqb k) ks') && unique_keys ks'
  end.

Fixpoint well_formed (v : json) : bool :=
  match v with
  | JList xs => forallb well_formed xs
  | JDict ms =>
      unique_keys (map fst ms) && forallb (fun kv => well_formed (snd kv)) ms
  | _ => true
  end.

Definition dumps (v : json) : string := encode 0 v.

(** ** Decoder *)

(** A decode error carries [JSONDecodeError.msg]. *)
Definition parse (A : Type) : Type := (string + A)%type.

Definition pbind {A B} (m : parse A) (k : A -> parse B) : parse B :=
  match m with
  | inl e => inl e
  | inr a => k a
  end.

Definition json_ws (c : ascii) : bool :=
  let n := ord c in ((n =? 32) || (n =? 9) || (n =? 10) || (n =? 13))%N.

Fixpoint skip_ws (s : string) : string :=
  match s with
  | String c r => if json_ws c then skip_ws r else s
  | EmptyString => EmptyString
  end.

Definition hexval (c : ascii) : option N :=
  let n := ord c in
  if ((48 <=? n) && (n <=? 57))%N then Some (n - 48)%N
  else if ((97 <=? n) && (n <=? 102))%N then Some (n - 87)%N
  else if ((65 <=? n) && (n <=? 70))%N then Some (n - 55)%N
  else None.

Definition hex4 (a b c d : ascii) : option N :=
  match hexval a, hexval b, hexval c, hexval d with
  | Some x, Some y, Some z, Some w => Some (((x * 16 + y) * 16 + z) * 16 + w)%N
  | _, _, _, _ => None
  end.

Definition unescape (c : ascii) : option ascii :=
  let n := ord c in
  if (n =? 34)%N then Some QUOTE
  else if (n =? 92)%N then Some "\"%char
  else if (n =? 47)%N then Some "/"%char
  else if (n =? 98)%N then Some (chr 8)
  else if (n =? 102)%N then Some (chr 12)
  else if (n =? 110)%N then Some (chr 10)
  else if (n =? 114)%N then Some (chr 13)
  else if (n =? 116)%N then Some (chr 9)
  else None.

Definition pcons (c : ascii) (m : parse (string * string)) : parse (string * string) :=
  pbind m (fun '(str, rest) => inr (String c str, rest)).

(** What [loads] answers where the document leaves the modelled fragment: at
    an escape for a code point above U+00FF and at a float literal.  These
    two are not messages of [json]; [check] below gives the verdict of
    [json.loads] on every text. *)
Definition UNSUPPORTED_ESCAPE : string := "code point outside the modelled range".
Definition UNSUPPORTED_FLOAT : string := "float literal outside the modelled fragment".

(** [scanstring]: the input stands just after the opening quote; returns the
    decoded text and what follows the closing quote.  The four hexadecimal
    digits of an escape must not be the last characters of the document. *)
Fixpoint scanstring (s : string) : parse (string * string) :=
  match s with
  | EmptyString => inl "Unterminated string starting at"
  | String c r =>
      let n := ord c in
      if (n =? 34)%N then inr (EmptyString, r)
      else if (n =? 92)%N then
        match r with
        | EmptyString => inl "Unterminated string starting at"
        | String e r2 =>
            if (ord e =? 117)%N then
              match r2 with
              | String h1 (String h2 (String h3 (String h4 (String _ _ as r3)))) =>
                  match hex4 h1 h2 h3 h4 with
                  | Some v => if (v <? 256)%N then pcons (chr v) (scanstring r3)
                              else inl UNSUPPORTED_ESCAPE
                  | None => inl "Invalid \uXXXX escape"
                  end
              | _ => inl "Invalid \uXXXX escape"
              end
            else
              match unescape e with
              | Some ch => pcons ch (scanstring r2)
              | None => inl "Invalid \escape"
              end
        end
      else if (n <? 32)%N then inl "Invalid control character at"
      else pcons c (scanstring r)
  end.

Definition digit_of (c : ascii) : option (Decimal.uint -> Decimal.uint) :=
  match ord c with
  | 48%N => Some Decimal.D0 | 49%N => Some Decimal.D1 | 50%N => Some Decimal.D2
  | 51%N => Some Decimal.D3 | 52%N => Some Decimal.D4 | 53%N => Some Decimal.D5
  | 54%N => Some Decimal.D6 | 55%N => Some Decimal.D7 | 56%N => Some Decimal.D8
  | 57%N => Some Decimal.D9
  | _ => None
  end.

(** The longest prefix of decimal digits. *)
Fixpoint scan_digits (s : string) : Decimal.uint * string :=
  match s with
  | String c r =>
      match digit_of c with
      | Some d => let '(ds, r') := scan_digits r in (d ds, r')
      | None => (Decimal.Nil, s)
      end
  | EmptyString => (Decimal.Nil, EmptyString)
  end.

Definition is_digit (c : ascii) : bool :=
  match digit_of c with Some _ => true | None => false end.

(** What turns an integer literal into a float: a fraction (a dot and a
    digit) or an exponent (e or E, an optional sign, a digit). *)
Definition float_tail (s : string) : bool :=
  match s with
  | String c r =>
      let n := ord c in
      if (n =? 46)%N then
        match r with String d _ => is_digit d | EmptyString => false end
      else if ((n =? 101) || (n =? 69))%N then
        match r with
        | String x r' =>
            if ((ord x =? 43) || (ord x =? 45))%N then
              match r' with String d _ => is_digit d | EmptyString => false end
            else is_digit x
        | EmptyString => false
        end
      else false
  | EmptyString => false
  end.

(** A number: an optional minus sign, then either a single zero or a non-zero
    digit followed by digits.  Literals that Python decodes to a float (with a
    fraction or an exponent, [NaN], [Infinity]) are reported as such. *)
Definition scan_number (s : string) : parse (json * string) :=
  let '(neg, s1) := match s with
                    | String "-" r => (true, r)
                    | _ => (false, s)
                    end in
  match s1 with
  | String c r =>
      match digit_of c with
      | None =>
          if startswith "Infinity" s1 || (negb neg && startswith "NaN" s1)
          then inl UNSUPPORTED_FLOAT
          else inl "Expecting value"
      | Some _ =>
          let '(ds, r') := if (ord c =? 48)%N then (Decimal.D0 Decimal.Nil, r)
                           else scan_digits s1 in
          if float_tail r' then inl UNSUPPORTED_FLOAT
          else let v := Z.of_uint ds in
               inr (JInt (if neg then - v else v), r')
      end
  | EmptyString => inl "Expecting value"
  end.

(** The recursive scanner, bounded by [fuel]. [scan_items] stands at the first
    character of an array element, [scan_members] at the opening quote of an
    object key. *)
Fixpoint scan_once (fuel : nat) (s : string) : parse (json * string) :=
  match fuel with
  | O => inl "nesting too deep"
  | S f =>
      match s with
      | EmptyString => inl "Expecting value"
      | String c r =>
          let n := ord c in
          if (n =? 34)%N then
            pbind (scanstring r) (fun '(str, r') => inr (JStr str, r'))
          else if (n =? 123)%N then
            match skip_ws r with
            | String c2 r2 =>
                if (ord c2 =? 125)%N then inr (JDict [], r2)
                else pbind (scan_members f (skip_ws r))
                       (fun '(pairs, r3) => inr (JDict (dict_of_pairs pairs), r3))
            | EmptyString => inl "Expecting property name enclosed in double quotes"
            end
          else if (n =? 91)%N then
            match skip_ws r with
            | String c2 r2 =>
                if (ord c2 =? 93)%N then inr (JList [], r2)
                else pbind (scan_items f (skip_ws r))
                       (fun '(items, r3) => inr (JList items, r3))
            | EmptyString => inl "Expecting value"
            end
          else if startswith "null" s then inr (JNull, drop 4 s)
          else if startswith "true" s then inr (JBool true, drop 4 s)
          else if startswith "false" s then inr (JBool false, drop 5 s)
          else scan_number s
      end
  end
with scan_items (fuel : nat) (s : string) : parse (list json * string) :=
  match fuel with
  | O => inl "nesting too deep"
  | S f =>
      pbind (scan_once f s) (fun '(v, r) =>
        match skip_ws r with
        | String c r' =>
            if (ord c =? 93)%N then inr ([v], r')
            else if (ord c =? 44)%N then
              pbind (scan_items f (skip_ws r'))
                (fun '(vs, r'') => inr (v :: vs, r''))
            else inl "Expecting ',' delimiter"
        | EmptyString => inl "Expecting ',' delimiter"
        end)
  end
with scan_members (fuel : nat) (s : string) : parse (list (string * json) * string) :=
  match fuel with
  | O => inl "nesting too deep"
  | S f =>
      match s with
      | String c r =>
          if (ord c =? 34)%N then
            pbind (scanstring r) (fun '(key, r1) =>
              match skip_ws r1 with
              | String c1 r2 =>
                  if (ord c1 =? 58)%N then
                    pbind (scan_once f (skip_ws r2)) (fun '(v, r3) =>
                      match skip_ws r3 with
                      | String c3 r4 =>
                          if (ord c3 =? 125)%N then inr ([(key, v)], r4)
                          else if (ord c3 =? 44)%N then
                            pbind (scan_members f (skip_ws r4))
                              (fun '(ms, r5) => inr ((key, v) :: ms, r5))
                          else inl "Expecting ',' delimiter"
                      | EmptyString => inl "Expecting ',' delimiter"
                      end)
                  else inl "Expecting ':' delimiter"
              | EmptyString => inl "Expecting ':' delimiter"
              end)
          else inl "Expecting property name enclosed in double quotes"
      | EmptyString => inl "Expecting property name enclosed in double quotes"
      end
  end.

(** [json.loads(s)] on the documents of the fragment: one value, surrounded
    by optional whitespace.  On a document with a float literal or an escape
    above U+00FF, which [json.loads] may well accept, the answer is
    [UNSUPPORTED_FLOAT] or [UNSUPPORTED_ESCAPE]; [check] below tells what
    [json.loads] makes of such a document. *)
Definition loads (s : string) : parse json :=
  let s0 := skip_ws s in
  pbind (scan_once (S (2 * String.length s0)) s0) (fun '(v, r) =>
    match skip_ws r with
    | EmptyString => inr v
    | _ => inl "Extra data"
    end).

(** ** The verdict of [json.loads] on any text

    [check] follows the same scanner as [loads] without building the value,
    so that it goes on where [loads] stops: past escapes of any code point and
    past float literals.  It answers the message of the [JSONDecodeError]
    that [json.loads] raises, or the kind of value the document holds. *)

Inductive kind : Type := KNull | KBool | KNumber | KString | KArray | KObject.

Definition kind_of (v : json) : kind :=
  match v with
  | JNull => KNull
  | JBool _ => KBool
  | JInt _ => KNumber
  | JStr _ => KString
  | JList _ => KArray
  | JDict _ => KObject
  end.

Definition is_array (k : kind) : bool :=
  match k with KArray => true | _ => false end.

(** A string, from just after its opening quote: what follows its closing
    quote. *)
Fixpoint skip_string (s : string) : parse string :=
  match s with
  | EmptyString => inl "Unterminated string starting at"
  | String c r =>
      let n := ord c in
      if (n =? 34)%N then inr r
      else if (n =? 92)%N then
        match r with
        | EmptyString => inl "Unterminated string starting at"
        | String e r2 =>
            if (ord e =? 117)%N then
              match r2 with
              | String h1 (String h2 (String h3 (String h4 (String _ _ as r3)))) =>
                  match hex4 h1 h2 h3 h4 with
                  | Some _ => skip_string r3
                  | None => inl "Invalid \uXXXX escape"
                  end
              | _ => inl "Invalid \uXXXX escape"
              end
            else
              match unescape e with
              | Some _ => skip_string r2
              | None => inl "Invalid \escape"
              end
        end
      else if (n <? 32)%N then inl "Invalid control character at"
      else skip_string r
  end.

(** The fraction of a number, if there is one: a dot and one digit or more. *)
Definition skip_fraction (s : string) : string :=
  match s with
  | String c (String d _ as ds) =>
      if ((ord c =? 46)%N && is_digit d)%bool then snd (scan_digits ds) else s
  | _ => s
  end.

(** The exponent of a number, if there is one: e or E, an optional sign, and
    one digit or more. *)
Definition skip_exponent (s : string) : string :=
  match s with
  | String c r =>
      if ((ord c =? 101) || (ord c =? 69))%N then
        match r with
        | String x r' =>
            if ((ord x =? 43) || (ord x =? 45))%N then
              match r' with
              | String d _ => if is_digit d then snd (scan_digits r') else s
              | EmptyString => s
              end
            else if is_digit x then snd (scan_digits r) else s
        | EmptyString => s
        end
      else s
  | EmptyString => s
  end.

(** A number, an integer or a float, or one of [NaN], [Infinity] and
    [-Infinity]: what follows it. *)
Definition skip_number (s : string) : parse string :=
  let '(neg, s1) := match s with
                    | String "-" r => (true, r)
                    | _ => (false, s)
                    end in
  match s1 with
  | String c r =>
      match digit_of c with
      | None =>
          if startswith "Infinity" s1 then inr (drop 8 s1)
          else if negb neg && startswith "NaN" s1 then inr (drop 3 s1)
          else inl "Expecting value"
      | Some _ =>
          let r' := if (ord c =? 48)%N then r else snd (scan_digits s1) in
          inr (skip_exponent (skip_fraction r'))
      end
  | EmptyString => inl "Expecting value"
  end.

Fixpoint check_once (fuel : nat) (s : string) : parse (kind * string) :=
  match fuel with
  | O => inl "nesting too deep"
  | S f =>
      match s with
      | EmptyString => inl "Expecting value"
      | String c r =>
          let n := ord c in
          if (n =? 34)%N then
            pbind (skip_string r) (fun r' => inr (KString, r'))
          else if (n =? 123)%N then
            match skip_ws r with
            | String c2 r2 =>
                if (ord c2 =? 125)%N then inr (KObject, r2)
                else pbind (check_members f (skip_ws r)) (fun r3 => inr (KObject, r3))
            | EmptyString => inl "Expecting property name enclosed in double quotes"
            end
          else if (n =? 91)%N then
            match skip_ws r with
            | String c2 r2 =>
                if (ord c2 =? 93)%N then inr (KArray, r2)
                else pbind (check_items f (skip_ws r)) (fun r3 => inr (KArray, r3))
            | EmptyString => inl "Expecting value"
            end
          else if startswith "null" s then inr (KNull, drop 4 s)
          else if startswith "true" s then inr (KBool, drop 4 s)
          else if startswith "false" s then inr (KBool, drop 5 s)
          else pbind (skip_number s) (fun r' => inr (KNumber, r'))
      end
  end
with check_items (fuel : nat) (s : string) : parse string :=
  match fuel with
  | O => inl "nesting too deep"
  | S f =>
      pbind (check_once f s) (fun '(_, r) =>
        match skip_ws r with
        | String c r' =>
            if (ord c =? 93)%N then inr r'
            else if (ord c =? 44)%N then check_items f (skip_ws r')
            else inl "Expecting ',' delimiter"
        | EmptyString => inl "Expecting ',' delimiter"
        end)
  end
with check_members (fuel : nat) (s : string) : parse string :=
  match fuel with
  | O => inl "nesting too deep"
  | S f =>
      match s with
      | String c r =>
          if (ord c =? 34)%N then
            pbind (skip_string r) (fun r1 =>
              match skip_ws r1 with
              | String c1 r2 =>
                  if (ord c1 =? 58)%N then
                    pbind (check_once f (skip_ws r2)) (fun '(_, r3) =>
                      match skip_ws r3 with
                      | String c3 r4 =>
                          if (ord c3 =? 125)%N then inr r4
                          else if (ord c3 =? 44)%N then check_members f (skip_ws r4)
                          else inl "Expecting ',' delimiter"
                      | EmptyString => inl "Expecting ',' delimiter"
                      end)
                  else inl "Expecting ':' delimiter"
              | EmptyString => inl "Expecting ':' delimiter"
              end)
          else inl "Expecting property name enclosed in double quotes"
      | EmptyString => inl "Expecting property name enclosed in double quotes"
      end
  end.

(** The answer of a scanner whose fuel is used up; [check_total] shows that
    [check] never gives it. *)
Definition NESTING : string := "nesting too deep".

(** What [json.loads(s)] makes of the text [s]: the message of its
    [JSONDecodeError], or the kind of the value it returns. *)
Definition check (s : string) : parse kind :=
  let s0 := skip_ws s in
  pbind (check_once (S (2 * String.length s0)) s0) (fun '(k, r) =>
    match skip_ws r with
    | EmptyString => inr k
    | _ => inl "Extra data"
    end).

(** What may follow an encoded value inside a document: nothing, a comma or a
    line break. *)
Definition ends_value (rest : string) : bool :=
  match rest with
  | EmptyString => true
  | String c _ => ((ord c =? 44) || (ord c =? 10))%N
  end.

(** The first character of an encoded value: no whitespace and no closing
    bracket. *)
Definition value_head (s : string) : bool :=
  match s with
  | String c _ => negb (json_ws c) && negb (ord c =? 93)%N
  | EmptyString => false
  end.

(** The first character of an integer literal. *)
Definition int_head (s : string) : bool :=
  match s with
  | String c _ => (ord c =? 45)%N || ((48 <=? ord c) && (ord c <=? 57))%N
  | EmptyString => false
  end.

(** The scanner reads back an encoded value, whatever the nesting depth it was
    printed at and whatever follows it, given fuel for its length. *)
Definition scans (j : json) : Prop :=
  well_formed j = true ->
  forall (level : nat) (rest : string) (fuel : nat),
    (String.length (encode level j) <= fuel)%nat ->
    ends_value rest = true ->
    scan_once fuel (encode level j ++ rest) = inr (j, rest).

End Json.


(* ================================================================== *)
(** * [int(...)] and [datetime] *)
(* ================================================================== *)

Module PyInt.
Import Py PyStr Json.

Definition digit_val (c : ascii) : option Z :=
  let n := ord c in
  if ((48 <=? n) && (n <=? 57))%N then Some (Z.of_N n - 48) else None.

(** Decimal digits, with single underscores allowed between digits. *)
Fixpoint digits_acc (s : string) (acc : Z) (after_digit : bool) : option Z :=
  match s with
  | EmptyString => if after_digit then Some acc else None
  | String c r =>
      match digit_val c with
      | Some d => digits_acc r (acc * 10 + d) true
      | None =>
          if ((ord c =? 95)%N && after_digit)%bool then digits_acc r acc false
          else None
      end
  end.

(** The white space [int()] skips around a literal: the blanks of ASCII
    (tab, line feed, vertical tab, form feed, carriage return and space) and
    the spaces outside ASCII (below 256: U+0085 and U+00A0).  The separators
    U+001C to U+001F, which [str.strip] removes, are not among them. *)
Definition int_space (c : ascii) : bool :=
  let n := ord c in
  (((9 <=? n) && (n <=? 13)) || (n =? 32) || (n =? 133) || (n =? 160))%N.

Fixpoint skip_leading (s : string) : string :=
  match s with
  | String c r => if int_space c then skip_leading r else s
  | EmptyString => EmptyString
  end.

Fixpoint skip_trailing (s : string) : string :=
  match s with
  | String c r =>
      match skip_trailing r with
      | EmptyString => if int_space c then EmptyString else String c EmptyString
      | r' => String c r'
      end
  | EmptyString => EmptyString
  end.

(** [int(s)] for a string [s], base 10: the white space around the literal
    is skipped, one sign is allowed. *)
Definition int_of_str (s : string) : option Z :=
  match skip_trailing (skip_leading s) with
  | String c r =>
      if (ord c =? 45)%N then option_map Z.opp (digits_acc r 0 false)
      else if (ord c =? 43)%N then digits_acc r 0 false
      else digits_acc (String c r) 0 false
  | EmptyString => None
  end.

(** [int(v)] for a decoded JSON value. *)
Definition py_int (v : json) : outcome Z :=
  match v with
  | JInt n => Returns n
  | JBool b => Returns (if b then 1 else 0)
  | JStr s =>
      match int_of_str s with
      | Some n => Returns n
      | None => Raises (Exc ValueError "invalid literal for int() with base 10" None)
      end
  | JNull | JList _ | JDict _ =>
      Raises (Exc TypeError
                "int() argument must be a string, a bytes-like object or a real number"
                None)
  end.

End PyInt.

Module Datetime.
Import Py Json.

(** A naive [datetime] is the number of microseconds since 0001-01-01T00:00;
    a [timedelta] is a number of microseconds. *)
Definition SECOND : Z := 1000000.
Definition DAY : Z := 86400 * SECOND.

(** [date.max.toordinal()] days are representable. *)
Definition MAX_DAYS : Z := 3652059.
Definition MAX_DATETIME : Z := MAX_DAYS * DAY.

Definition datetime_ok (t : Z) : bool := (0 <=? t) && (t <? MAX_DATETIME).

(** [timedelta] keeps its day count within nine decimal digits. *)
Definition timedelta_ok (d : Z) : bool :=
  (-999999999 <=? d / DAY) && (d / DAY <=? 999999999).

Definition overflow (msg : string) : pyexc := Exc OverflowError msg None.

(** The [OverflowError] of a [timedelta] of too many days: the day count is
    first made a C int, then held against the range. *)
Definition timedelta_overflow (d : Z) : pyexc :=
  let days := d / DAY in
  overflow (if (-2147483648 <=? days) && (days <=? 2147483647)
            then "days=" ++ encode_int days ++ "; must have magnitude <= 999999999"
            else "Python int too large to convert to C int").

(** [timedelta(seconds=n)] *)
Definition timedelta_seconds (n : Z) : outcome Z :=
  let d := n * SECOND in
  if timedelta_ok d then Returns d
  else Raises (timedelta_overflow d).

(** [timedelta(days=n)] *)
Definition timedelta_days (n : Z) : outcome Z :=
  let d := n * DAY in
  if timedelta_ok d then Returns d
  else Raises (timedelta_overflow d).

(** [t + d] for a datetime [t] and a timedelta [d]. *)
Definition datetime_add (t d : Z) : outcome Z :=
  if datetime_ok (t + d) then Returns (t + d)
  else Raises (overflow "date value out of range").

(** [t.date()], as a day number, and [datetime.combine(date, time_of_day)]. *)
Definition date (t : Z) : Z := t / DAY.
Definition combine (day time_of_day : Z) : Z := day * DAY + time_of_day.

(** A [datetime.time] value, as microseconds since midnight. *)
Definition time_ok (time_of_day : Z) : bool :=
  (0 <=? time_of_day) && (time_of_day <? DAY).

(** An aware UTC [datetime] as its calendar fields, for [isoformat]. *)
Record moment : Type := Moment {
  year : N; month : N; day : N;
  hour : N; minute : N; second : N; microsecond : N
}.

Definition decimal (n : N) : string := NilZero.string_of_uint (N.to_uint n).

(** [n] in decimal, left-padded with zeros to [width] characters. *)
Definition zero_pad (width : nat) (n : N) : string :=
  let s := decimal n in
  PyStr.repeat_str (width - String.length s) "0" ++ s.

(** [moment.isoformat()] of a UTC moment, the offset already replaced by
    the letter Z. *)
Definition isoformat_z (m : moment) : string :=
  zero_pad 4 (year m) ++ "-" ++ zero_pad 2 (month m) ++ "-" ++ zero_pad 2 (day m)
  ++ "T" ++ zero_pad 2 (hour m) ++ ":" ++ zero_pad 2 (minute m) ++ ":"
  ++ zero_pad 2 (second m)
  ++ (if (microsecond m =? 0)%N then "" else "." ++ zero_pad 6 (microsecond m))
  ++ "Z".

End Datetime.

(* ================================================================== *)
(** * [connector/halo_client.py] *)
(* ================================================================== *)

Module HaloClient.
Import Py PyStr Json PyInt Datetime.
Local Open Scope py_scope.

Definition DEFAULT_TOKEN_REFRESH_BUFFER_SECONDS : Z := 60.
Definition DEFAULT_TIMEOUT_SECONDS : Z := 30.
Definition DEFAULT_MAX_RETRIES : Z := 3.

(** [TokenData]: a frozen dataclass. *)
Record TokenData : Type := {
  access_token : string;
  expires_at : Z
}.

(** A [requests.Response] as far as the client looks at it; [json_result] is
    what [response.json()] gives, a value or the message of its decode error. *)
Record Response : Type := {
  status_code : Z;
  content_type : option string;
  text : string;
  json_result : parse json
}.

(** What the session does with one call: raise a [requests.RequestException]
    (no response was received, or the retries ran out) or hand back a
    response. *)
Inductive reply : Type :=
| Fails (msg : string)
| Responds (r : Response).

Record http_call : Type := {
  call_method : string;
  call_url : string;
  call_headers : list (string * string);
  call_params : option json;
  call_data : list (string * string);
  call_json : option json;
  call_timeout : Z
}.

Inductive log_level : Type := DEBUG | INFO | WARNING | ERROR.

(** An argument of a logging call, kept unformatted as [logging] does. *)
Inductive log_arg : Type :=
| ArgInt (n : Z)
| ArgStr (s : string)
| ArgJson (v : json)
| ArgExc (e : pyexc)
| ArgDatetime (t : Z).

Record log_record : Type := {
  level : log_level;
  fmt : string;
  args : list log_arg
}.

Record HaloBaseClient : Type := {
  base_url : string;
  token_url : string;
  client_id : string;
  client_secret : string;
  scope : string;
  audience : string;
  timeout : Z;
  token_refresh_buffer : Z;
  _token : option TokenData
}.

(** The client together with its surroundings: the clock behind
    [datetime.utcnow()], the network behind the session, and the module
    logger. *)
Record world : Type := {
  self : HaloBaseClient;
  utcnow_clock : nat -> Z;
  clock_reads : nat;
  network : nat -> reply;
  calls : list http_call;
  logged : list log_record
}.

Definition set_token (tok : TokenData) (c : HaloBaseClient) : HaloBaseClient :=
  {| base_url := base_url c; token_url := token_url c; client_id := client_id c;
     client_secret := client_secret c; scope := scope c; audience := audience c;
     timeout := timeout c; token_refresh_buffer := token_refresh_buffer c;
     _token := Some tok |}.

(** [HaloBaseClient.__init__]; the session it builds, with its retry policy,
    is the [network] of the world. *)
Definition __init__ (token_url base_url : string) (client_id client_secret : option string)
    (scope audience : option string) (timeout max_retries : Z)
    (token_refresh_buffer : Z) : outcome HaloBaseClient :=
  if negb (nonempty base_url)
  then Raises (Exc ValueError "base_url must be provided" None)
  else if negb (nonempty token_url)
  then Raises (Exc ValueError "token_url must be provided" None)
  else
    match client_id, client_secret with
    | Some id, Some secret =>
        if nonempty id && nonempty secret then
          Returns {| base_url := rstrip_char "/" base_url; token_url := token_url;
                     client_id := id; client_secret := secret;
                     scope := match scope with Some v => v | None => "" end;
                     audience := match audience with Some v => v | None => "" end;
                     timeout := timeout;
                     token_refresh_buffer := token_refresh_buffer;
                     _token := None |}
        else Raises (Exc ValueError "client_id and client_secret must be provided" None)
    | _, _ => Raises (Exc ValueError "client_id and client_secret must be provided" None)
    end.

(** [datetime.utcnow()] *)
Definition utcnow : M world Z :=
  fun w => (Returns (utcnow_clock w (clock_reads w)),
            {| self := self w; utcnow_clock := utcnow_clock w;
               clock_reads := S (clock_reads w); network := network w;
               calls := calls w; logged := logged w |}).

Definition add_log (rec : log_record) (w : world) : world :=
  {| self := self w; utcnow_clock := utcnow_clock w; clock_reads := clock_reads w;
     network := network w; calls := calls w; logged := (logged w ++ [rec])%list |}.

(** [logger.<level>(fmt, *args)] *)
Definition emit (lvl : log_level) (fmt : string) (args : list log_arg) : M world unit :=
  modify (add_log {| level := lvl; fmt := fmt; args := args |}).

(** [self._session.request(...)] and [self._session.post(...)] *)
Definition session_call (c : http_call) : M world Response :=
  fun w =>
    let w' := {| self := self w; utcnow_clock := utcnow_clock w;
                 clock_reads := clock_reads w; network := network w;
                 calls := (calls w ++ [c])%list; logged := logged w |} in
    match network w (List.length (calls w)) with
    | Fails msg => (Raises (Exc RequestException msg None), w')
    | Responds r => (Returns r, w')
    end.

(** [self._token = token] *)
Definition store_token (tok : TokenData) : M world unit :=
  modify (fun w =>
    {| self := set_token tok (self w); utcnow_clock := utcnow_clock w;
       clock_reads := clock_reads w; network := network w; calls := calls w;
       logged := logged w |}).

(** A client or server error status. *)
Definition http_error (r : Response) : bool :=
  (400 <=? status_code r) && (status_code r <? 600).

(** [response.raise_for_status()] *)
Definition raise_for_status (r : Response) : M world unit :=
  if http_error r then raise (Exc RequestException "HTTP error status" None)
  else ret tt.

(** [response.json()] *)
Definition response_json (r : Response) : M world json :=
  match json_result r with
  | inr v => ret v
  | inl msg => raise (Exc RequestsJSONDecodeError msg None)
  end.

(** [TokenData.is_valid] *)
Definition is_valid (tok : TokenData) (buffer_seconds : Z) : M world bool :=
  now <- utcnow ;;
  buffer <- lift (timedelta_seconds buffer_seconds) ;;
  limit <- lift (datetime_add now buffer) ;;
  ret (limit <? expires_at tok).

(** [token = self._token] followed by the test
    [token and token.is_valid(self.token_refresh_buffer)]: the token when the
    test succeeds. *)
Definition valid_cached_token : M world (option TokenData) :=
  w <- get ;;
  match _token (self w) with
  | None => ret None
  | Some tok =>
      ok <- is_valid tok (token_refresh_buffer (self w)) ;;
      ret (if ok then Some tok else None)
  end.

(** [data.get(key)] *)
Definition py_get (data : json) (key : string) : outcome json :=
  match data with
  | JDict d => Returns (match dict_get key d with Some v => v | None => JNull end)
  | _ => Raises (Exc AttributeError "object has no attribute 'get'" None)
  end.

Definition is_str (v : json) : bool :=
  match v with JStr _ => true | _ => false end.

Definition str_value (v : json) : string :=
  match v with JStr s => s | _ => EmptyString end.

(** The call of [self._session.post(self.token_url, data=payload,
    timeout=self.timeout)], with [scope] and [audience] in the form only when
    they are not empty. *)
Definition token_call (c : HaloBaseClient) : http_call :=
  {| call_method := "POST"; call_url := token_url c; call_headers := [];
     call_params := None;
     call_data :=
       ([("grant_type", "client_credentials"); ("client_id", client_id c);
         ("client_secret", client_secret c)]
        ++ (if nonempty (scope c) then [("scope", scope c)] else [])
        ++ (if nonempty (audience c) then [("audience", audience c)] else []))%list;
     call_json := None; call_timeout := timeout c |}.

(** The [try] block of the refresh: build the form, post it, check the status
    and decode the body. *)
Definition request_token : M world json :=
  try_except
    (w <- get ;;
     response <- session_call (token_call (self w)) ;;
     raise_for_status response ;;;
     response_json response)
    [ (is_RequestException,
       fun exc =>
         emit ERROR "Failed to obtain Halo Connect token: %s" [ArgExc exc] ;;;
         raise (Exc HaloAuthError "Failed to obtain Halo Connect token" (Some exc)));
      (is_ValueError,
       fun exc =>
         emit ERROR "Invalid token response received from Halo Connect: %s" [ArgExc exc] ;;;
         raise (Exc HaloAuthError "Invalid token response from Halo Connect" (Some exc))) ].

(** The part of [_get_access_token] that runs once both validity tests have
    failed. *)
Definition refresh_token : M world string :=
  emit DEBUG "Refreshing Halo Connect OAuth2 token" [] ;;;
  data <- request_token ;;
  access_token <- lift (py_get data "access_token") ;;
  expires_in <- lift (py_get data "expires_in") ;;
  if negb (truthy access_token) || negb (is_str access_token) then
    emit ERROR "Token response did not include access_token: %s" [ArgJson data] ;;;
    raise (Exc HaloAuthError "Token response missing access_token" None)
  else
    expires_in <- (if negb (truthy expires_in) then
                     emit WARNING "Token response missing expires_in; defaulting to 5 minutes" [] ;;;
                     ret (JInt 300)
                   else ret expires_in) ;;
    expires_in_int <-
      try_except (lift (py_int expires_in))
        [ (is_TypeError_or_ValueError,
           fun exc =>
             emit ERROR "Invalid expires_in value in token response: %s" [ArgJson expires_in] ;;;
             raise (Exc HaloAuthError "Invalid expires_in value in token response" (Some exc))) ] ;;
    now <- utcnow ;;
    lifetime <- lift (timedelta_seconds expires_in_int) ;;
    expires_at <- lift (datetime_add now lifetime) ;;
    let token := {| access_token := str_value access_token; expires_at := expires_at |} in
    store_token token ;;;
    emit INFO "Halo Connect token refreshed; expires at %s" [ArgDatetime expires_at] ;;;
    ret (HaloClient.access_token token).

(** [HaloBaseClient._get_access_token]: the unlocked test, then the same test
    under the lock, then the refresh. *)
Definition _get_access_token : M world string :=
  token <- valid_cached_token ;;
  match token with
  | Some tok => ret (access_token tok)
  | None =>
      token <- valid_cached_token ;;
      match token with
      | Some tok => ret (access_token tok)
      | None => refresh_token
      end
  end.

(** [HaloBaseClient._log_error_response] *)
Definition _log_error_response (response : Response) : M world unit :=
  let ctype := match content_type response with Some v => v | None => EmptyString end in
  returned <-
    (if contains "json" ctype then
       try_except
         (parsed <- response_json response ;;
          emit ERROR "Halo Connect error response: status=%s body=%s"
               [ArgInt (status_code response); ArgJson parsed] ;;;
          ret true)
         [ (is_ValueError, fun _ => ret false) ]
     else ret false) ;;
  if returned : bool then ret tt
  else emit ERROR "Halo Connect error response: status=%s body=%s"
            [ArgInt (status_code response); ArgStr (take 2048 (text response))].

(** [request_headers.update(headers)] *)
Definition dict_update {V} (d extra : list (string * V)) : list (string * V) :=
  fold_left (fun acc kv => dict_set (fst kv) (snd kv) acc) extra d.

(** [HaloBaseClient._request] *)
Definition _request (method path : string) (params json_payload : option json)
    (headers : list (string * string)) (expected_status : list Z) : M world Response :=
  if negb (nonempty path) then raise (Exc ValueError "path must be provided" None)
  else
    token <- _get_access_token ;;
    w <- get ;;
    let url := base_url (self w) ++ "/" ++ lstrip_char "/" path in
    let request_headers :=
      dict_update [("Authorization", "Bearer " ++ token); ("Accept", "application/json")]
                  headers in
    response <-
      try_except
        (session_call {| call_method := upper method; call_url := url;
                         call_headers := request_headers; call_params := params;
                         call_data := []; call_json := json_payload;
                         call_timeout := timeout (self w) |})
        [ (is_RequestException,
           fun exc =>
             emit ERROR "Request to Halo Connect failed: %s" [ArgExc exc] ;;;
             raise (Exc HaloAPIError "Failed to execute request to Halo Connect" (Some exc))) ] ;;
    if negb (existsb (Z.eqb (status_code response)) expected_status) then
      _log_error_response response ;;;
      raise (Exc HaloAPIError
               ("Halo Connect responded with unexpected status "
                ++ encode_int (status_code response) ++ ": " ++ text response) None)
    else ret response.

(** ** The vocabulary of the properties *)

(** The clock reading [now] and the refresh buffer give a representable
    [now + timedelta(seconds=buffer)], so [is_valid] answers. *)
Definition buffer_fits (now buffer_seconds : Z) : bool :=
  timedelta_ok (buffer_seconds * SECOND)
  && datetime_ok (now + buffer_seconds * SECOND).

(** The world after one more reading of the clock. *)
Definition tick (w : world) : world := snd (utcnow w).

(** [data.get("expires_in")] for the members [d] of the token response. *)
Definition expires_in_of (d : list (string * json)) : json :=
  match dict_get "expires_in" d with Some v => v | None => JNull end.

(** Without a valid cached token the getter goes on to [refresh_token], in the
    world [w'] left by the validity tests. *)
Definition stale (w w' : world) : Prop :=
  (_token (self w) = None /\ w' = w)
  \/ (exists tok, _token (self w) = Some tok
      /\ buffer_fits (utcnow_clock w (clock_reads w)) (token_refresh_buffer (self w)) = true
      /\ buffer_fits (utcnow_clock w (S (clock_reads w))) (token_refresh_buffer (self w)) = true
      /\ expires_at tok <= utcnow_clock w (clock_reads w)
                           + token_refresh_buffer (self w) * SECOND
      /\ expires_at tok <= utcnow_clock w (S (clock_reads w))
                           + token_refresh_buffer (self w) * SECOND
      /\ w' = tick (tick w)).

(** The same world, the endpoint answering the next call with [rep]. *)
Definition answering (rep : reply) (w : world) : world :=
  {| self := self w; utcnow_clock := utcnow_clock w; clock_reads := clock_reads w;
     network := fun k => if Nat.eqb k (List.length (calls w)) then rep else network w k;
     calls := calls w; logged := logged w |}.

(** The response [r] with the decoded body [body]. *)
Definition with_body (body : json) (r : Response) : Response :=
  {| status_code := status_code r; content_type := content_type r;
     text := dumps body; json_result := inr body |}.

(** The second argument of the record [_log_error_response] emits: the decoded
    body when the content type mentions json and the body decodes, the first
    2048 characters of the text otherwise. *)
Definition error_body_arg (r : Response) : log_arg :=
  let ctype := match content_type r with Some v => v | None => EmptyString end in
  if contains "json" ctype then
    match json_result r with
    | inr parsed => ArgJson parsed
    | inl _ => ArgStr (take 2048 (text r))
    end
  else ArgStr (take 2048 (text r)).

Definition error_record (r : Response) : log_record :=
  {| level := ERROR; fmt := "Halo Connect error response: status=%s body=%s";
     args := [ArgInt (status_code r); error_body_arg r] |}.

(** [data.get("access_token")] for the members [d] of the token response. *)
Definition access_token_of (d : list (string * json)) : json :=
  match dict_get "access_token" d with Some v => v | None => JNull end.

Definition raises {A} (r : outcome A) : bool :=
  match r with Raises _ => true | Returns _ => false end.

(** The replies to the token request whose body, when there is one to decode,
    is a JSON object. *)
Definition object_reply (rep : reply) : bool :=
  match rep with
  | Fails _ => true
  | Responds r =>
      http_error r ||
      match json_result r with
      | inl _ => true
      | inr (JDict _) => true
      | inr _ => false
      end
  end.

(** When the refresh ends in [HaloAuthError]: the call fails or answers with
    an error status, the body does not decode, [access_token] is missing,
    empty or not a string, or [expires_in] is truthy and [int()] rejects it. *)
Definition auth_failure (rep : reply) : bool :=
  match rep with
  | Fails _ => true
  | Responds r =>
      http_error r ||
      match json_result r with
      | inl _ => true
      | inr (JDict d) =>
          negb (truthy (access_token_of d)) || negb (is_str (access_token_of d))
          || (truthy (expires_in_of d) && raises (py_int (expires_in_of d)))
      | inr _ => false
      end
  end.

(** The specification's wording of the same condition: the network call fails,
    the response is not parseable, [access_token] is missing or not a string,
    or [expires_in] is present but not coercible to an integer. *)
Definition spec_auth_failure (rep : reply) : bool :=
  match rep with
  | Fails _ => true
  | Responds r =>
      http_error r ||
      match json_result r with
      | inl _ => true
      | inr (JDict d) =>
          match dict_get "access_token" d with
          | None => true
          | Some v => negb (is_str v)
          end
          || match dict_get "expires_in" d with
             | None => false
             | Some v => raises (py_int v)
             end
      | inr _ => true
      end
  end.

(** A lower bound on the number of characters a log handler writes for one
    argument: the text it carries. *)
Fixpoint json_chars (v : json) : nat :=
  match v with
  | JStr s => String.length s
  | JList xs => fold_right (fun x n => (json_chars x + n)%nat) 2%nat xs
  | JDict ms =>
      fold_right (fun kv n => (String.length (fst kv) + json_chars (snd kv) + n)%nat)
                 2%nat ms
  | _ => 1%nat
  end.

Definition arg_chars (a : log_arg) : nat :=
  match a with
  | ArgStr s => String.length s
  | ArgJson v => json_chars v
  | _ => 1%nat
  end.

End HaloClient.

(* ================================================================== *)
(** * [orchestrator/main.py] *)
(* ================================================================== *)

Module Orchestrator.
Import Py PyStr Json Datetime.
Local Open Scope py_scope.

Section Orchestration.

(** What the task actions act upon (the agents, their clients, their files). *)
Context {App : Type}.

(** A task action: a callable without arguments that returns a value (a
    summary dict, [None], ...) or raises. *)
Definition Action : Type := App -> outcome json * App.

(** [ScheduledTask] *)
Record ScheduledTask : Type := {
  name : string;
  time_of_day : Z;
  action : Action;
  next_run : Z
}.

(** The process state: the log file at [LOG_PATH] ([None] while it does not
    exist), the clocks behind [_utc_now()] and [datetime.now()], the
    scheduler's task list, stop flag and poll interval, and the termination
    signals that arrive while the loop sleeps. *)
Record world : Type := {
  log_file : option string;
  utc_clock : nat -> moment;
  utc_reads : nat;
  local_clock : nat -> Z;
  now_reads : nat;
  app : App;
  tasks : list ScheduledTask;
  stop_event : bool;
  handlers_installed : bool;
  signals : nat -> bool;
  sleeps : nat;
  poll_interval : Z
}.

Definition set_log_file (v : option string) (w : world) : world :=
  {| log_file := v; utc_clock := utc_clock w; utc_reads := utc_reads w;
     local_clock := local_clock w; now_reads := now_reads w; app := app w;
     tasks := tasks w; stop_event := stop_event w;
     handlers_installed := handlers_installed w; signals := signals w;
     sleeps := sleeps w; poll_interval := poll_interval w |}.

Definition set_utc_reads (v : nat) (w : world) : world :=
  {| log_file := log_file w; utc_clock := utc_clock w; utc_reads := v;
     local_clock := local_clock w; now_reads := now_reads w; app := app w;
     tasks := tasks w; stop_event := stop_event w;
     handlers_installed := handlers_installed w; signals := signals w;
     sleeps := sleeps w; poll_interval := poll_interval w |}.

Definition set_now_reads (v : nat) (w : world) : world :=
  {| log_file := log_file w; utc_clock := utc_clock w; utc_reads := utc_reads w;
     local_clock := local_clock w; now_reads := v; app := app w;
     tasks := tasks w; stop_event := stop_event w;
     handlers_installed := handlers_installed w; signals := signals w;
     sleeps := sleeps w; poll_interval := poll_interval w |}.

Definition set_app (v : App) (w : world) : world :=
  {| log_file := log_file w; utc_clock := utc_clock w; utc_reads := utc_reads w;
     local_clock := local_clock w; now_reads := now_reads w; app := v;
     tasks := tasks w; stop_event := stop_event w;
     handlers_installed := handlers_installed w; signals := signals w;
     sleeps := sleeps w; poll_interval := poll_interval w |}.

Definition set_tasks (v : list ScheduledTask) (w : world) : world :=
  {| log_file := log_file w; utc_clock := utc_clock w; utc_reads := utc_reads w;
     local_clock := local_clock w; now_reads := now_reads w; app := app w;
     tasks := v; stop_event := stop_event w;
     handlers_installed := handlers_installed w; signals := signals w;
     sleeps := sleeps w; poll_interval := poll_interval w |}.

Definition set_stop_event (v : bool) (w : world) : world :=
  {| log_file := log_file w; utc_clock := utc_clock w; utc_reads := utc_reads w;
     local_clock := local_clock w; now_reads := now_reads w; app := app w;
     tasks := tasks w; stop_event := v;
     handlers_installed := handlers_installed w; signals := signals w;
     sleeps := sleeps w; poll_interval := poll_interval w |}.

Definition set_handlers_installed (v : bool) (w : world) : world :=
  {| log_file := log_file w; utc_clock := utc_clock w; utc_reads := utc_reads w;
     local_clock := local_clock w; now_reads := now_reads w; app := app w;
     tasks := tasks w; stop_event := stop_event w;
     handlers_installed := v; signals := signals w; sleeps := sleeps w;
     poll_interval := poll_interval w |}.

Definition set_sleeps (v : nat) (w : world) : world :=
  {| log_file := log_file w; utc_clock := utc_clock w; utc_reads := utc_reads w;
     local_clock := local_clock w; now_reads := now_reads w; app := app w;
     tasks := tasks w; stop_event := stop_event w;
     handlers_installed := handlers_installed w; signals := signals w;
     sleeps := v; poll_interval := poll_interval w |}.

Definition set_poll_interval (v : Z) (w : world) : world :=
  {| log_file := log_file w; utc_clock := utc_clock w; utc_reads := utc_reads w;
     local_clock := local_clock w; now_reads := now_reads w; app := app w;
     tasks := tasks w; stop_event := stop_event w;
     handlers_installed := handlers_installed w; signals := signals w;
     sleeps := sleeps w; poll_interval := v |}.

(** [_utc_now()] *)
Definition _utc_now : M world moment :=
  fun w => (Returns (utc_clock w (utc_reads w)), set_utc_reads (S (utc_reads w)) w).

(** [datetime.now()] *)
Definition datetime_now : M world Z :=
  fun w => (Returns (local_clock w (now_reads w)), set_now_reads (S (now_reads w)) w).

(** [_format_timestamp]: a moment without [tzinfo] is taken as UTC, so both
    cases print the same fields. *)
Definition _format_timestamp (m : moment) : string := isoformat_z m.

(** ** [TaskLogger] *)

(** [TaskLogger._read_history] *)
Definition _read_history : M world (list json) :=
  w <- get ;;
  match log_file w with
  | None => ret []
  | Some content =>
      let raw_content := strip content in
      if negb (nonempty raw_content) then ret []
      else
        match loads raw_content with
        | inl msg =>
            raise (Exc ValueError
                     ("Task log is corrupted and cannot be parsed: " ++ msg)
                     (Some (Exc JSONDecodeError msg None)))
        | inr (JList data) => ret data
        | inr _ =>
            raise (Exc ValueError "Task log must contain a JSON list of entries." None)
        end
  end.

(** The dict [TaskLogger.log] builds before it takes the lock. *)
Definition log_entry (task_name status : string) (started_at completed_at : moment)
    (message : option string) (details : option (list (string * json)))
    : list (string * json) :=
  let entry := [("task", JStr task_name); ("status", JStr status);
                ("started_at", JStr (_format_timestamp started_at));
                ("completed_at", JStr (_format_timestamp completed_at))] in
  let entry := match message with
               | Some m => if nonempty m then dict_set "message" (JStr m) entry
                           else entry
               | None => entry
               end in
  match details with
  | Some d => dict_set "details" (JDict d) entry
  | None => entry
  end.

(** [TaskLogger.log] *)
Definition log (task_name status : string) (start_time : option moment)
    (message : option string) (details : option (list (string * json)))
    : M world unit :=
  completed_at <- _utc_now ;;
  let started_at := match start_time with Some t => t | None => completed_at end in
  let entry := log_entry task_name status started_at completed_at message details in
  history <- _read_history ;;
  let serialized := dumps (JList (history ++ [JDict entry])%list) in
  modify (set_log_file (Some (serialized ++ NL))).

(** The locals [status], [message] and [details] of [execute_with_logging]
    when its [finally] suite runs: the [try] suite sets [details] for a dict
    result, the [except Exception] clause sets [status] and [message]; an
    exception outside [Exception] leaves the initial values. *)
Definition locals_after (r : outcome json)
    : string * option string * option (list (string * json)) :=
  match r with
  | Returns (JDict d) => ("success", None, Some d)
  | Returns _ => ("success", None, None)
  | Raises exc =>
      if is_Exception (exc_cls exc) then ("failed", Some (exc_str exc), None)
      else ("success", None, None)
  end.

(** [action()] *)
Definition call_action (act : Action) : M world json :=
  fun w => let '(r, a) := act (app w) in (r, set_app a w).

(** [execute_with_logging] *)
Definition execute_with_logging (task_name : string) (act : Action) : M world json :=
  start_time <- _utc_now ;;
  try_finally_with (call_action act)
    (fun r =>
       let '(status, message, details) := locals_after r in
       log task_name status (Some start_time) message details).

(** ** [ScheduledTask] and [DailyTaskScheduler] *)

(** The body of [ScheduledTask._schedule_next]: the value it assigns to
    [next_run]. *)
Definition next_occurrence (time_of_day : Z) : M world Z :=
  now <- datetime_now ;;
  let candidate := combine (date now) time_of_day in
  if candidate <=? now then
    one_day <- lift (timedelta_days 1) ;;
    lift (datetime_add candidate one_day)
  else ret candidate.

Definition with_next_run (t : ScheduledTask) (v : Z) : ScheduledTask :=
  {| name := name t; time_of_day := time_of_day t; action := action t;
     next_run := v |}.

Fixpoint list_set {A} (l : list A) (i : nat) (v : A) : list A :=
  match l, i with
  | [], _ => []
  | _ :: r, O => v :: r
  | x :: r, S i' => x :: list_set r i' v
  end.

(** [self._tasks[i]._schedule_next()] *)
Definition _schedule_next (i : nat) : M world unit :=
  w <- get ;;
  match nth_error (tasks w) i with
  | None => ret tt
  | Some t =>
      candidate <- next_occurrence (time_of_day t) ;;
      modify (fun w => set_tasks (list_set (tasks w) i (with_next_run t candidate)) w)
  end.

(** [ScheduledTask.mark_executed] *)
Definition mark_executed (i : nat) : M world unit := _schedule_next i.

(** [DailyTaskScheduler.__init__] *)
Definition scheduler_init (poll_interval_seconds : Z) : M world unit :=
  modify (fun w =>
    set_stop_event false
      (set_tasks [] (set_poll_interval (Z.max 1 poll_interval_seconds) w))).

(** [DailyTaskScheduler.add_daily_task]: the dataclass constructor runs
    [__post_init__], which schedules the first run. *)
Definition add_daily_task (task_name : string) (run_time : Z) (act : Action)
    : M world unit :=
  candidate <- next_occurrence run_time ;;
  modify (fun w =>
    set_tasks (tasks w ++ [{| name := task_name; time_of_day := run_time;
                              action := act; next_run := candidate |}])%list w).

(** One turn of [for task in self._tasks] in [start]. *)
Definition run_if_due (now : Z) (i : nat) : M world unit :=
  w <- get ;;
  match nth_error (tasks w) i with
  | None => ret tt
  | Some task =>
      if now >=? next_run task then
        try_finally
          (try_except
             (execute_with_logging (name task) (action task) ;;; ret tt)
             [ (is_Exception, fun _ => ret tt) ])
          (mark_executed i)
      else ret tt
  end.

Fixpoint for_each (indices : list nat) (body : nat -> M world unit) : M world unit :=
  match indices with
  | [] => ret tt
  | i :: rest => body i ;;; for_each rest body
  end.

(** The scan of one poll cycle: read the clock once, then visit every task. *)
Definition poll_tasks : M world unit :=
  now <- datetime_now ;;
  w <- get ;;
  for_each (seq 0 (List.length (tasks w))) (run_if_due now).

(** [time.sleep(self._poll_interval_seconds)]; a termination signal that
    arrives meanwhile runs [_handle_stop_signal] if [start] installed it. *)
Definition sleep : M world unit :=
  modify (fun w =>
    set_sleeps (S (sleeps w))
      (set_stop_event (stop_event w || (handlers_installed w && signals w (sleeps w))) w)).

(** The [while] loop of [start], for at most [fuel] cycles; it answers whether
    the loop ended (the stop flag was found set). *)
Fixpoint poll_loop (fuel : nat) : M world bool :=
  match fuel with
  | O => ret false
  | S fuel' =>
      w <- get ;;
      if stop_event w then ret true
      else poll_tasks ;;; sleep ;;; poll_loop fuel'
  end.

(** [DailyTaskScheduler.start]; [Some tt] when it returned, [None] when the
    loop is still running after [fuel] cycles. *)
Definition start (on_main_thread : bool) (fuel : nat) : M world (option unit) :=
  (if on_main_thread then modify (set_handlers_installed true) else ret tt) ;;;
  ended <- try_finally_with (poll_loop fuel)
             (fun r => match r with
                       | Returns false => ret tt
                       | _ => modify (set_stop_event true)
                       end) ;;
  ret (if ended : bool then Some tt else None).

(** ** The runner *)

(** [run_recalls] and [run_claims] hand over to the agents, which are not
    part of this development. *)
Context (run_recalls run_claims : Action).

Definition HOUR : Z := 3600 * SECOND.

(** [run_scheduler] *)
Definition run_scheduler (on_main_thread : bool) (fuel : nat) : M world (option unit) :=
  scheduler_init 60 ;;;
  add_daily_task "daily_recalls" (9 * HOUR) run_recalls ;;;
  add_daily_task "daily_claims" (17 * HOUR) run_claims ;;;
  log "scheduler" "started" None (Some "Daily scheduler started.") None ;;;
  try_finally_with (start on_main_thread fuel)
    (fun r => match r with
              | Returns None => ret tt
              | _ => log "scheduler" "stopped" None (Some "Daily scheduler stopped.") None
              end).

(** The value of [args.command]. *)
Inductive command : Type := run_scheduler_cmd | run_recalls_cmd | run_claims_cmd.

(** [main]; [Some code] is the value it returns, [None] stands for a
    scheduler that is still running after [fuel] cycles. *)
Definition main (cmd : command) (on_main_thread : bool) (fuel : nat)
    : M world (option Z) :=
  match cmd with
  | run_recalls_cmd =>
      execute_with_logging "daily_recalls" run_recalls ;;; ret (Some 0)
  | run_claims_cmd =>
      execute_with_logging "daily_claims" run_claims ;;; ret (Some 0)
  | run_scheduler_cmd =>
      r <- run_scheduler on_main_thread fuel ;;
      ret (match r with Some _ => Some 0 | None => None end)
  end.

(** The exit status of [sys.exit(main())]: the returned code, or 1 when an
    exception derived from [Exception] escapes. *)
Definition exit_status (r : outcome (option Z)) : option Z :=
  match r with
  | Returns code => code
  | Raises e => if is_Exception (exc_cls e) then Some 1 else None
  end.

(** ** The vocabulary of the properties *)

(** *** Calls of [log] and the entries they append *)

(** The arguments of one call of [TaskLogger.log]. *)
Record log_call : Type := {
  lc_task : string;
  lc_status : string;
  lc_start : option moment;
  lc_message : option string;
  lc_details : option (list (string * json))
}.



(** The entry a call appends when [_utc_now()] reads [completed_at]. *)
Definition entry_of (completed_at : moment) (c : log_call) : json :=
  JDict (log_entry (lc_task c) (lc_status c)
           (match lc_start c with Some t => t | None => completed_at end)
           completed_at (lc_message c) (lc_details c)).


Definition details_well_formed (c : log_call) : bool :=
  match lc_details c with
  | Some d => well_formed (JDict d)
  | None => true
  end.

(** An entry records a call: [task], [status] and [details] are the call's,
    and [message] is the call's when that is a non-empty string; an empty
    message leaves no member, as an absent one does. *)
Definition entry_records (c : log_call) (e : json) : Prop :=
  exists d, e = JDict d
    /\ dict_get "task" d = Some (JStr (lc_task c))
    /\ dict_get "status" d = Some (JStr (lc_status c))
    /\ dict_get "message" d
       = match lc_message c with
         | Some m => if nonempty m then Some (JStr m) else None
         | None => None
         end
    /\ dict_get "details" d = option_map JDict (lc_details c).


Definition is_list (v : json) : bool :=
  match v with JList _ => true | _ => false end.

(** The log file cannot be read: it holds more than white space, and
    [json.loads] rejects that text or decodes it to something other than a
    list.  These are the files on which [_read_history] raises. *)
Definition corrupt_log (w : world) : bool :=
  match log_file w with
  | None => false
  | Some content =>
      nonempty (strip content)
      && match check (strip content) with
         | inl _ => true
         | inr k => negb (is_array k)
         end
  end.

(** The state [log] leaves when the history reads as [h]. *)
Definition logged_state (task_name status : string) (start_time : option moment)
    (message : option string) (details : option (list (string * json)))
    (h : list json) (w : world) : world :=
  set_log_file
    (Some (dumps (JList (h ++ [entry_of (utc_clock w (utc_reads w))
                                 {| lc_task := task_name; lc_status := status;
                                    lc_start := start_time; lc_message := message;
                                    lc_details := details |}])%list) ++ NL))
    (set_utc_reads (S (utc_reads w)) w).

(** *** Attempts and schedules *)

(** The call of [log] an attempt ends with. *)
Definition attempt_call (task_name : string) (start_time : moment) (r : outcome json)
    : log_call :=
  let '(status, message, details) := locals_after r in
  {| lc_task := task_name; lc_status := status; lc_start := Some start_time;
     lc_message := message; lc_details := details |}.

(** What the poll loop survives: a result, or an exception derived from
    [Exception]. *)
Definition survivable (r : outcome json) : bool :=
  match r with
  | Returns _ => true
  | Raises exc => is_Exception (exc_cls exc)
  end.

(** The clock reading [now] lets [_schedule_next] compute: it is a datetime
    and the day after it is representable. *)
Definition schedulable (now : Z) : bool :=
  datetime_ok now && (date now + 1 <? MAX_DAYS).

(** The next occurrence of [time_of_day] strictly after [now]. *)
Definition next_after (time_of_day now : Z) : Z :=
  let candidate := combine (date now) time_of_day in
  if candidate <=? now then candidate + DAY else candidate.

(** *** One poll cycle, as functions of the task list *)

(** The test of the loop body: [now >= task.next_run]. *)
Definition due (now : Z) (t : ScheduledTask) : bool := now >=? next_run t.

(** What the actions act upon once the due tasks of [ts] have run, in order,
    from [a]. *)
Fixpoint app_after (now : Z) (ts : list ScheduledTask) (a : App) : App :=
  match ts with
  | [] => a
  | t :: rest =>
      if due now t then app_after now rest (snd (action t a))
      else app_after now rest a
  end.

(** The entries the due tasks of [ts] append: each attempt reads the UTC clock
    twice, at its start and when it logs. *)
Fixpoint cycle_entries (utc : nat -> moment) (now : Z) (ts : list ScheduledTask)
    (k : nat) (a : App) : list json :=
  match ts with
  | [] => []
  | t :: rest =>
      if due now t then
        entry_of (utc (S k)) (attempt_call (name t) (utc k) (fst (action t a)))
        :: cycle_entries utc now rest (S (S k)) (snd (action t a))
      else cycle_entries utc now rest k a
  end.

(** The task list after the cycle: each due task is rescheduled from one more
    reading of the local clock. *)
Fixpoint cycle_tasks (clock : nat -> Z) (now : Z) (ts : list ScheduledTask)
    (k : nat) : list ScheduledTask :=
  match ts with
  | [] => []
  | t :: rest =>
      if due now t then
        with_next_run t (next_after (time_of_day t) (clock k))
        :: cycle_tasks clock now rest (S k)
      else t :: cycle_tasks clock now rest k
  end.

(** The number of due tasks in [ts]. *)
Definition due_count (now : Z) (ts : list ScheduledTask) : nat :=
  List.length (filter (due now) ts).

(** A task the cycle can deal with: its time of day is one, and its action,
    in whatever state, returns a value (a dict with unique keys, if a dict) or
    raises an exception derived from [Exception]. *)
Definition well_behaved (t : ScheduledTask) : Prop :=
  time_ok (time_of_day t) = true
  /\ forall a, survivable (fst (action t a)) = true
               /\ forall d, fst (action t a) = Returns (JDict d) ->
                            well_formed (JDict d) = true.

(** The entry [e] belongs to an attempt of the task [t]. *)
Definition entry_of_task (t : ScheduledTask) (e : json) : Prop :=
  exists d, e = JDict d /\ dict_get "task" d = Some (JStr (name t)).

(** The state a due task leaves behind when the log is readable and the
    action is survivable. *)
Definition after_attempt (w : world) (i : nat) (t : ScheduledTask) (h : list json)
    : world :=
  let r := fst (action t (app w)) in
  let c := attempt_call (name t) (utc_clock w (utc_reads w)) r in
  set_tasks
    (list_set (tasks w) i
       (with_next_run t (next_after (time_of_day t) (local_clock w (now_reads w)))))
    (set_now_reads (S (now_reads w))
       (logged_state (lc_task c) (lc_status c) (lc_start c) (lc_message c)
          (lc_details c) h
          (set_app (snd (action t (app w))) (set_utc_reads (S (utc_reads w)) w)))).

End Orchestration.

Arguments ScheduledTask : clear implicits.
Arguments world : clear implicits.
Arguments Action : clear implicits.

End Orchestrator.

(* ================================================================== *)
(** * [connector/halo_client.py]: the FHIR and SQL clients *)
(* ================================================================== *)

Module HaloFHIRClient.
Import Py PyStr Json HaloClient.
Local Open Scope py_scope.

(** [HaloFHIRClient.get_patient] *)
Definition get_patient (patient_id : string) : M world json :=
  if negb (nonempty patient_id)
  then raise (Exc ValueError "patient_id must be provided" None)
  else
    response <- _request "GET" ("Patient/" ++ patient_id) None None
                  [("Accept", "application/fhir+json")] [200] ;;
    response_json response.

(** [HaloFHIRClient.get_appointment] *)
Definition get_appointment (appointment_id : string) : M world json :=
  if negb (nonempty appointment_id)
  then raise (Exc ValueError "appointment_id must be provided" None)
  else
    response <- _request "GET" ("Appointment/" ++ appointment_id) None None
                  [("Accept", "application/fhir+json")] [200] ;;
    response_json response.

(** [v is not None], for an item of [search_params]. *)
Definition is_not_none (kv : string * json) : bool :=
  match snd kv with JNull => false | _ => true end.

(** [HaloFHIRClient.search_appointments]; [search_params] are the keyword
    arguments of the call, a dict. *)
Definition search_appointments (patient_id : string)
    (search_params : list (string * json)) : M world json :=
  if negb (nonempty patient_id)
  then raise (Exc ValueError "patient_id must be provided" None)
  else
    let params := dict_update [("patient", JStr patient_id)]
                    (filter is_not_none search_params) in
    response <- _request "GET" "Appointment" (Some (JDict params)) None
                  [("Accept", "application/fhir+json")] [200] ;;
    response_json response.

Definition is_dict (v : json) : bool :=
  match v with JDict _ => true | _ => false end.

(** [HaloFHIRClient.create_appointment] *)
Definition create_appointment (payload : json) : M world json :=
  if negb (is_dict payload) || negb (truthy payload)
  then raise (Exc ValueError "payload must be a non-empty dictionary" None)
  else
    response <- _request "POST" "Appointment" None (Some payload)
                  [("Accept", "application/fhir+json")] [200; 201] ;;
    response_json response.

End HaloFHIRClient.

Module HaloSQLClient.
Import Py PyStr Json HaloClient.
Local Open Scope py_scope.

(** [HaloSQLClient.run_sql] *)
Definition run_sql (query : json) : M world json :=
  if negb (truthy query) || negb (is_str query)
  then raise (Exc ValueError "query must be a non-empty string" None)
  else
    let payload := JDict [("query", query)] in
    response <- _request "POST" "query" None (Some payload) [] [200; 201] ;;
    response_json response.

End HaloSQLClient.

(** ** The vocabulary of the client properties *)

Module ClientTerms.
Import Py PyStr Json Datetime HaloClient.

Definition first_char (s : string) : option ascii :=
  match s with String c _ => Some c | EmptyString => None end.

Fixpoint last_char (s : string) : option ascii :=
  match s with
  | EmptyString => None
  | String c EmptyString => Some c
  | String _ r => last_char r
  end.

(** [isinstance(e, HaloClientError)] *)
Definition is_HaloClientError (c : exc_class) : bool :=
  match c with
  | HaloClientError | HaloAuthError | HaloAPIError => true
  | _ => false
  end.

(** The headers [_request] sends when the caller gives [headers]. *)
Definition sent_headers (tok : string) (headers : list (string * string))
    : list (string * string) :=
  dict_update [("Authorization", "Bearer " ++ tok); ("Accept", "application/json")]
              headers.

(** The call a client method makes. *)
Definition api_call (c : HaloBaseClient) (tok method path accept : string)
    (params payload : option json) : http_call :=
  {| call_method := method;
     call_url := base_url c ++ "/" ++ path;
     call_headers := [("Authorization", "Bearer " ++ tok); ("Accept", accept)];
     call_params := params; call_data := []; call_json := payload;
     call_timeout := timeout c |}.

(** What a client method makes of the reply to its call: the decoded body
    when the status is one of [expected] and the body decodes. *)
Definition resource_outcome (expected : list Z) (r : Response) : outcome json :=
  if existsb (Z.eqb (status_code r)) expected then
    match json_result r with
    | inr v => Returns v
    | inl msg => Raises (Exc RequestsJSONDecodeError msg None)
    end
  else Raises (Exc HaloAPIError
                 ("Halo Connect responded with unexpected status "
                  ++ encode_int (status_code r) ++ ": " ++ text r) None).

(** The five operations of the two clients, with their arguments. *)
Inductive operation : Type :=
| GetPatient (patient_id : string)
| GetAppointment (appointment_id : string)
| SearchAppointments (patient_id : string) (search_params : list (string * json))
| CreateAppointment (payload : json)
| RunSql (query : json).

Definition perform (op : operation) : M world json :=
  match op with
  | GetPatient patient_id => HaloFHIRClient.get_patient patient_id
  | GetAppointment appointment_id => HaloFHIRClient.get_appointment appointment_id
  | SearchAppointments patient_id search_params =>
      HaloFHIRClient.search_appointments patient_id search_params
  | CreateAppointment payload => HaloFHIRClient.create_appointment payload
  | RunSql query => HaloSQLClient.run_sql query
  end.

(** The arguments pass the check each method starts with. *)
Definition accepted (op : operation) : bool :=
  match op with
  | GetPatient patient_id => nonempty patient_id
  | GetAppointment appointment_id => nonempty appointment_id
  | SearchAppointments patient_id _ => nonempty patient_id
  | CreateAppointment payload => HaloFHIRClient.is_dict payload && truthy payload
  | RunSql query => truthy query && is_str query
  end.

(** The statuses under which the method hands on the body. *)
Definition expected_statuses (op : operation) : list Z :=
  match op with
  | CreateAppointment _ | RunSql _ => [200; 201]
  | _ => [200]
  end.

(** The call the operation makes for a client [c] holding the token [tok]. *)
Definition call_of (op : operation) (c : HaloBaseClient) (tok : string) : http_call :=
  match op with
  | GetPatient patient_id =>
      api_call c tok "GET" ("Patient/" ++ patient_id) "application/fhir+json" None None
  | GetAppointment appointment_id =>
      api_call c tok "GET" ("Appointment/" ++ appointment_id) "application/fhir+json"
        None None
  | SearchAppointments patient_id search_params =>
      api_call c tok "GET" "Appointment" "application/fhir+json"
        (Some (JDict (dict_update [("patient", JStr patient_id)]
                        (filter HaloFHIRClient.is_not_none search_params))))
        None
  | CreateAppointment payload =>
      api_call c tok "POST" "Appointment" "application/fhir+json" None (Some payload)
  | RunSql query =>
      api_call c tok "POST" "query" "application/json" None
        (Some (JDict [("query", query)]))
  end.

End ClientTerms.

(* ================================================================== *)
(** * The poll loop: what a cycle keeps and how it ends *)
(* ================================================================== *)

Module Loop.
Import Py PyStr Json Datetime Orchestrator.
Local Open Scope py_scope.

Section Controls.
Context {App : Type}.

(** What the attempts of a poll cycle leave alone: the stop flag, the signal
    handlers, the signals to come, the count of sleeps, the poll interval and
    the two clocks. *)
Definition controls_kept (w w' : world App) : Prop :=
  stop_event w' = stop_event w
  /\ handlers_installed w' = handlers_installed w
  /\ signals w' = signals w
  /\ sleeps w' = sleeps w
  /\ poll_interval w' = poll_interval w
  /\ local_clock w' = local_clock w
  /\ utc_clock w' = utc_clock w.

(** A computation that leaves them alone, whatever its outcome. *)
Definition keeps {A} (m : M (world App) A) : Prop :=
  forall w, controls_kept w (snd (m w)).

(** The first termination signal arrives during the [n]-th sleep from now. *)
Definition first_signal (w : world App) (n : nat) : Prop :=
  (forall k, (k < n)%nat -> signals w (sleeps w + k) = false)
  /\ signals w (sleeps w + n) = true.

(** The entry [e] carries one of the task names [names]. *)
Definition entry_names (names : list string) (e : json) : Prop :=
  exists d task_name,
    e = JDict d /\ dict_get "task" d = Some (JStr task_name) /\ In task_name names.

(** An entry of the scheduler itself. *)
Definition scheduler_entry (status message : string) (e : json) : Prop :=
  exists d, e = JDict d
    /\ dict_get "task" d = Some (JStr "scheduler")
    /\ dict_get "status" d = Some (JStr status)
    /\ dict_get "message" d = Some (JStr message)
    /\ dict_get "details" d = None.

(** An action the loop can deal with, in whatever state: it returns a value
    (a dict with unique keys, if a dict) or raises an exception derived from
    [Exception]. *)
Definition well_behaved_action (act : Action App) : Prop :=
  forall a, survivable (fst (act a)) = true
            /\ forall d, fst (act a) = Returns (JDict d) ->
                         well_formed (JDict d) = true.

End Controls.

End Loop.

(* ================================================================== *)
(** * [str(...)] and [repr(...)] *)
(* ================================================================== *)

Module PyRepr.
Import PyStr Json.

(** [str.isprintable] on one code point below 256. *)
Definition isprintable (c : ascii) : bool :=
  let n := ord c in
  negb ((n <? 32) || ((127 <=? n) && (n <=? 160)) || (n =? 173))%N.

(** One character of [repr(s)] when [quote] encloses it. *)
Definition repr_char (quote c : ascii) : string :=
  let n := ord c in
  if (Ascii.eqb c quote || (n =? 92)%N)%bool then String "\" (String c "")
  else if (n =? 9)%N then "\t"
  else if (n =? 10)%N then "\n"
  else if (n =? 13)%N then "\r"
  else if isprintable c then String c ""
  else "\x" ++ String (hexdig (n / 16)) (String (hexdig (n mod 16)) "").

Fixpoint repr_body (quote : ascii) (s : string) : string :=
  match s with
  | EmptyString => EmptyString
  | String c r => repr_char quote c ++ repr_body quote r
  end.

Fixpoint has_char (x : ascii) (s : string) : bool :=
  match s with
  | EmptyString => false
  | String c r => Ascii.eqb c x || has_char x r
  end.

(** [repr(s)] for a string: single quotes, unless the string holds a single
    quote and no double quote. *)
Definition repr_str (s : string) : string :=
  let quote := if has_char "'" s && negb (has_char QUOTE s) then QUOTE else "'"%char in
  String quote (repr_body quote s ++ String quote "").

Fixpoint join (sep : string) (parts : list string) : string :=
  match parts with
  | [] => EmptyString
  | [p] => p
  | p :: rest => p ++ sep ++ join sep rest
  end.

(** [repr(v)] for a decoded JSON value. *)
Fixpoint py_repr (v : json) : string :=
  match v with
  | JNull => "None"
  | JBool true => "True"
  | JBool false => "False"
  | JInt n => encode_int n
  | JStr s => repr_str s
  | JList xs => "[" ++ join ", " (map py_repr xs) ++ "]"
  | JDict ms =>
      "{" ++ join ", " (map (fun kv => repr_str (fst kv) ++ ": " ++ py_repr (snd kv)) ms)
      ++ "}"
  end.

(** [str(v)] *)
Definition py_str (v : json) : string :=
  match v with
  | JStr s => s
  | _ => py_repr v
  end.

End PyRepr.

(* ================================================================== *)
(** * [orchestrator/agents/appointment.py] and [orchestrator/agents/recall.py] *)
(* ================================================================== *)

Module Agents.
Import Py PyStr Json Datetime PyRepr.
Local Open Scope py_scope.

(** A [datetime.date], as its calendar fields. *)
Record pydate : Type := Date { dyear : N; dmonth : N; dday : N }.

(** [a <= b] for two dates. *)
Definition date_le (a b : pydate) : bool :=
  ((dyear a <? dyear b)
   || ((dyear a =? dyear b)
       && ((dmonth a <? dmonth b)
           || ((dmonth a =? dmonth b) && (dday a <=? dday b)))))%N.

(** [d.isoformat()] *)
Definition date_isoformat (d : pydate) : string :=
  zero_pad 4 (dyear d) ++ "-" ++ zero_pad 2 (dmonth d) ++ "-" ++ zero_pad 2 (dday d).

(** [m.date()] for a datetime [m]. *)
Definition date_of (m : moment) : pydate := Date (year m) (month m) (day m).

(** [AppointmentRecord]: a frozen dataclass. *)
Record AppointmentRecord : Type := {
  patient_id : string;
  patient_name : string;
  appointment_date : pydate;
  needs_recall : bool
}.

(** What [_coerce_date] may be given: a date, a datetime, or a value decoded
    from JSON. *)
Inductive pyobject : Type :=
| ObjDate (d : pydate)
| ObjDatetime (m : moment)
| ObjJson (v : json).

(** What the agents act upon: the appointments file at [source_path] ([None]
    while it does not exist) and the clock behind [date.today()]. *)
Record files : Type := {
  source_path : string;
  appointments_file : option string;
  today_clock : nat -> pydate;
  today_reads : nat
}.

Section Appointments.

(** [datetime.fromisoformat] of the standard library: the datetime it parses,
    or the message of the [ValueError] it raises. *)
Context (fromisoformat : string -> parse moment).

(** [AppointmentAgent._coerce_date] *)
Definition _coerce_date (value : pyobject) : outcome pydate :=
  match value with
  | ObjDate d => Returns d
  | ObjDatetime m => Returns (date_of m)
  | ObjJson (JStr s) =>
      match fromisoformat s with
      | inr m => Returns (date_of m)
      | inl msg =>
          Raises (Exc ValueError "Appointment dates must be ISO formatted"
                    (Some (Exc ValueError msg None)))
      end
  | ObjJson _ => Raises (Exc ValueError "Unsupported appointment date format" None)
  end.

(** [entry.get(key, default)] *)
Definition get_default (entry : list (string * json)) (key : string) (default : json)
    : json :=
  match dict_get key entry with Some v => v | None => default end.

(** [AppointmentAgent._parse_record] *)
Definition _parse_record (entry : json) : outcome AppointmentRecord :=
  match entry with
  | JDict d =>
      match dict_get "patient_id" d with
      | None =>
          Raises (Exc ValueError "Missing required appointment field"
                    (Some (Exc (ExcOther "KeyError") "'patient_id'" None)))
      | Some id =>
          let patient_id := py_str id in
          let patient_name := py_str (get_default d "patient_name" (JStr "")) in
          let needs_recall := truthy (get_default d "needs_recall" (JBool false)) in
          let appointment_raw := get_default d "appointment_date" JNull in
          match _coerce_date (ObjJson appointment_raw) with
          | Returns appointment_date =>
              Returns {| patient_id := patient_id; patient_name := patient_name;
                         appointment_date := appointment_date;
                         needs_recall := needs_recall |}
          | Raises e => Raises e
          end
      end
  | _ => Raises (Exc ValueError "Each appointment entry must be a dictionary." None)
  end.

(** [for entry in raw_data]: the items a decoded value yields when iterated,
    when it is an [Iterable]: the elements of a list, the keys of a dict, the
    characters of a string. *)
Definition iterate (raw_data : json) : option (list json) :=
  match raw_data with
  | JList xs => Some xs
  | JDict ms => Some (map (fun kv => JStr (fst kv)) ms)
  | JStr s => Some (map (fun c => JStr (String c "")) (list_ascii_of_string s))
  | _ => None
  end.

(** The loop of [load_appointments]: the records of the entries, up to the
    first entry that does not parse. *)
Fixpoint parse_records (entries : list json) : outcome (list AppointmentRecord) :=
  match entries with
  | [] => Returns []
  | entry :: rest =>
      match _parse_record entry with
      | Raises e => Raises e
      | Returns record =>
          match parse_records rest with
          | Raises e => Raises e
          | Returns records => Returns (record :: records)
          end
      end
  end.

(** [AppointmentAgent.load_appointments].  The message of the [ValueError]
    is built from the decode error's [msg]; the chained cause is recorded
    with that same [msg], without the position [str()] appends to it. *)
Definition load_appointments : M files (list AppointmentRecord) :=
  w <- get ;;
  match appointments_file w with
  | None => ret []
  | Some content =>
      match loads content with
      | inl msg =>
          raise (Exc ValueError
                   ("Invalid appointment data in " ++ source_path w ++ ": " ++ msg)
                   (Some (Exc JSONDecodeError msg None)))
      | inr raw_data =>
          match iterate raw_data with
          | None => raise (Exc ValueError "Appointment data must be a list of records." None)
          | Some entries => lift (parse_records entries)
          end
      end
  end.

(** [date.today()] *)
Definition today : M files pydate :=
  fun w => (Returns (today_clock w (today_reads w)),
            {| source_path := source_path w; appointments_file := appointments_file w;
               today_clock := today_clock w; today_reads := S (today_reads w) |}).

(** [as_of or date.today()]: a date is never falsy. *)
Definition or_today (as_of : option pydate) : M files pydate :=
  match as_of with
  | Some d => ret d
  | None => today
  end.

(** The loop of [get_patients_due_for_recall]. *)
Fixpoint due_records (as_of : pydate) (records : list AppointmentRecord)
    : list AppointmentRecord :=
  match records with
  | [] => []
  | record :: rest =>
      if needs_recall record then record :: due_records as_of rest
      else if date_le (appointment_date record) as_of
           then record :: due_records as_of rest
           else due_records as_of rest
  end.

(** [AppointmentAgent.get_patients_due_for_recall] *)
Definition get_patients_due_for_recall (as_of : option pydate)
    : M files (list AppointmentRecord) :=
  as_of <- or_today as_of ;;
  records <- load_appointments ;;
  ret (due_records as_of records).

(** The dict [schedule_recalls] appends for one record. *)
Definition recall_entry (as_of : pydate) (record : AppointmentRecord) : json :=
  JDict [("patient_id", JStr (patient_id record));
         ("patient_name", JStr (patient_name record));
         ("scheduled_for", JStr (date_isoformat as_of))].

(** [RecallAgent.schedule_recalls] *)
Definition schedule_recalls (as_of : option pydate) : M files json :=
  as_of <- or_today as_of ;;
  due <- get_patients_due_for_recall (Some as_of) ;;
  let recalls := map (recall_entry as_of) due in
  ret (JDict [("as_of", JStr (date_isoformat as_of));
              ("scheduled_count", JInt (Z.of_nat (List.length recalls)));
              ("recalls", JList recalls)]).

(** [run_recalls] of [orchestrator/main.py]: an [AppointmentAgent] on the
    default path, a [RecallAgent] on it, and [schedule_recalls()]. *)
Definition run_recalls : Orchestrator.Action files := schedule_recalls None.

(** ** The vocabulary of the properties *)

(** The test of the loop of [get_patients_due_for_recall]. *)
Definition is_due (as_of : pydate) (record : AppointmentRecord) : bool :=
  needs_recall record || date_le (appointment_date record) as_of.

(** The summary [schedule_recalls] returns for the day [as_of] and the
    records [due]. *)
Definition summary_of (as_of : pydate) (due : list AppointmentRecord) : json :=
  JDict [("as_of", JStr (date_isoformat as_of));
         ("scheduled_count", JInt (Z.of_nat (List.length due)));
         ("recalls", JList (map (recall_entry as_of) due))].

(** The entries [xs] parse to the records [rs], one for one. *)
Definition parse_to (xs : list json) (rs : list AppointmentRecord) : Prop :=
  Forall2 (fun x r => _parse_record x = Returns r) xs rs.

End Appointments.

End Agents.

(* ================================================================== *)
(** * Concrete clients, replies and schedules *)
(* ================================================================== *)

Module Examples.
Import Py PyStr Json PyInt Datetime HaloClient.

(** 2024-01-01T00:00:00, in microseconds since 0001-01-01. *)
Definition T0 : Z := 738885 * DAY.

Definition demo_client (tok : option TokenData) : HaloBaseClient :=
  {| base_url := "https://api.haloconnect.com/fhir";
     token_url := "https://api.haloconnect.com/oauth2/token";
     client_id := "clinic"; client_secret := "s3cret";
     scope := ""; audience := "";
     timeout := DEFAULT_TIMEOUT_SECONDS;
     token_refresh_buffer := DEFAULT_TOKEN_REFRESH_BUFFER_SECONDS;
     _token := tok |}.

(** A client started at [T0]; the clock advances by one second per reading. *)
Definition demo_world (tok : option TokenData) (net : nat -> reply) : world :=
  {| self := demo_client tok;
     utcnow_clock := fun k => T0 + Z.of_nat k * SECOND;
     clock_reads := 0;
     network := net;
     calls := [];
     logged := [] |}.

(** A response whose body is the JSON text of [body]. *)
Definition json_response (status : Z) (body : json) : Response :=
  {| status_code := status; content_type := Some "application/json";
     text := dumps body; json_result := inr body |}.

Definition text_response (status : Z) (body : string) : Response :=
  {| status_code := status; content_type := Some "text/html";
     text := body; json_result := loads body |}.

Definition fresh_token : TokenData :=
  {| access_token := "cached"; expires_at := T0 + 3600 * SECOND |}.

Definition token_body (expires_in : json) : json :=
  JDict [("access_token", JStr "tok"); ("expires_in", expires_in)].

(** The endpoint grants a token for an hour. *)
Definition world_granting : world :=
  demo_world None (fun _ => Responds (json_response 200 (token_body (JInt 3600)))).

(** The endpoint grants a token and says it expires in zero seconds. *)
Definition world_expires_zero : world :=
  demo_world None (fun _ => Responds (json_response 200 (token_body (JInt 0)))).

(** A client holding a valid token, with [rep] as the answer to its call. *)
Definition world_calling (rep : reply) : world :=
  demo_world (Some fresh_token) (fun _ => rep).

(** A JSON error body that is one string of 3000 characters. *)
Definition big_error : Response :=
  json_response 500 (JStr (repeat_str 3000 "a")).

(** The endpoint answers with an empty [access_token]. *)
Definition world_empty_token : world :=
  demo_world None
    (fun _ => Responds (json_response 200
                (JDict [("access_token", JStr ""); ("expires_in", JInt 3600)]))).

(** ** The orchestrator, with actions that act on nothing *)

Definition NOON : moment := Moment 2024 1 1 12 0 0 0.

(** A process whose log file holds [file], with the given tasks; the local
    clock reads [now] whenever asked, the UTC clock noon. *)
Definition orch_world (file : option string) (now : nat -> Z)
    (ts : list (Orchestrator.ScheduledTask unit)) : Orchestrator.world unit :=
  {| Orchestrator.log_file := file;
     Orchestrator.utc_clock := fun _ => NOON;
     Orchestrator.utc_reads := 0;
     Orchestrator.local_clock := now;
     Orchestrator.now_reads := 0;
     Orchestrator.app := tt;
     Orchestrator.tasks := ts;
     Orchestrator.stop_event := false;
     Orchestrator.handlers_installed := false;
     Orchestrator.signals := fun _ => false;
     Orchestrator.sleeps := 0;
     Orchestrator.poll_interval := 60 |}.


(** An action that raises [ValueError("boom")] and one that returns a
    summary. *)
Definition failing : Orchestrator.Action unit :=
  fun a => (Raises (Exc ValueError "boom" None), a).

Definition succeeding : Orchestrator.Action unit :=
  fun a => (Returns (JDict [("scheduled", JInt 2)]), a).

Definition MINUTE : Z := 60 * SECOND.

(** 2024-01-01T09:00:00 local time. *)
Definition NINE : Z := T0 + 9 * Orchestrator.HOUR.


(** A process whose log file holds the text [not json]. *)
Definition corrupt_log_world : Orchestrator.world unit :=
  orch_world (Some "not json") (fun _ => T0) [].

(** A process whose log file holds one space. *)
Definition blank_log_world : Orchestrator.world unit :=
  orch_world (Some " ") (fun _ => T0) [].

(** A process without a log file. *)
Definition no_log_world : Orchestrator.world unit :=
  orch_world None (fun _ => T0) [].

(** Two tasks due at 09:00; the first one raises. *)
Definition boom_task : Orchestrator.ScheduledTask unit :=
  {| Orchestrator.name := "daily_recalls";
     Orchestrator.time_of_day := 9 * Orchestrator.HOUR;
     Orchestrator.action := failing;
     Orchestrator.next_run := NINE |}.

Definition fine_task : Orchestrator.ScheduledTask unit :=
  {| Orchestrator.name := "daily_claims";
     Orchestrator.time_of_day := 9 * Orchestrator.HOUR;
     Orchestrator.action := succeeding;
     Orchestrator.next_run := NINE |}.

(** Both tasks are due: the clock reads 09:00:30. *)
Definition world_nine : Orchestrator.world unit :=
  orch_world None (fun _ => NINE + 30 * SECOND) [boom_task; fine_task].

(** A failing task registered two days ago at 10:00 for 09:00, hence due
    since yesterday 09:00; the loop polls it today at 08:00, and next at
    09:00 of the same day. *)
Definition world_catching_up : Orchestrator.world unit :=
  snd (Orchestrator.add_daily_task "daily_recalls" (9 * Orchestrator.HOUR) failing
         (orch_world None
            (fun k => match k with
                      | O => T0 - 2 * DAY + 10 * Orchestrator.HOUR
                      | 1%nat | 2%nat => T0 + 8 * Orchestrator.HOUR
                      | _ => NINE
                      end)
            [])).

End Examples.

(* ================================================================== *)
(** * Further concrete schedules, files and requests *)
(* ================================================================== *)

Module Scenarios.
Import Py PyStr Json PyInt Datetime PyRepr Agents Examples.

(** An action that is interrupted from the keyboard. *)
Definition interrupted : Orchestrator.Action unit :=
  fun a => (Raises (Exc KeyboardInterrupt "" None), a).


(** A process whose log file holds [text]. *)
Definition world_logging (text : string) : Orchestrator.world unit :=
  orch_world (Some text) (fun _ => T0) [].

(** Both tasks are due at 09:00:30, and the log file cannot be read. *)
Definition world_nine_unreadable : Orchestrator.world unit :=
  orch_world (Some "not json") (fun _ => NINE + 30 * SECOND) [boom_task; fine_task].

(** The same schedule with a readable log; a termination signal arrives during
    the second sleep. *)
Definition world_signalled (file : option string) : Orchestrator.world unit :=
  {| Orchestrator.log_file := file;
     Orchestrator.utc_clock := fun _ => NOON;
     Orchestrator.utc_reads := 0;
     Orchestrator.local_clock := fun _ => NINE + 30 * SECOND;
     Orchestrator.now_reads := 0;
     Orchestrator.app := tt;
     Orchestrator.tasks := [boom_task; fine_task];
     Orchestrator.stop_event := false;
     Orchestrator.handlers_installed := false;
     Orchestrator.signals := fun k => Nat.eqb k 1;
     Orchestrator.sleeps := 0;
     Orchestrator.poll_interval := 60 |}.

(** ** Appointments *)

Definition two_digits (a b : ascii) : option N :=
  match PyInt.digit_val a, PyInt.digit_val b with
  | Some x, Some y => Some (Z.to_N (x * 10 + y))
  | _, _ => None
  end.

Definition is_leap (y : N) : bool :=
  (((y mod 4 =? 0) && negb (y mod 100 =? 0)) || (y mod 400 =? 0))%N.

Definition days_in_month (y m : N) : N :=
  match m with
  | 2%N => if is_leap y then 29%N else 28%N
  | 4%N | 6%N | 9%N | 11%N => 30%N
  | _ => 31%N
  end.

(** A stand-in for [datetime.fromisoformat] that knows the plain form
    YYYY-MM-DD only, and rejects every other text. *)
Definition plain_date (s : string) : parse moment :=
  match s with
  | String ya (String yb (String yc (String yd (String "-" (String ma (String mb
      (String "-" (String da (String db EmptyString))))))))) =>
      match two_digits ya yb, two_digits yc yd, two_digits ma mb, two_digits da db with
      | Some a, Some b, Some m, Some d =>
          let y := (a * 100 + b)%N in
          if ((1 <=? y) && (1 <=? m) && (m <=? 12) && (1 <=? d)
              && (d <=? days_in_month y m))%N
          then inr (Moment y m d 0 0 0 0)
          else inl ("Invalid isoformat string: " ++ repr_str s)
      | _, _, _, _ => inl ("Invalid isoformat string: " ++ repr_str s)
      end
  | _ => inl ("Invalid isoformat string: " ++ repr_str s)
  end.

(** Three appointments: one past, one ahead and flagged, one ahead. *)
Definition three_appointments : json :=
  JList [ JDict [("patient_id", JInt 17); ("patient_name", JStr "Ada");
                 ("appointment_date", JStr "2023-12-01")];
          JDict [("patient_id", JStr "p2"); ("patient_name", JNull);
                 ("appointment_date", JStr "2024-06-01");
                 ("needs_recall", JBool true)];
          JDict [("patient_id", JStr "p3");
                 ("appointment_date", JStr "2024-06-02")] ].

Definition NEW_YEAR : pydate := Date 2024 1 1.

(** The agents' files on 2024-01-01, the appointments file holding [file]. *)
Definition clinic (file : option string) : files :=
  {| source_path := "data/appointments.json";
     appointments_file := file;
     today_clock := fun _ => NEW_YEAR;
     today_reads := 0 |}.

(** A process that runs the agents, without a log file yet. *)
Definition recall_world (file : option string) : Orchestrator.world files :=
  {| Orchestrator.log_file := None;
     Orchestrator.utc_clock := fun _ => NOON;
     Orchestrator.utc_reads := 0;
     Orchestrator.local_clock := fun _ => T0;
     Orchestrator.now_reads := 0;
     Orchestrator.app := clinic file;
     Orchestrator.tasks := [];
     Orchestrator.stop_event := false;
     Orchestrator.handlers_installed := false;
     Orchestrator.signals := fun k => Nat.eqb k 0;
     Orchestrator.sleeps := 0;
     Orchestrator.poll_interval := 60 |}.

(** The claims run of a process whose billing agent is out of order. *)
Definition claims_out_of_order : Orchestrator.Action files :=
  fun a => (Raises (Exc ValueError "billing is out of order" None), a).

(** ** Requests *)

(** A client without a token whose endpoint grants a token for [expires_in]
    seconds and answers every later call with [r]. *)
Definition world_serving (expires_in : Z) (r : HaloClient.Response) : HaloClient.world :=
  demo_world None
    (fun k => match k with
              | O => HaloClient.Responds (json_response 200 (token_body (JInt expires_in)))
              | _ => HaloClient.Responds r
              end).

End Scenarios.

(* ================================================================== *)
(** * Properties *)
(* ================================================================== *)

Import Py PyStr Json PyInt Datetime.

(** ** The JSON codec *)

Lemma escape_scan (c a : ascii) (tail : string) :
  scanstring (escape c ++ String a tail) = pcons c (scanstring (String a tail)).
Proof.
  destruct c as [[] [] [] [] [] [] [] []]; reflexivity.
Qed.

Lemma quoted_tail (s rest : string) :
  exists a tail, escape_body s ++ String QUOTE rest = String a tail.
Proof.
  destruct (escape_body s ++ String QUOTE rest) as [|a tail] eqn:E.
  - destruct (escape_body s); discriminate.
  - now exists a, tail.
Qed.

Lemma string_app_assoc (a b c : string) : (a ++ b) ++ c = a ++ (b ++ c).
Proof. induction a; simpl; congruence. Qed.

Lemma scanstring_escape_body (s rest : string) :
  scanstring (escape_body s ++ String QUOTE rest) = inr (s, rest).
Proof.
  induction s as [|c s IH]; simpl.
  - reflexivity.
  - rewrite string_app_assoc.
    destruct (quoted_tail s rest) as (a & tail & E). rewrite E in *.
    rewrite escape_scan, IH. reflexivity.
Qed.

Lemma string_app_nil_r (a : string) : a ++ "" = a.
Proof. induction a; simpl; congruence. Qed.

Lemma string_length_app (a b : string) :
  String.length (a ++ b) = (String.length a + String.length b)%nat.
Proof. induction a; simpl; congruence. Qed.

Lemma ends_value_no_digit (rest : string) :
  ends_value rest = true -> scan_digits rest = (Decimal.Nil, rest).
Proof.
  destruct rest as [|c r]; [reflexivity|].
  destruct c as [[] [] [] [] [] [] [] []]; simpl; try discriminate; reflexivity.
Qed.

Lemma ends_value_no_float (rest : string) :
  ends_value rest = true -> float_tail rest = false.
Proof.
  destruct rest as [|c r]; [reflexivity|].
  destruct c as [[] [] [] [] [] [] [] []]; simpl; try discriminate; reflexivity.
Qed.

Lemma scan_digits_uint (d : Decimal.uint) (rest : string) :
  ends_value rest = true ->
  scan_digits (NilEmpty.string_of_uint d ++ rest) = (d, rest).
Proof.
  intros H; induction d; simpl; try rewrite IHd; try reflexivity.
  now apply ends_value_no_digit.
Qed.

Lemma unorm_head_zero (d d' : Decimal.uint) :
  Decimal.unorm d = Decimal.D0 d' -> d' = Decimal.Nil.
Proof.
  induction d; simpl; intros H; try discriminate; try (now injection H); auto.
Qed.

Lemma pos_to_uint_head (p : positive) :
  forall d, Pos.to_uint p <> Decimal.D0 d.
Proof.
  intros d H.
  assert (Hn : Decimal.unorm (Pos.to_uint p) = Pos.to_uint p).
  { rewrite <- (DecimalPos.Unsigned.to_of (Pos.to_uint p)).
    rewrite DecimalPos.Unsigned.of_to. reflexivity. }
  rewrite H in Hn. simpl in Hn.
  pose proof (DecimalPos.Unsigned.to_uint_nonzero p) as Hz.
  apply Hz. rewrite H.
  destruct d; simpl in Hn; try reflexivity;
    try (apply unorm_head_zero in Hn; discriminate).
Qed.

Lemma scan_number_pos (neg : bool) (p : positive) (rest : string) :
  ends_value rest = true ->
  scan_number ((if neg then "-" else "")
               ++ NilZero.string_of_uint (Pos.to_uint p) ++ rest)
  = inr (JInt (if neg then Z.neg p else Z.pos p), rest).
Proof.
  intros Hr.
  assert (Hs : NilZero.string_of_uint (Pos.to_uint p)
               = NilEmpty.string_of_uint (Pos.to_uint p)).
  { unfold NilZero.string_of_uint.
    destruct (Pos.to_uint p) eqn:E; try reflexivity.
    now apply DecimalPos.Unsigned.to_uint_nonnil in E. }
  rewrite Hs.
  assert (Hv : Z.of_uint (Pos.to_uint p) = Z.pos p).
  { unfold Z.of_uint. now rewrite DecimalPos.Unsigned.of_to. }
  pose proof (scan_digits_uint (Pos.to_uint p) rest Hr) as Hd.
  pose proof (pos_to_uint_head p) as Hh.
  unfold scan_number.
  destruct (Pos.to_uint p) as [|d|d|d|d|d|d|d|d|d|d] eqn:E;
    try (now apply DecimalPos.Unsigned.to_uint_nonnil in E);
    try (now exfalso; apply (Hh d));
    destruct neg; cbn -[scan_digits Z.of_uint float_tail];
    cbn -[Z.of_uint float_tail] in Hd |- *;
    rewrite (scan_digits_uint d rest Hr) in *;
    rewrite (ends_value_no_float rest Hr); rewrite Hv; reflexivity.
Qed.

Lemma scan_number_encode (n : Z) (rest : string) :
  ends_value rest = true ->
  scan_number (encode_int n ++ rest) = inr (JInt n, rest).
Proof.
  intros Hr. unfold encode_int. destruct n as [|p|p].
  - cbn -[float_tail]. now rewrite (ends_value_no_float rest Hr).
  - apply (scan_number_pos false p rest Hr).
  - cbn [Z.to_int NilZero.string_of_int].
    apply (scan_number_pos true p rest Hr).
Qed.

Lemma json_nested_ind (P : json -> Prop)
    (HNull : P JNull) (HBool : forall b, P (JBool b))
    (HInt : forall n, P (JInt n)) (HStr : forall s, P (JStr s))
    (HList : forall xs, Forall P xs -> P (JList xs))
    (HDict : forall ms, Forall (fun kv => P (snd kv)) ms -> P (JDict ms)) :
  forall j, P j.
Proof.
  fix IH 1. intros [ | b | n | s | xs | ms].
  - exact HNull.
  - apply HBool.
  - apply HInt.
  - apply HStr.
  - apply HList. induction xs as [|x xs IHxs]; constructor; [apply IH | exact IHxs].
  - apply HDict. induction ms as [|[k x] ms IHms]; constructor; [apply IH | exact IHms].
Qed.

Lemma skip_ws_newline_indent (level : nat) (t : string) :
  skip_ws (newline_indent level ++ t) = skip_ws t.
Proof.
  unfold newline_indent, NL. cbn [append skip_ws].
  change (json_ws (chr 10)) with true. cbn iota.
  induction level as [|l IH]; [reflexivity|].
  cbn [repeat_str append]. exact IH.
Qed.

Lemma value_head_skip_ws (s : string) : value_head s = true -> skip_ws s = s.
Proof.
  destruct s as [|c r]; [discriminate|]. cbn [value_head skip_ws].
  destruct (json_ws c); [discriminate | reflexivity].
Qed.

Lemma int_head_value_head (s : string) : int_head s = true -> value_head s = true.
Proof.
  destruct s as [|c r]; [discriminate|].
  destruct c as [[] [] [] [] [] [] [] []]; simpl; try discriminate; reflexivity.
Qed.

Lemma int_head_scan_once (f : nat) (s : string) :
  int_head s = true -> scan_once (S f) s = scan_number s.
Proof.
  destruct s as [|c r]; [discriminate|].
  destruct c as [[] [] [] [] [] [] [] []]; simpl; try discriminate; reflexivity.
Qed.

Lemma encode_int_head (n : Z) (rest : string) :
  int_head (encode_int n ++ rest) = true.
Proof.
  assert (Hp : forall p, int_head (NilZero.string_of_uint (Pos.to_uint p) ++ rest) = true).
  { intros p. unfold NilZero.string_of_uint.
    destruct (Pos.to_uint p); reflexivity. }
  destruct n as [|p|p]; [reflexivity | apply Hp | reflexivity].
Qed.

Lemma encode_str_app (k t : string) :
  encode_str k ++ t = String QUOTE (escape_body k ++ String QUOTE t).
Proof.
  unfold encode_str. cbn [append]. now rewrite string_app_assoc.
Qed.

Lemma encode_value_head (level : nat) (j : json) (rest : string) :
  value_head (encode level j ++ rest) = true.
Proof.
  destruct j as [ | [] | n | s | [|x xs] | [|[k x] ms]]; try reflexivity.
  apply int_head_value_head, encode_int_head.
Qed.

Lemma encode_nonempty (level : nat) (j : json) :
  (1 <= String.length (encode level j))%nat.
Proof.
  pose proof (encode_value_head level j "") as H.
  destruct (encode level j ++ "") eqn:E; [discriminate|].
  assert (E' : String.length (encode level j ++ "") = String.length (String a s))
    by now rewrite E.
  rewrite string_length_app in E'. simpl in E'. lia.
Qed.

Lemma more_items_ends (enc : json -> string) (level : nat) (xs : list json)
    (rest : string) :
  ends_value (more_items enc level xs ++ rest) = true.
Proof. destruct xs; reflexivity. Qed.

Lemma more_members_ends (enc : json -> string) (level : nat)
    (ms : list (string * json)) (rest : string) :
  ends_value (more_members enc level ms ++ rest) = true.
Proof. destruct ms as [|[k x] ms]; reflexivity. Qed.

Lemma more_items_length (enc : json -> string) (level : nat) (xs : list json) :
  (1 <= String.length (more_items enc level xs))%nat.
Proof. destruct xs; simpl; lia. Qed.

Lemma more_members_length (enc : json -> string) (level : nat)
    (ms : list (string * json)) :
  (1 <= String.length (more_members enc level ms))%nat.
Proof. destruct ms as [|[k x] ms]; simpl; lia. Qed.

Lemma scan_items_S (f : nat) (s : string) :
  scan_items (S f) s =
  pbind (scan_once f s) (fun '(v, r) =>
    match skip_ws r with
    | String c r' =>
        if (ord c =? 93)%N then inr ([v], r')
        else if (ord c =? 44)%N then
          pbind (scan_items f (skip_ws r')) (fun '(vs, r'') => inr (v :: vs, r''))
        else inl "Expecting ',' delimiter"
    | EmptyString => inl "Expecting ',' delimiter"
    end).
Proof. reflexivity. Qed.

Lemma scan_items_encode (xs : list json) :
  Forall scans xs ->
  forall x, scans x ->
  forallb well_formed (x :: xs) = true ->
  forall (level : nat) (rest : string) (fuel : nat),
    (String.length (encode (S level) x ++ more_items (encode (S level)) level xs)
     <= fuel)%nat ->
    ends_value rest = true ->
    scan_items fuel
      (encode (S level) x ++ more_items (encode (S level)) level xs ++ rest)
    = inr (x :: xs, rest).
Proof.
  induction 1 as [|y l Hy Hl IH]; intros x Hx Hwf level rest fuel Hlen Hr;
    rewrite string_length_app in Hlen;
    pose proof (encode_nonempty (S level) x) as Hx1;
    cbn [forallb] in Hwf; apply andb_prop in Hwf; destruct Hwf as [Hwx Hwl];
    (destruct fuel as [|f]; [lia|]); rewrite scan_items_S.
  - rewrite (Hx Hwx (S level) _ f);
      [ | pose proof (more_items_length (encode (S level)) level []); lia
        | apply more_items_ends ].
    cbn [pbind more_items]. rewrite string_app_assoc, skip_ws_newline_indent.
    reflexivity.
  - rewrite (Hx Hwx (S level) _ f);
      [ | pose proof (more_items_length (encode (S level)) level (y :: l)); lia
        | apply more_items_ends ].
    cbn [pbind more_items]. rewrite !string_app_assoc.
    cbn [append skip_ws]. change (json_ws ",") with false. cbn iota.
    change (ord "," =? 93)%N with false. change (ord "," =? 44)%N with true.
    cbn iota. rewrite skip_ws_newline_indent.
    rewrite (value_head_skip_ws _ (encode_value_head (S level) y _)).
    rewrite (IH y Hy Hwl level rest f); [reflexivity | | exact Hr].
    cbn [more_items] in Hlen. rewrite !string_length_app in Hlen |- *.
    cbn [String.length] in Hlen. rewrite !string_length_app in Hlen. lia.
Qed.

Lemma scan_members_quote (f : nat) (r : string) :
  scan_members (S f) (String QUOTE r) =
  pbind (scanstring r) (fun '(key, r1) =>
    match skip_ws r1 with
    | String c1 r2 =>
        if (ord c1 =? 58)%N then
          pbind (scan_once f (skip_ws r2)) (fun '(v, r3) =>
            match skip_ws r3 with
            | String c3 r4 =>
                if (ord c3 =? 125)%N then inr ([(key, v)], r4)
                else if (ord c3 =? 44)%N then
                  pbind (scan_members f (skip_ws r4))
                    (fun '(ms, r5) => inr ((key, v) :: ms, r5))
                else inl "Expecting ',' delimiter"
            | EmptyString => inl "Expecting ',' delimiter"
            end)
        else inl "Expecting ':' delimiter"
    | EmptyString => inl "Expecting ':' delimiter"
    end).
Proof. reflexivity. Qed.

Lemma encode_str_length (k : string) :
  (String.length (encode_str k) = 2 + String.length (escape_body k))%nat.
Proof.
  unfold encode_str. cbn [String.length]. rewrite string_length_app. simpl. lia.
Qed.

Lemma scan_members_encode (ms : list (string * json)) :
  Forall (fun kv => scans (snd kv)) ms ->
  forall k x, scans x ->
  forallb (fun kv => well_formed (snd kv)) ((k, x) :: ms) = true ->
  forall (level : nat) (rest : string) (fuel : nat),
    (String.length (encode_str k ++ ": " ++ encode (S level) x
                    ++ more_members (encode (S level)) level ms) <= fuel)%nat ->
    ends_value rest = true ->
    scan_members fuel
      (encode_str k ++ ": " ++ encode (S level) x
       ++ more_members (encode (S level)) level ms ++ rest)
    = inr ((k, x) :: ms, rest).
Proof.
  induction 1 as [|[k' y] l Hy Hl IH]; intros k x Hx Hwf level rest fuel Hlen Hr;
    rewrite !string_length_app, encode_str_length in Hlen;
    cbn [String.length] in Hlen;
    pose proof (encode_nonempty (S level) x) as Hx1;
    cbn [forallb snd] in Hwf; apply andb_prop in Hwf; destruct Hwf as [Hwx Hwl];
    (destruct fuel as [|f]; [lia|]);
    rewrite encode_str_app, scan_members_quote, scanstring_escape_body;
    cbn [pbind append skip_ws]; change (json_ws ":") with false; cbn iota;
    change (ord ":" =? 58)%N with true; cbn iota;
    change (skip_ws (String " " ?t)) with (skip_ws t);
    rewrite (value_head_skip_ws _ (encode_value_head (S level) x _)).
  - rewrite (Hx Hwx (S level) _ f);
      [ | pose proof (more_members_length (encode (S level)) level []); lia
        | apply more_members_ends ].
    cbn [pbind more_members]. rewrite string_app_assoc, skip_ws_newline_indent.
    reflexivity.
  - rewrite (Hx Hwx (S level) _ f);
      [ | pose proof (more_members_length (encode (S level)) level ((k', y) :: l)); lia
        | apply more_members_ends ].
    cbn [pbind more_members]. rewrite !string_app_assoc.
    cbn [append skip_ws]. change (json_ws ",") with false. cbn iota.
    change (ord "," =? 125)%N with false. change (ord "," =? 44)%N with true.
    cbn iota. rewrite skip_ws_newline_indent.
    assert (Hq : forall t, skip_ws (encode_str k' ++ t) = encode_str k' ++ t)
      by reflexivity.
    rewrite Hq.
    change (String ":" (String " " ?t)) with (": " ++ t).
    rewrite (IH k' y Hy Hwl level rest f); [reflexivity | | exact Hr].
    cbn [more_members] in Hlen.
    rewrite !string_length_app, ?encode_str_length in Hlen |- *.
    cbn [String.length] in Hlen |- *.
    rewrite !string_length_app, ?encode_str_length in Hlen. lia.
Qed.

Lemma unique_keys_NoDup (ks : list string) :
  unique_keys ks = true -> NoDup ks.
Proof.
  induction ks as [|k ks IH]; intros H; constructor;
    cbn [unique_keys] in H; apply andb_prop in H; destruct H as [Hk Hks].
  - intros Hin. apply negb_true_iff in Hk.
    assert (existsb (String.eqb k) ks = true); [|congruence].
    apply existsb_exists. exists k. split; [exact Hin | apply String.eqb_refl].
  - now apply IH.
Qed.

Lemma dict_set_fresh {V} (k : string) (v : V) (d : list (string * V)) :
  ~ In k (map fst d) -> dict_set k v d = (d ++ [(k, v)])%list.
Proof.
  induction d as [|[k' v'] d IH]; intros Hn; [reflexivity|].
  cbn [dict_set app]. destruct (String.eqb_spec k k') as [->|Hne].
  - exfalso. apply Hn. now left.
  - rewrite IH; [reflexivity|]. intros Hin. apply Hn. now right.
Qed.

Lemma dict_of_pairs_acc {V} (ms acc : list (string * V)) :
  NoDup (map fst (acc ++ ms)%list) ->
  fold_left (fun d kv => dict_set (fst kv) (snd kv) d) ms acc = (acc ++ ms)%list.
Proof.
  revert acc. induction ms as [|[k v] ms IH]; intros acc Hnd.
  - now rewrite List.app_nil_r.
  - cbn [fold_left fst snd].
    assert (Hk : ~ In k (map fst acc)).
    { rewrite map_app in Hnd. cbn [map fst] in Hnd.
      apply NoDup_remove_2 in Hnd. intros Hin. apply Hnd, in_or_app. now left. }
    rewrite (dict_set_fresh k v acc Hk), IH.
    + now rewrite <- List.app_assoc.
    + now rewrite <- List.app_assoc.
Qed.

Lemma dict_of_pairs_unique {V} (ms : list (string * V)) :
  unique_keys (map fst ms) = true -> dict_of_pairs ms = ms.
Proof.
  intros H. unfold dict_of_pairs.
  now rewrite (dict_of_pairs_acc ms []); [|apply unique_keys_NoDup].
Qed.

Lemma scan_once_encode : forall j, scans j.
Proof.
  induction j as [ | b | n | s | xs IHxs | ms IHms] using json_nested_ind;
    intros Hwf level rest fuel Hlen Hr.
  - destruct fuel as [|f]; [cbn in Hlen; lia | reflexivity].
  - destruct fuel as [|f]; [destruct b; cbn in Hlen; lia | destruct b; reflexivity].
  - pose proof (encode_nonempty level (JInt n)).
    destruct fuel as [|f]; [lia|]. cbn [encode].
    rewrite int_head_scan_once by apply encode_int_head.
    now apply scan_number_encode.
  - pose proof (encode_nonempty level (JStr s)).
    destruct fuel as [|f]; [lia|]. cbn [encode].
    rewrite encode_str_app.
    change (scan_once (S f) (String QUOTE ?t))
      with (pbind (scanstring t) (fun '(str, r') => inr (JStr str, r'))).
    now rewrite scanstring_escape_body.
  - destruct xs as [|x xs].
    + destruct fuel as [|f]; [cbn in Hlen; lia | reflexivity].
    + cbn [encode] in Hlen |- *. rewrite !string_length_app in Hlen.
      cbn [String.length] in Hlen.
      destruct fuel as [|f]; [lia|].
      rewrite !string_app_assoc. cbn [append].
      change (scan_once (S f) (String "[" ?r))
        with (match skip_ws r with
              | String c2 r2 =>
                  if (ord c2 =? 93)%N then inr (JList [], r2)
                  else pbind (scan_items f (skip_ws r))
                         (fun '(items, r3) => inr (JList items, r3))
              | EmptyString => inl "Expecting value"
              end).
      rewrite skip_ws_newline_indent.
      pose proof (encode_value_head (S level) x
                    (more_items (encode (S level)) level xs ++ rest)) as Hh.
      rewrite (value_head_skip_ws _ Hh).
      inversion IHxs as [|? ? Hx Hxs]; subst.
      rewrite (scan_items_encode xs Hxs x Hx Hwf level rest f);
        [ | rewrite string_length_app; lia | exact Hr ].
      destruct (encode (S level) x ++ _) as [|c2 r2]; [discriminate|].
      cbn [value_head] in Hh. apply andb_prop in Hh. destruct Hh as [_ Hh].
      apply negb_true_iff in Hh. rewrite Hh. reflexivity.
  - destruct ms as [|[k x] ms].
    + destruct fuel as [|f]; [cbn in Hlen; lia | reflexivity].
    + cbn [encode] in Hlen |- *. rewrite !string_length_app in Hlen.
      cbn [String.length] in Hlen.
      destruct fuel as [|f]; [lia|].
      rewrite !string_app_assoc. cbn [append].
      change (scan_once (S f) (String "{" ?r))
        with (match skip_ws r with
              | String c2 r2 =>
                  if (ord c2 =? 125)%N then inr (JDict [], r2)
                  else pbind (scan_members f (skip_ws r))
                         (fun '(pairs, r3) => inr (JDict (dict_of_pairs pairs), r3))
              | EmptyString => inl "Expecting property name enclosed in double quotes"
              end).
      rewrite skip_ws_newline_indent.
      assert (Hq : forall t, skip_ws (encode_str k ++ t) = encode_str k ++ t)
        by reflexivity.
      change (String ":" (String " " ?t)) with (": " ++ t).
      rewrite Hq.
      cbn [well_formed] in Hwf. apply andb_prop in Hwf. destruct Hwf as [Hu Hwf].
      inversion IHms as [|? ? Hx Hxs]; subst. cbn [snd] in Hx.
      rewrite (scan_members_encode ms Hxs k x Hx Hwf level rest f);
        [ | rewrite !string_length_app; cbn [String.length]; lia | exact Hr ].
      rewrite encode_str_app. cbn [pbind].
      change (ord QUOTE =? 125)%N with false. cbn iota.
      now rewrite (dict_of_pairs_unique _ Hu).
Qed.

(** Decoding an encoded document gives the document back. *)
Lemma loads_dumps (j : json) :
  well_formed j = true -> loads (dumps j) = inr j.
Proof.
  intros Hwf. unfold loads, dumps.
  pose proof (encode_value_head 0 j "") as Hh.
  pose proof (string_app_nil_r (encode 0 j)) as E.
  rewrite E in Hh. rewrite (value_head_skip_ws _ Hh).
  rewrite <- E at 2.
  rewrite (scan_once_encode j Hwf 0%nat ""); [reflexivity | lia | reflexivity].
Qed.

Lemma rstrip_last (s : string) (c : ascii) :
  isspace c = false -> rstrip (s ++ String c "") = s ++ String c "".
Proof.
  intros Hc. induction s as [|a s IH]; cbn [append rstrip].
  - now rewrite Hc.
  - rewrite IH. destruct s; reflexivity.
Qed.

Lemma rstrip_newline (s : string) : rstrip (s ++ NL) = rstrip s.
Proof.
  induction s as [|a s IH]; [reflexivity|].
  cbn [append rstrip]. now rewrite IH.
Qed.

Lemma more_items_close (enc : json -> string) (lvl : nat) (xs : list json) :
  exists b, more_items enc lvl xs = b ++ "]".
Proof.
  induction xs as [|y l [b Hb]].
  - exists (newline_indent lvl). reflexivity.
  - exists ("," ++ newline_indent (S lvl) ++ enc y ++ b).
    cbn [more_items]. fold (more_items enc lvl l). rewrite Hb.
    now rewrite !string_app_assoc.
Qed.

(** A serialized array starts with an opening and ends with a closing bracket. *)
Lemma dumps_list_shape (h : list json) :
  exists body, dumps (JList h) = String "[" (body ++ "]").
Proof.
  unfold dumps. destruct h as [|x xs]; [now exists ""|].
  cbn [encode]. destruct (more_items_close (encode 1) 0 xs) as [b ->].
  exists (newline_indent 1 ++ encode 1 x ++ b). cbn [append].
  now rewrite !string_app_assoc.
Qed.

(** What [TaskLogger.log] writes is read back by [_read_history]. *)
Lemma loads_strip_dumps_list (h : list json) :
  forallb well_formed h = true ->
  loads (strip (dumps (JList h) ++ NL)) = inr (JList h).
Proof.
  intros Hwf. destruct (dumps_list_shape h) as [body Hb].
  assert (Hs : strip (dumps (JList h) ++ NL) = dumps (JList h)).
  { rewrite Hb. unfold strip. cbn [append lstrip].
    change (isspace "[") with false. cbn iota.
    change (String "[" ((body ++ "]") ++ NL)) with ((String "[" (body ++ "]")) ++ NL).
    rewrite rstrip_newline.
    change (String "[" (body ++ "]")) with (String "[" body ++ "]").
    now apply rstrip_last. }
  rewrite Hs. now apply loads_dumps.
Qed.


(** *** The decoder yields well-formed values *)

Lemma NoDup_unique_keys (ks : list string) :
  NoDup ks -> unique_keys ks = true.
Proof.
  induction 1 as [|k ks Hk Hnd IH]; [reflexivity|].
  cbn [unique_keys]. rewrite IH, andb_true_r. apply negb_true_iff.
  destruct (existsb (String.eqb k) ks) eqn:E; [|reflexivity].
  apply existsb_exists in E. destruct E as (x & Hx & Hkx).
  apply String.eqb_eq in Hkx. now subst x.
Qed.

Lemma dict_set_keys_in {V} (k x : string) (v : V) (d : list (string * V)) :
  In x (map fst (dict_set k v d)) <-> x = k \/ In x (map fst d).
Proof.
  induction d as [|[k' v'] d IH]; cbn [dict_set map fst In].
  - intuition congruence.
  - destruct (String.eqb_spec k k') as [->|Hne]; cbn [map fst In].
    + intuition congruence.
    + rewrite IH. intuition congruence.
Qed.

Lemma dict_set_NoDup {V} (k : string) (v : V) (d : list (string * V)) :
  NoDup (map fst d) -> NoDup (map fst (dict_set k v d)).
Proof.
  induction d as [|[k' v'] d IH]; cbn [dict_set map fst]; intros Hnd.
  - constructor; [intros [] | constructor].
  - inversion Hnd as [|? ? Hk Hd]; subst.
    destruct (String.eqb_spec k k') as [->|Hne]; cbn [map fst].
    + now constructor.
    + constructor; [|now apply IH].
      rewrite dict_set_keys_in. intros [E | Hin]; [congruence | contradiction].
Qed.

Lemma dict_set_values {V} (P : V -> bool) (k : string) (v : V) (d : list (string * V)) :
  P v = true ->
  forallb (fun kv => P (snd kv)) d = true ->
  forallb (fun kv => P (snd kv)) (dict_set k v d) = true.
Proof.
  intros Hv. induction d as [|[k' v'] d IH]; cbn [dict_set forallb snd]; intros Hd.
  - now rewrite Hv.
  - apply andb_prop in Hd. destruct Hd as [Hv' Hd].
    destruct (String.eqb k k'); cbn [forallb snd].
    + now rewrite Hv, Hd.
    + now rewrite Hv', IH.
Qed.

Lemma dict_of_pairs_well_formed (ps : list (string * json)) :
  forallb (fun kv => well_formed (snd kv)) ps = true ->
  well_formed (JDict (dict_of_pairs ps)) = true.
Proof.
  unfold dict_of_pairs. intros Hps.
  assert (H : forall acc,
             NoDup (map fst acc) ->
             forallb (fun kv => well_formed (snd kv)) acc = true ->
             well_formed
               (JDict (fold_left (fun d kv => dict_set (fst kv) (snd kv) d) ps acc))
             = true).
  { induction ps as [|[k v] ps IH]; intros acc Hnd Hacc.
    - cbn [fold_left well_formed]. now rewrite (NoDup_unique_keys _ Hnd), Hacc.
    - cbn [forallb snd] in Hps. apply andb_prop in Hps. destruct Hps as [Hv Hps].
      cbn [fold_left fst snd]. apply IH; [exact Hps | now apply dict_set_NoDup |].
      now apply dict_set_values. }
  apply H; [constructor | reflexivity].
Qed.

Lemma scan_number_well_formed (s : string) (j : json) (r : string) :
  scan_number s = inr (j, r) -> well_formed j = true.
Proof.
  unfold scan_number. intros H.
  repeat match type of H with
         | context [let '(_, _) := ?x in _] => destruct x
         | context [match ?x with _ => _ end] => destruct x
         end; try discriminate; now inversion H.
Qed.

Lemma scan_well_formed (fuel : nat) :
  (forall s j r, scan_once fuel s = inr (j, r) -> well_formed j = true)
  /\ (forall s l r, scan_items fuel s = inr (l, r) -> forallb well_formed l = true)
  /\ (forall s ps r, scan_members fuel s = inr (ps, r) ->
        forallb (fun kv => well_formed (snd kv)) ps = true).
Proof.
  induction fuel as [|f (IHv & IHi & IHm)];
    [repeat split; intros; discriminate|].
  split; [|split].
  - intros s j r H. destruct s as [|c s']; [discriminate|].
    cbn [scan_once] in H.
    destruct (ord c =? 34)%N.
    { destruct (scanstring s') as [e | [str r']]; [discriminate|]. now inversion H. }
    destruct (ord c =? 123)%N.
    { destruct (skip_ws s') as [|c2 r2] eqn:E; [discriminate|].
      destruct (ord c2 =? 125)%N; [now inversion H|].
      destruct (scan_members f (String c2 r2)) as [e | [ps r3]] eqn:Em; [discriminate|].
      cbn [pbind] in H. inversion H; subst.
      apply dict_of_pairs_well_formed. now apply (IHm _ _ _ Em). }
    destruct (ord c =? 91)%N.
    { destruct (skip_ws s') as [|c2 r2] eqn:E; [discriminate|].
      destruct (ord c2 =? 93)%N; [now inversion H|].
      destruct (scan_items f (String c2 r2)) as [e | [l r3]] eqn:Ei; [discriminate|].
      cbn [pbind] in H. inversion H; subst.
      cbn [well_formed]. now apply (IHi _ _ _ Ei). }
    destruct (startswith "null" (String c s')); [now inversion H|].
    destruct (startswith "true" (String c s')); [now inversion H|].
    destruct (startswith "false" (String c s')); [now inversion H|].
    now apply scan_number_well_formed in H.
  - intros s l r H. cbn [scan_items] in H.
    destruct (scan_once f s) as [e | [v r1]] eqn:Ev; [discriminate|].
    cbn [pbind] in H.
    destruct (skip_ws r1) as [|c r'] eqn:E; [discriminate|].
    destruct (ord c =? 93)%N.
    { inversion H; subst. cbn [forallb]. now rewrite (IHv _ _ _ Ev). }
    destruct (ord c =? 44)%N; [|discriminate].
    destruct (scan_items f (skip_ws r')) as [e | [vs r'']] eqn:Ei; [discriminate|].
    cbn [pbind] in H. inversion H; subst. cbn [forallb].
    now rewrite (IHv _ _ _ Ev), (IHi _ _ _ Ei).
  - intros s ps r H. cbn [scan_members] in H.
    destruct s as [|c s']; [discriminate|].
    destruct (ord c =? 34)%N; [|discriminate].
    destruct (scanstring s') as [e | [key r1]]; [discriminate|].
    cbn [pbind] in H.
    destruct (skip_ws r1) as [|c1 r2] eqn:E1; [discriminate|].
    destruct (ord c1 =? 58)%N; [|discriminate].
    destruct (scan_once f (skip_ws r2)) as [e | [v r3]] eqn:Ev; [discriminate|].
    cbn [pbind] in H.
    destruct (skip_ws r3) as [|c3 r4] eqn:E3; [discriminate|].
    destruct (ord c3 =? 125)%N.
    { inversion H; subst. cbn [forallb snd]. now rewrite (IHv _ _ _ Ev). }
    destruct (ord c3 =? 44)%N; [|discriminate].
    destruct (scan_members f (skip_ws r4)) as [e | [ms r5]] eqn:Em; [discriminate|].
    cbn [pbind] in H. inversion H; subst. cbn [forallb snd].
    now rewrite (IHv _ _ _ Ev), (IHm _ _ _ Em).
Qed.

(** Whatever [loads] accepts has unique keys at every depth. *)
Lemma loads_well_formed (s : string) (j : json) :
  loads s = inr j -> well_formed j = true.
Proof.
  unfold loads. intros H.
  destruct (scan_once _ _) as [e | [v r]] eqn:E; [discriminate|].
  cbn [pbind] in H. destruct (skip_ws r); [|discriminate].
  inversion H; subst. now apply (proj1 (scan_well_formed _) _ _ _ E).
Qed.

(** ** The verdict of [json.loads] and the decoder *)

Lemma string_length_ind (P : string -> Prop) :
  (forall s, (forall t, (String.length t < String.length s)%nat -> P t) -> P s) ->
  forall s, P s.
Proof.
  intros H s.
  assert (G : forall n t, (String.length t < n)%nat -> P t).
  { induction n as [|n IH]; intros t Ht; [lia|].
    apply H. intros u Hu. apply IH. lia. }
  apply (G (S (String.length s))). lia.
Qed.

(** Where [scanstring] decodes a string, [skip_string] finds its end. *)
Lemma scanstring_skip (s : string) :
  forall str r, scanstring s = inr (str, r) -> skip_string s = inr r.
Proof.
  induction s as [s IH] using string_length_ind. intros str r.
  destruct s as [|c s1]; [discriminate|]. cbn [scanstring skip_string].
  destruct (ord c =? 34)%N; [now intros [= _ <-]|].
  destruct (ord c =? 92)%N.
  - destruct s1 as [|e s2]; [discriminate|].
    destruct (ord e =? 117)%N.
    + destruct s2 as [|h1 [|h2 [|h3 [|h4 [|a s3]]]]]; try discriminate.
      destruct (hex4 h1 h2 h3 h4) as [v|]; [|discriminate].
      destruct (v <? 256)%N; [|discriminate].
      unfold pcons, pbind.
      destruct (scanstring (String a s3)) as [m | [str' r']] eqn:E; [discriminate|].
      intros [= _ <-]. apply (IH (String a s3)) with (str := str'); [cbn; lia | exact E].
    + destruct (unescape e); [|discriminate].
      unfold pcons, pbind.
      destruct (scanstring s2) as [m | [str' r']] eqn:E; [discriminate|].
      intros [= _ <-]. apply (IH s2) with (str := str'); [cbn; lia | exact E].
  - destruct (ord c <? 32)%N; [discriminate|].
    unfold pcons, pbind.
    destruct (scanstring s1) as [m | [str' r']] eqn:E; [discriminate|].
    intros [= _ <-]. apply (IH s1) with (str := str'); [cbn; lia | exact E].
Qed.

Lemma float_tail_skip (r : string) :
  float_tail r = false -> skip_exponent (skip_fraction r) = r.
Proof.
  destruct r as [|c r1]; [reflexivity|]. cbn [float_tail skip_fraction].
  destruct (ord c =? 46)%N eqn:Edot.
  - destruct r1 as [|d r2]; [intros _; cbn [skip_exponent]|].
    + apply N.eqb_eq in Edot.
      replace ((ord c =? 101) || (ord c =? 69))%N with false; [reflexivity|].
      rewrite Edot. reflexivity.
    + intros ->. cbn [andb skip_exponent].
      apply N.eqb_eq in Edot.
      replace ((ord c =? 101) || (ord c =? 69))%N with false; [reflexivity|].
      rewrite Edot. reflexivity.
  - assert (Hf : skip_fraction (String c r1) = String c r1).
    { unfold skip_fraction. destruct r1; [reflexivity|]. now rewrite Edot. }
    intros H. destruct r1 as [|x r2]; cbn [andb skip_exponent].
    + now destruct ((ord c =? 101) || (ord c =? 69))%N.
    + destruct ((ord c =? 101) || (ord c =? 69))%N; [|reflexivity].
      destruct ((ord x =? 43) || (ord x =? 45))%N.
      * destruct r2 as [|d r3]; [reflexivity | now rewrite H].
      * now rewrite H.
Qed.

Lemma scan_number_skip (s : string) (v : json) (r : string) :
  scan_number s = inr (v, r) -> skip_number s = inr r /\ kind_of v = KNumber.
Proof.
  unfold scan_number, skip_number.
  destruct (match s with String "-" r0 => (true, r0) | _ => (false, s) end) as [neg s1].
  destruct s1 as [|c r1]; [discriminate|].
  destruct (digit_of c) as [d|].
  - set (p := if (ord c =? 48)%N then (Decimal.D0 Decimal.Nil, r1)
              else scan_digits (String c r1)).
    assert (Hp : (if (ord c =? 48)%N then r1 else snd (scan_digits (String c r1))) = snd p)
      by (subst p; now destruct (ord c =? 48)%N).
    rewrite Hp. destruct p as [ds r']. cbn [snd].
    destruct (float_tail r') eqn:E; [discriminate|].
    intros [= <- <-]. rewrite (float_tail_skip _ E). split; reflexivity.
  - destruct (startswith "Infinity" (String c r1) || _); discriminate.
Qed.

(** Whatever [loads] decodes, [check] accepts, with the kind of the value. *)
Lemma scan_check (fuel : nat) :
  (forall s v r, scan_once fuel s = inr (v, r) -> check_once fuel s = inr (kind_of v, r))
  /\ (forall s l r, scan_items fuel s = inr (l, r) -> check_items fuel s = inr r)
  /\ (forall s ps r, scan_members fuel s = inr (ps, r) -> check_members fuel s = inr r).
Proof.
  induction fuel as [|f (IHv & IHi & IHm)];
    [repeat split; intros; discriminate|].
  split; [|split].
  - intros s v r H. destruct s as [|c s']; [discriminate|].
    cbn [scan_once] in H. cbn [check_once].
    destruct (ord c =? 34)%N.
    { destruct (scanstring s') as [e | [str r']] eqn:E; [discriminate|].
      cbn [pbind] in H. injection H as <- <-.
      now rewrite (scanstring_skip _ _ _ E). }
    destruct (ord c =? 123)%N.
    { destruct (skip_ws s') as [|c2 r2] eqn:E; [discriminate|].
      destruct (ord c2 =? 125)%N; [now injection H as <- <-|].
      destruct (scan_members f (String c2 r2)) as [e | [ps r3]] eqn:Em; [discriminate|].
      cbn [pbind] in H. injection H as <- <-.
      now rewrite (IHm _ _ _ Em). }
    destruct (ord c =? 91)%N.
    { destruct (skip_ws s') as [|c2 r2] eqn:E; [discriminate|].
      destruct (ord c2 =? 93)%N; [now injection H as <- <-|].
      destruct (scan_items f (String c2 r2)) as [e | [l r3]] eqn:Ei; [discriminate|].
      cbn [pbind] in H. injection H as <- <-.
      now rewrite (IHi _ _ _ Ei). }
    destruct (startswith "null" (String c s')); [now injection H as <- <-|].
    destruct (startswith "true" (String c s')); [now injection H as <- <-|].
    destruct (startswith "false" (String c s')); [now injection H as <- <-|].
    destruct (scan_number_skip _ _ _ H) as [-> ->]. reflexivity.
  - intros s l r H. cbn [scan_items] in H. cbn [check_items].
    destruct (scan_once f s) as [e | [v r1]] eqn:Ev; [discriminate|].
    rewrite (IHv _ _ _ Ev). cbn [pbind] in *.
    destruct (skip_ws r1) as [|c r']; [discriminate|].
    destruct (ord c =? 93)%N; [now injection H as _ <-|].
    destruct (ord c =? 44)%N; [|discriminate].
    destruct (scan_items f (skip_ws r')) as [e | [vs r'']] eqn:Ei; [discriminate|].
    cbn [pbind] in H. injection H as _ <-. exact (IHi _ _ _ Ei).
  - intros s ps r H. cbn [scan_members] in H. cbn [check_members].
    destruct s as [|c s']; [discriminate|].
    destruct (ord c =? 34)%N; [|discriminate].
    destruct (scanstring s') as [e | [key r1]] eqn:Ek; [discriminate|].
    rewrite (scanstring_skip _ _ _ Ek). cbn [pbind] in *.
    destruct (skip_ws r1) as [|c1 r2]; [discriminate|].
    destruct (ord c1 =? 58)%N; [|discriminate].
    destruct (scan_once f (skip_ws r2)) as [e | [v r3]] eqn:Ev; [discriminate|].
    rewrite (IHv _ _ _ Ev). cbn [pbind] in *.
    destruct (skip_ws r3) as [|c3 r4]; [discriminate|].
    destruct (ord c3 =? 125)%N; [now injection H as _ <-|].
    destruct (ord c3 =? 44)%N; [|discriminate].
    destruct (scan_members f (skip_ws r4)) as [e | [ms r5]] eqn:Em; [discriminate|].
    cbn [pbind] in H. injection H as _ <-. exact (IHm _ _ _ Em).
Qed.

Lemma loads_check (s : string) (v : json) :
  loads s = inr v -> check s = inr (kind_of v).
Proof.
  unfold loads, check. intros H.
  destruct (scan_once _ _) as [e | [v' r]] eqn:E; [discriminate|].
  rewrite (proj1 (scan_check _) _ _ _ E). cbn [pbind] in *.
  destruct (skip_ws r); [now injection H as -> | discriminate].
Qed.

(** A text that [json.loads] rejects is not decoded by [loads] either. *)
Lemma check_rejects (s msg : string) :
  check s = inl msg -> exists msg', loads s = inl msg'.
Proof.
  intros H. destruct (loads s) as [m | v] eqn:E; [now exists m|].
  rewrite (loads_check s v E) in H. discriminate.
Qed.

(** *** The recognizer never runs out of fuel *)

Lemma skip_ws_length (s : string) : (String.length (skip_ws s) <= String.length s)%nat.
Proof.
  induction s as [|c s IH]; [apply Nat.le_refl|]. cbn [skip_ws].
  destruct (json_ws c); cbn [String.length]; lia.
Qed.

Lemma scan_digits_length (s : string) :
  (String.length (snd (scan_digits s)) <= String.length s)%nat.
Proof.
  induction s as [|c s IH]; [apply Nat.le_refl|]. cbn [scan_digits].
  destruct (digit_of c); [|apply Nat.le_refl].
  destruct (scan_digits s) as [ds r']. cbn [snd String.length] in *. lia.
Qed.

Lemma drop_length (n : nat) (s : string) :
  (String.length (drop n s) <= String.length s)%nat.
Proof.
  revert s. induction n as [|n IH]; intros [|c s]; cbn [drop String.length]; try lia.
  specialize (IH s). lia.
Qed.

Lemma skip_string_length (s : string) :
  forall r, skip_string s = inr r -> (String.length r < String.length s)%nat.
Proof.
  induction s as [s IH] using string_length_ind. intros r.
  destruct s as [|c s1]; [discriminate|]. cbn [skip_string].
  destruct (ord c =? 34)%N; [intros [= <-]; cbn; lia|].
  destruct (ord c =? 92)%N.
  - destruct s1 as [|e s2]; [discriminate|].
    destruct (ord e =? 117)%N.
    + destruct s2 as [|h1 [|h2 [|h3 [|h4 [|a s3]]]]]; try discriminate.
      destruct (hex4 h1 h2 h3 h4); [|discriminate].
      intros H. apply IH in H; cbn [String.length] in *; lia.
    + destruct (unescape e); [|discriminate].
      intros H. apply IH in H; cbn [String.length] in *; lia.
  - destruct (ord c <? 32)%N; [discriminate|].
    intros H. apply IH in H; cbn [String.length] in *; lia.
Qed.

Lemma skip_string_message (s msg : string) :
  skip_string s = inl msg -> msg <> NESTING.
Proof.
  revert msg. induction s as [s IH] using string_length_ind. intros msg.
  destruct s as [|c s1]; [intros [= <-]; discriminate|]. cbn [skip_string].
  destruct (ord c =? 34)%N; [discriminate|].
  destruct (ord c =? 92)%N.
  - destruct s1 as [|e s2]; [intros [= <-]; discriminate|].
    destruct (ord e =? 117)%N.
    + destruct s2 as [|h1 [|h2 [|h3 [|h4 [|a s3]]]]];
        try (intros [= <-]; discriminate).
      destruct (hex4 h1 h2 h3 h4); [|intros [= <-]; discriminate].
      apply IH. cbn [String.length]. lia.
    + destruct (unescape e); [|intros [= <-]; discriminate].
      apply IH. cbn [String.length]. lia.
  - destruct (ord c <? 32)%N; [intros [= <-]; discriminate|].
    apply IH. cbn [String.length]. lia.
Qed.

Lemma skip_fraction_length (s : string) :
  (String.length (skip_fraction s) <= String.length s)%nat.
Proof.
  destruct s as [|c [|d r]]; try apply Nat.le_refl. cbn [skip_fraction].
  destruct ((ord c =? 46)%N && is_digit d)%bool; [|apply Nat.le_refl].
  pose proof (scan_digits_length (String d r)). cbn [String.length] in *. lia.
Qed.

Lemma skip_exponent_length (s : string) :
  (String.length (skip_exponent s) <= String.length s)%nat.
Proof.
  destruct s as [|c r]; [apply Nat.le_refl|]. cbn [skip_exponent].
  destruct ((ord c =? 101) || (ord c =? 69))%N; [|apply Nat.le_refl].
  destruct r as [|x r']; [apply Nat.le_refl|].
  destruct ((ord x =? 43) || (ord x =? 45))%N.
  - destruct r' as [|d r'']; [apply Nat.le_refl|].
    destruct (is_digit d); [|apply Nat.le_refl].
    pose proof (scan_digits_length (String d r'')). cbn [String.length] in *. lia.
  - destruct (is_digit x); [|apply Nat.le_refl].
    pose proof (scan_digits_length (String x r')). cbn [String.length] in *. lia.
Qed.

Lemma skip_number_length (s r : string) :
  skip_number s = inr r -> (String.length r < String.length s)%nat.
Proof.
  unfold skip_number. cbv zeta.
  assert (Hs : forall neg s1,
             (neg, s1) = match s with String "-" r0 => (true, r0) | _ => (false, s) end ->
             (String.length s1 <= String.length s)%nat).
  { intros neg s1 E. destruct s as [|c s0]; [now injection E as _ ->|].
    destruct c as [[] [] [] [] [] [] [] []]; injection E as _ ->;
      cbn [String.length]; lia. }
  destruct (match s with String "-" r0 => (true, r0) | _ => (false, s) end)
    as [neg s1] eqn:E. specialize (Hs neg s1 eq_refl).
  destruct s1 as [|c r1]; [discriminate|].
  destruct (digit_of c) as [d|] eqn:Ed.
  - intros [= <-].
    pose proof (skip_exponent_length
                  (skip_fraction (if (ord c =? 48)%N then r1
                                  else snd (scan_digits (String c r1))))) as H1.
    pose proof (skip_fraction_length
                  (if (ord c =? 48)%N then r1 else snd (scan_digits (String c r1)))) as H2.
    assert (H3 : (String.length (if (ord c =? 48)%N then r1
                                 else snd (scan_digits (String c r1)))
                  <= String.length r1)%nat).
    { destruct (ord c =? 48)%N; [apply Nat.le_refl|].
      cbn [scan_digits]. rewrite Ed.
      pose proof (scan_digits_length r1).
      destruct (scan_digits r1) as [ds r']. cbn [snd] in *. exact H. }
    cbn [String.length] in Hs.
    apply (Nat.le_lt_trans _ _ _ H1). apply (Nat.le_lt_trans _ _ _ H2).
    apply (Nat.le_lt_trans _ _ _ H3). exact Hs.
  - destruct (startswith "Infinity" (String c r1)).
    + intros [= <-]. pose proof (drop_length 7 r1). cbn [drop String.length] in *. lia.
    + destruct (negb neg && startswith "NaN" (String c r1))%bool; [|discriminate].
      intros [= <-]. pose proof (drop_length 2 r1). cbn [drop String.length] in *. lia.
Qed.

Lemma skip_number_message (s msg : string) :
  skip_number s = inl msg -> msg <> NESTING.
Proof.
  unfold skip_number.
  destruct (match s with String "-" r0 => (true, r0) | _ => (false, s) end) as [neg s1].
  destruct s1 as [|c r1]; [intros [= <-]; discriminate|].
  destruct (digit_of c); [discriminate|].
  destruct (startswith "Infinity" (String c r1)); [discriminate|].
  destruct (negb neg && startswith "NaN" (String c r1))%bool;
    [discriminate | intros [= <-]; discriminate].
Qed.

(** With fuel for twice the length of the text, each scanner consumes at
    least one character and never reports exhausted fuel. *)
Lemma check_fuel (fuel : nat) :
  (forall s, (2 * String.length s + 1 <= fuel)%nat ->
     (forall msg, check_once fuel s = inl msg -> msg <> NESTING)
     /\ (forall k r, check_once fuel s = inr (k, r) ->
           (String.length r < String.length s)%nat))
  /\ (forall s, (2 * String.length s + 2 <= fuel)%nat ->
     (forall msg, check_items fuel s = inl msg -> msg <> NESTING)
     /\ (forall r, check_items fuel s = inr r ->
           (String.length r < String.length s)%nat))
  /\ (forall s, (2 * String.length s + 2 <= fuel)%nat ->
     (forall msg, check_members fuel s = inl msg -> msg <> NESTING)
     /\ (forall r, check_members fuel s = inr r ->
           (String.length r < String.length s)%nat)).
Proof.
  induction fuel as [|f (IHv & IHi & IHm)];
    [repeat split; intros; lia|].
  split; [|split].
  - intros s Hf. destruct s as [|c s']; [split; [intros m [= <-]|]; discriminate|].
    cbn [check_once]. cbn [String.length] in Hf.
    pose proof (skip_ws_length s') as Hws.
    destruct (ord c =? 34)%N.
    { destruct (skip_string s') as [e | r'] eqn:E; cbn [pbind].
      - split; [|discriminate]. intros m [= <-]. now apply (skip_string_message s').
      - split; [discriminate|]. intros k r [= _ <-].
        apply skip_string_length in E. cbn [String.length]. lia. }
    destruct (ord c =? 123)%N.
    { destruct (skip_ws s') as [|c2 r2] eqn:E;
        [split; [intros m [= <-]|]; discriminate|].
      destruct (ord c2 =? 125)%N.
      - split; [discriminate|]. intros k r [= _ <-]. cbn [String.length] in *. lia.
      - destruct (IHm (String c2 r2)) as [Hm Hr]; [cbn [String.length] in *; lia|].
        destruct (check_members f (String c2 r2)) as [e | r3]; cbn [pbind].
        + split; [|discriminate]. intros m [= <-]. now apply Hm.
        + split; [discriminate|]. intros k r [= _ <-].
          specialize (Hr r3 eq_refl). cbn [String.length] in *. lia. }
    destruct (ord c =? 91)%N.
    { destruct (skip_ws s') as [|c2 r2] eqn:E;
        [split; [intros m [= <-]|]; discriminate|].
      destruct (ord c2 =? 93)%N.
      - split; [discriminate|]. intros k r [= _ <-]. cbn [String.length] in *. lia.
      - destruct (IHi (String c2 r2)) as [Hm Hr]; [cbn [String.length] in *; lia|].
        destruct (check_items f (String c2 r2)) as [e | r3]; cbn [pbind].
        + split; [|discriminate]. intros m [= <-]. now apply Hm.
        + split; [discriminate|]. intros k r [= _ <-].
          specialize (Hr r3 eq_refl). cbn [String.length] in *. lia. }
    destruct (startswith "null" (String c s')).
    { split; [discriminate|]. intros k r [= _ <-].
      pose proof (drop_length 3 s'). cbn [drop String.length] in *. lia. }
    destruct (startswith "true" (String c s')).
    { split; [discriminate|]. intros k r [= _ <-].
      pose proof (drop_length 3 s'). cbn [drop String.length] in *. lia. }
    destruct (startswith "false" (String c s')).
    { split; [discriminate|]. intros k r [= _ <-].
      pose proof (drop_length 4 s'). cbn [drop String.length] in *. lia. }
    destruct (skip_number (String c s')) as [e | r'] eqn:E; cbn [pbind].
    + split; [|discriminate]. intros m [= <-]. now apply (skip_number_message _ _ E).
    + split; [discriminate|]. intros k r [= _ <-].
      now apply skip_number_length in E.
  - intros s Hf. cbn [check_items].
    destruct (IHv s) as [Hm Hr]; [lia|].
    destruct (check_once f s) as [e | [k r1]]; cbn [pbind].
    { split; [|discriminate]. intros m [= <-]. now apply Hm. }
    specialize (Hr k r1 eq_refl).
    pose proof (skip_ws_length r1) as Hws.
    destruct (skip_ws r1) as [|c r'];
      [split; [intros m [= <-]|]; discriminate|].
    destruct (ord c =? 93)%N.
    { split; [discriminate|]. intros r [= <-]. cbn [String.length] in *. lia. }
    destruct (ord c =? 44)%N; [|split; [intros m [= <-]|]; discriminate].
    pose proof (skip_ws_length r') as Hws'.
    destruct (IHi (skip_ws r')) as [Hm' Hr']; [cbn [String.length] in *; lia|].
    split; [exact Hm'|]. intros r H. specialize (Hr' r H).
    cbn [String.length] in *. lia.
  - intros s Hf. cbn [check_members].
    destruct s as [|c s']; [split; [intros m [= <-]|]; discriminate|].
    cbn [String.length] in Hf.
    destruct (ord c =? 34)%N; [|split; [intros m [= <-]|]; discriminate].
    destruct (skip_string s') as [e | r1] eqn:Ek; cbn [pbind].
    { split; [|discriminate]. intros m [= <-]. now apply (skip_string_message s'). }
    apply skip_string_length in Ek.
    pose proof (skip_ws_length r1) as Hws1.
    destruct (skip_ws r1) as [|c1 r2];
      [split; [intros m [= <-]|]; discriminate|].
    destruct (ord c1 =? 58)%N; [|split; [intros m [= <-]|]; discriminate].
    pose proof (skip_ws_length r2) as Hws2.
    destruct (IHv (skip_ws r2)) as [Hm Hr]; [cbn [String.length] in *; lia|].
    destruct (check_once f (skip_ws r2)) as [e | [k r3]]; cbn [pbind].
    { split; [|discriminate]. intros m [= <-]. now apply Hm. }
    specialize (Hr k r3 eq_refl).
    pose proof (skip_ws_length r3) as Hws3.
    destruct (skip_ws r3) as [|c3 r4];
      [split; [intros m [= <-]|]; discriminate|].
    destruct (ord c3 =? 125)%N.
    { split; [discriminate|]. intros r [= <-]. cbn [String.length] in *. lia. }
    destruct (ord c3 =? 44)%N; [|split; [intros m [= <-]|]; discriminate].
    pose proof (skip_ws_length r4) as Hws4.
    destruct (IHm (skip_ws r4)) as [Hm' Hr']; [cbn [String.length] in *; lia|].
    split; [exact Hm'|]. intros r H. specialize (Hr' r H).
    cbn [String.length] in *. lia.
Qed.

(** [check] answers with a message of [json] or with a kind: the fuel it
    gives the scanner is enough for every text. *)
Lemma check_total (s msg : string) : check s = inl msg -> msg <> NESTING.
Proof.
  unfold check.
  destruct (proj1 (check_fuel (S (2 * String.length (skip_ws s)))) (skip_ws s))
    as [Hm _]; [lia|].
  destruct (check_once _ _) as [e | [k r]]; cbn [pbind].
  - intros [= <-]. now apply Hm.
  - destruct (skip_ws r); [discriminate | intros [= <-]; discriminate].
Qed.

(** ** Running monadic code *)

Lemma bind_returns {S A B} (m : M S A) (k : A -> M S B) (s s' : S) (a : A) :
  m s = (Returns a, s') -> bind m k s = k a s'.
Proof. intros H. unfold bind. now rewrite H. Qed.

Lemma bind_raises {S A B} (m : M S A) (k : A -> M S B) (s s' : S) (e : pyexc) :
  m s = (Raises e, s') -> bind m k s = (Raises e, s').
Proof. intros H. unfold bind. now rewrite H. Qed.

(** ** The token cache *)

Import HaloClient.

Lemma is_valid_run (tok : TokenData) (buffer_seconds : Z) (w : world) :
  buffer_fits (utcnow_clock w (clock_reads w)) buffer_seconds = true ->
  is_valid tok buffer_seconds w
  = (Returns (utcnow_clock w (clock_reads w) + buffer_seconds * SECOND
              <? expires_at tok), tick w).
Proof.
  unfold buffer_fits. intros H. apply andb_prop in H. destruct H as [Hd Ht].
  unfold is_valid, bind, lift, ret, timedelta_seconds, datetime_add, tick.
  cbn. rewrite Hd, Ht. reflexivity.
Qed.

Lemma valid_cached_token_none (w : world) :
  _token (self w) = None -> valid_cached_token w = (Returns None, w).
Proof.
  intros H. unfold valid_cached_token, bind, get. cbv beta iota. now rewrite H.
Qed.

Lemma valid_cached_token_some (w : world) (tok : TokenData) :
  _token (self w) = Some tok ->
  buffer_fits (utcnow_clock w (clock_reads w)) (token_refresh_buffer (self w)) = true ->
  valid_cached_token w
  = (Returns (if utcnow_clock w (clock_reads w)
                  + token_refresh_buffer (self w) * SECOND <? expires_at tok
              then Some tok else None), tick w).
Proof.
  intros H Hb. unfold valid_cached_token, bind, get. cbv beta iota. rewrite H.
  rewrite (is_valid_run tok _ w Hb). reflexivity.
Qed.

(** A valid cached token is returned as it is: the clock is read once and
    nothing else changes. *)
Lemma get_access_token_cached (w : world) (tok : TokenData) :
  _token (self w) = Some tok ->
  buffer_fits (utcnow_clock w (clock_reads w)) (token_refresh_buffer (self w)) = true ->
  utcnow_clock w (clock_reads w) + token_refresh_buffer (self w) * SECOND
    < expires_at tok ->
  _get_access_token w = (Returns (access_token tok), tick w).
Proof.
  intros H Hb Hlt. unfold _get_access_token, bind.
  rewrite (valid_cached_token_some w tok H Hb).
  apply Z.ltb_lt in Hlt. rewrite Hlt. reflexivity.
Qed.

Lemma get_access_token_stale (w w' : world) :
  stale w w' -> _get_access_token w = refresh_token w'.
Proof.
  intros [[H ->] | (tok & H & Hb0 & Hb1 & H0 & H1 & ->)];
    unfold _get_access_token, bind.
  - rewrite (valid_cached_token_none w H). cbv beta iota.
    now rewrite (valid_cached_token_none w H).
  - rewrite (valid_cached_token_some w tok H Hb0).
    apply Z.ltb_ge in H0. rewrite H0. cbv beta iota.
    rewrite (valid_cached_token_some (tick w) tok H Hb1).
    cbn [tick utcnow snd utcnow_clock clock_reads self].
    apply Z.ltb_ge in H1. rewrite H1. reflexivity.
Qed.

Ltac run_py :=
  unfold refresh_token, request_token, session_call, raise_for_status,
    response_json, store_token, emit, add_log, utcnow, py_get, try_except, bind,
    lift, ret, raise, modify, get, tick;
  cbn [fst snd self utcnow_clock clock_reads network calls logged select_handler
       exc_cls is_RequestException is_ValueError is_TypeError_or_ValueError
       set_token _token].

(** Whatever the endpoint answers, a refresh posts exactly one form to the
    token URL. *)
Lemma refresh_token_posts (w : world) :
  calls (snd (refresh_token w)) = (calls w ++ [token_call (self w)])%list.
Proof.
  run_py.
  destruct (network w (List.length (calls w))) as [msg | r]; [reflexivity|].
  destruct (http_error r); [reflexivity|].
  cbn [fst snd self utcnow_clock clock_reads network calls logged].
  destruct (json_result r) as [msg | data]; [reflexivity|].
  destruct data as [ | b | n | s | xs | d]; try reflexivity.
  cbn [fst snd self utcnow_clock clock_reads network calls logged].
  destruct (negb (truthy _) || negb (is_str _)); [reflexivity|].
  destruct (negb (truthy (match dict_get "expires_in" d with Some v => v | None => JNull end)));
    cbn [fst snd self utcnow_clock clock_reads network calls logged py_int].
  - destruct (timedelta_seconds 300); [|reflexivity].
    destruct (datetime_add _ _); reflexivity.
  - destruct (py_int _) as [m | e].
    + destruct (timedelta_seconds m); [|reflexivity].
      destruct (datetime_add _ _); reflexivity.
    + cbn [select_handler]. destruct (is_TypeError_or_ValueError (exc_cls e)); reflexivity.
Qed.

Lemma py_int_raises (v : json) (e : pyexc) :
  py_int v = Raises e -> is_TypeError_or_ValueError (exc_cls e) = true.
Proof.
  destruct v as [ | b | n | s | xs | d]; cbn; try discriminate;
    try (intros [= <-]; reflexivity).
  destruct (int_of_str s); [discriminate | intros [= <-]; reflexivity].
Qed.

(** For a reply with an object body, the refresh ends in [HaloAuthError]
    exactly under [auth_failure]. *)
Lemma refresh_token_class (w : world) :
  object_reply (network w (List.length (calls w))) = true ->
  match fst (refresh_token w) with
  | Raises e => exc_cls e = HaloAuthError <-> auth_failure (network w (List.length (calls w))) = true
  | Returns _ => auth_failure (network w (List.length (calls w))) = false
  end.
Proof.
  unfold object_reply, auth_failure. run_py.
  destruct (network w (List.length (calls w))) as [msg | r]; [cbn; tauto|].
  destruct (http_error r); [cbn; tauto|].
  cbn [fst snd self utcnow_clock clock_reads network calls logged orb].
  destruct (json_result r) as [msg | data]; [cbn; tauto|].
  destruct data as [ | b | n | s | xs | d]; try discriminate. intros _.
  cbn [fst snd self utcnow_clock clock_reads network calls logged].
  fold (access_token_of d). fold (expires_in_of d).
  destruct (negb (truthy (access_token_of d)) || negb (is_str (access_token_of d)));
    [cbn; tauto|].
  cbn [orb].
  destruct (truthy (expires_in_of d));
    cbn [negb andb fst snd self utcnow_clock clock_reads network calls logged py_int].
  - destruct (py_int (expires_in_of d)) as [m | e] eqn:E; cbn [raises].
    + destruct (timedelta_seconds m) as [lt | e] eqn:Et;
        [| unfold timedelta_seconds in Et; destruct (timedelta_ok _); inversion Et;
           cbn; split; discriminate].
      destruct (datetime_add _ lt) as [ea | e] eqn:Ea;
        [reflexivity
        | unfold datetime_add in Ea; destruct (datetime_ok _); inversion Ea;
          cbn; split; discriminate].
    + cbn [select_handler]. rewrite (py_int_raises _ _ E). cbn. tauto.
  - destruct (timedelta_seconds 300) as [lt | e] eqn:Et;
      [| unfold timedelta_seconds in Et; destruct (timedelta_ok _); inversion Et;
         cbn; split; discriminate].
    destruct (datetime_add _ lt) as [ea | e] eqn:Ea;
      [reflexivity
      | unfold datetime_add in Ea; destruct (datetime_ok _); inversion Ea;
        cbn; split; discriminate].
Qed.

(** A well-formed answer yields a cached token that expires [n] seconds after
    the clock reading taken by the refresh, [n] being [int(expires_in)] for a
    truthy [expires_in] and 300 otherwise. *)
Lemma refresh_token_success (w : world) (r : Response) (d : list (string * json))
    (s : string) (n : Z) :
  network w (List.length (calls w)) = Responds r ->
  http_error r = false ->
  json_result r = inr (JDict d) ->
  dict_get "access_token" d = Some (JStr s) ->
  nonempty s = true ->
  (truthy (expires_in_of d) = true /\ py_int (expires_in_of d) = Returns n
   \/ truthy (expires_in_of d) = false /\ n = 300) ->
  timedelta_ok (n * SECOND) = true ->
  datetime_ok (utcnow_clock w (clock_reads w) + n * SECOND) = true ->
  fst (refresh_token w) = Returns s
  /\ _token (self (snd (refresh_token w)))
     = Some {| access_token := s;
               expires_at := utcnow_clock w (clock_reads w) + n * SECOND |}.
Proof.
  intros Hrep Hst Hjs Hat Hs Hn Htd Hdt. run_py.
  rewrite Hrep, Hst.
  cbn [fst snd self utcnow_clock clock_reads network calls logged].
  rewrite Hjs, Hat.
  cbn [fst snd self utcnow_clock clock_reads network calls logged truthy is_str].
  rewrite Hs. cbn [negb orb]. fold (expires_in_of d).
  unfold timedelta_seconds, datetime_add.
  destruct Hn as [[Ht Hi] | [Ht ->]]; rewrite Ht;
    cbn [negb fst snd self utcnow_clock clock_reads network calls logged py_int];
    [rewrite Hi|]; rewrite Htd;
    cbn [fst snd self utcnow_clock clock_reads network calls logged];
    rewrite Hdt; split; reflexivity.
Qed.

Lemma stale_frame (w w' : world) :
  stale w w' ->
  self w' = self w /\ calls w' = calls w /\ network w' = network w
  /\ utcnow_clock w' = utcnow_clock w.
Proof.
  intros [[_ ->] | (tok & _ & _ & _ & _ & _ & ->)]; repeat split; reflexivity.
Qed.

(** The refresh path of the getter, for a well-formed answer. *)
Lemma get_access_token_refreshed (w w' : world) (r : Response)
    (d : list (string * json)) (s : string) (n : Z) :
  stale w w' ->
  network w (List.length (calls w)) = Responds r ->
  http_error r = false ->
  json_result r = inr (JDict d) ->
  dict_get "access_token" d = Some (JStr s) ->
  nonempty s = true ->
  (truthy (expires_in_of d) = true /\ py_int (expires_in_of d) = Returns n
   \/ truthy (expires_in_of d) = false /\ n = 300) ->
  timedelta_ok (n * SECOND) = true ->
  datetime_ok (utcnow_clock w (clock_reads w') + n * SECOND) = true ->
  fst (_get_access_token w) = Returns s
  /\ _token (self (snd (_get_access_token w)))
     = Some {| access_token := s;
               expires_at := utcnow_clock w (clock_reads w') + n * SECOND |}.
Proof.
  intros Hs Hrep. rewrite (get_access_token_stale w w' Hs).
  destruct (stale_frame w w' Hs) as (Hself & Hcalls & Hnet & Hclock).
  rewrite <- Hcalls, <- Hnet, <- Hclock in *.
  now apply refresh_token_success.
Qed.

(** A well-formed answer whose lifetime [timedelta] cannot hold, or whose
    expiry is not a [datetime], makes the refresh raise [OverflowError]
    before anything is cached. *)
Lemma refresh_token_overflow (w : world) (r : Response) (d : list (string * json))
    (s : string) (n : Z) :
  network w (List.length (calls w)) = Responds r ->
  http_error r = false ->
  json_result r = inr (JDict d) ->
  dict_get "access_token" d = Some (JStr s) ->
  nonempty s = true ->
  (truthy (expires_in_of d) = true /\ py_int (expires_in_of d) = Returns n
   \/ truthy (expires_in_of d) = false /\ n = 300) ->
  timedelta_ok (n * SECOND)
  && datetime_ok (utcnow_clock w (clock_reads w) + n * SECOND) = false ->
  (exists e, fst (refresh_token w) = Raises e /\ exc_cls e = OverflowError)
  /\ _token (self (snd (refresh_token w))) = _token (self w).
Proof.
  intros Hrep Hst Hjs Hat Hs Hn Hfit. run_py.
  rewrite Hrep, Hst.
  cbn [fst snd self utcnow_clock clock_reads network calls logged].
  rewrite Hjs, Hat.
  cbn [fst snd self utcnow_clock clock_reads network calls logged truthy is_str].
  rewrite Hs. cbn [negb orb]. fold (expires_in_of d).
  unfold timedelta_seconds, datetime_add.
  destruct Hn as [[Ht Hi] | [Ht ->]]; rewrite Ht;
    cbn [negb fst snd self utcnow_clock clock_reads network calls logged py_int];
    [rewrite Hi|].
  all: destruct (timedelta_ok _) eqn:Htd.
  all: cbn [andb] in Hfit.
  all: cbn [fst snd self utcnow_clock clock_reads network calls logged].
  all: try rewrite Hfit.
  all: cbn.
  all: (split; [eexists; split; reflexivity | reflexivity]).
Qed.

(** C1 (amended).  While the cached token is valid under the refresh buffer,
    the getter returns it and calls nothing.  When the token is absent or
    invalid, exactly one form is posted to the token URL, and for a
    well-formed answer, with [n = int(expires_in)] when [expires_in] is
    truthy and [n = 300] when it is absent or falsy: the getter returns the
    new token and caches it with [expires_at = now + n] seconds when
    [timedelta(seconds=n)] and that sum are representable, and raises
    [OverflowError], the cache left as it was, when they are not. *)
Theorem token_getter_cache_and_refresh (w w' : world) :
  (forall tok,
      _token (self w) = Some tok ->
      buffer_fits (utcnow_clock w (clock_reads w)) (token_refresh_buffer (self w)) = true ->
      utcnow_clock w (clock_reads w) + token_refresh_buffer (self w) * SECOND
        < expires_at tok ->
      fst (_get_access_token w) = Returns (access_token tok)
      /\ calls (snd (_get_access_token w)) = calls w
      /\ _token (self (snd (_get_access_token w))) = Some tok)
  /\ (stale w w' ->
      calls (snd (_get_access_token w)) = (calls w ++ [token_call (self w)])%list
      /\ forall r d s n,
          network w (List.length (calls w)) = Responds r ->
          http_error r = false ->
          json_result r = inr (JDict d) ->
          dict_get "access_token" d = Some (JStr s) ->
          nonempty s = true ->
          (truthy (expires_in_of d) = true /\ py_int (expires_in_of d) = Returns n
           \/ truthy (expires_in_of d) = false /\ n = 300) ->
          let now := utcnow_clock w (clock_reads w') in
          if timedelta_ok (n * SECOND) && datetime_ok (now + n * SECOND)
          then fst (_get_access_token w) = Returns s
               /\ _token (self (snd (_get_access_token w)))
                  = Some {| access_token := s; expires_at := now + n * SECOND |}
          else (exists e, fst (_get_access_token w) = Raises e
                          /\ exc_cls e = OverflowError)
               /\ _token (self (snd (_get_access_token w))) = _token (self w)).
Proof.
  split.
  - intros tok H Hb Hlt. rewrite (get_access_token_cached w tok H Hb Hlt).
    cbn. auto.
  - intros Hs. split.
    + rewrite (get_access_token_stale w w' Hs), refresh_token_posts.
      destruct (stale_frame w w' Hs) as (Hself & Hcalls & _ & _).
      now rewrite Hself, Hcalls.
    + intros r d s n Hrep Hst Hjs Hat Hne Hn now.
      destruct (timedelta_ok (n * SECOND) && datetime_ok (now + n * SECOND)) eqn:Hfit.
      * apply andb_prop in Hfit. destruct Hfit as [Htd Hdt].
        now apply (get_access_token_refreshed w w' r d s n).
      * rewrite (get_access_token_stale w w' Hs).
        destruct (stale_frame w w' Hs) as (Hself & Hcalls & Hnet & Hclock).
        subst now. rewrite <- Hcalls, <- Hnet, <- Hclock, <- Hself in *.
        now apply (refresh_token_overflow w' r d s n).
Qed.

Lemma token_getter_cache_and_refresh_witness :
  (fst (_get_access_token (Examples.demo_world (Some Examples.fresh_token) (fun _ => Fails "down")))
   = Returns "cached"
   /\ calls (snd (_get_access_token
                    (Examples.demo_world (Some Examples.fresh_token) (fun _ => Fails "down")))) = [])
  /\ (fst (_get_access_token Examples.world_granting) = Returns "tok"
      /\ _token (self (snd (_get_access_token Examples.world_granting)))
         = Some {| access_token := "tok"; expires_at := Examples.T0 + 3600 * SECOND |})
  /\ (exists e,
        fst (_get_access_token
               (Scenarios.world_serving (10 ^ 14) (Examples.text_response 200 "")))
        = Raises e
        /\ exc_cls e = OverflowError)
  /\ _token (self (snd (_get_access_token
                          (Scenarios.world_serving (10 ^ 14)
                             (Examples.text_response 200 ""))))) = None.
Proof.
  split; [|split].
  - destruct (token_getter_cache_and_refresh
                (Examples.demo_world (Some Examples.fresh_token) (fun _ => Fails "down"))
                (Examples.demo_world (Some Examples.fresh_token) (fun _ => Fails "down")))
      as [Hvalid _].
    destruct (Hvalid Examples.fresh_token) as (H1 & H2 & _);
      [reflexivity | reflexivity | reflexivity | ].
    split; [exact H1 | exact H2].
  - destruct (token_getter_cache_and_refresh Examples.world_granting Examples.world_granting)
      as [_ Hstale].
    destruct Hstale as [_ Hok]; [left; split; reflexivity|].
    apply (Hok (Examples.json_response 200 (Examples.token_body (JInt 3600)))
               [("access_token", JStr "tok"); ("expires_in", JInt 3600)] "tok" 3600);
      try reflexivity.
    left. split; reflexivity.
  - destruct (token_getter_cache_and_refresh
                (Scenarios.world_serving (10 ^ 14) (Examples.text_response 200 ""))
                (Scenarios.world_serving (10 ^ 14) (Examples.text_response 200 "")))
      as [_ Hstale].
    destruct Hstale as [_ Hok]; [left; split; reflexivity|].
    apply (Hok (Examples.json_response 200 (Examples.token_body (JInt (10 ^ 14))))
               [("access_token", JStr "tok"); ("expires_in", JInt (10 ^ 14))]
               "tok" (10 ^ 14));
      try reflexivity.
    left. split; reflexivity.
Defined.

(** C1, as stated, fails when the endpoint sends [expires_in = 0]: the token is
    cached for 300 seconds, not for [now + 0]. *)
Lemma token_expiry_zero_counterexample :
  fst (_get_access_token Examples.world_expires_zero) = Returns "tok"
  /\ _token (self (snd (_get_access_token Examples.world_expires_zero)))
     = Some {| access_token := "tok"; expires_at := Examples.T0 + 300 * SECOND |}
  /\ _token (self (snd (_get_access_token Examples.world_expires_zero)))
     <> Some {| access_token := "tok"; expires_at := Examples.T0 + 0 * SECOND |}.
Proof.
  split; [reflexivity|]. split; [reflexivity|]. vm_compute. discriminate.
Qed.

Lemma stale_answering (rep : reply) (w w' : world) :
  stale w w' -> stale (answering rep w) (answering rep w').
Proof.
  intros [[H ->] | (tok & H & Hb0 & Hb1 & H0 & H1 & ->)].
  - left. split; [exact H | reflexivity].
  - right. exists tok. repeat split; assumption.
Qed.

Lemma dict_get_remove {V} (k : string) (d : list (string * V)) :
  dict_get k (dict_remove k d) = None.
Proof.
  induction d as [|[k' v] d IH]; [reflexivity|]. cbn [dict_remove].
  destruct (String.eqb k k') eqn:E; [exact IH|]. cbn [dict_get]. now rewrite E.
Qed.

Lemma dict_get_remove_other {V} (k k' : string) (d : list (string * V)) :
  String.eqb k' k = false -> dict_get k' (dict_remove k d) = dict_get k' d.
Proof.
  intros Hne. induction d as [|[k0 v] d IH]; [reflexivity|]. cbn [dict_remove dict_get].
  destruct (String.eqb k k0) eqn:E.
  - apply String.eqb_eq in E. subst k0. now rewrite Hne.
  - cbn [dict_get]. now rewrite IH.
Qed.

(** C10.  A token response whose [expires_in] is present but falsy is handled
    as if the member were absent: the getter returns the token and caches it
    for 300 seconds, and the outcome and the cached token are those of the
    same response without the member. *)
Theorem falsy_expires_in_is_absent (w w' : world) (r : Response)
    (d : list (string * json)) (s : string) (v : json) :
  stale w w' ->
  network w (List.length (calls w)) = Responds r ->
  http_error r = false ->
  json_result r = inr (JDict d) ->
  dict_get "access_token" d = Some (JStr s) ->
  nonempty s = true ->
  dict_get "expires_in" d = Some v ->
  truthy v = false ->
  datetime_ok (utcnow_clock w (clock_reads w') + 300 * SECOND) = true ->
  let absent := answering (Responds (with_body (JDict (dict_remove "expires_in" d)) r)) w in
  fst (_get_access_token w) = Returns s
  /\ _token (self (snd (_get_access_token w)))
     = Some {| access_token := s;
               expires_at := utcnow_clock w (clock_reads w') + 300 * SECOND |}
  /\ fst (_get_access_token w) = fst (_get_access_token absent)
  /\ _token (self (snd (_get_access_token w)))
     = _token (self (snd (_get_access_token absent))).
Proof.
  intros Hs Hrep Hst Hjs Hat Hne Hei Hv Hdt absent.
  assert (Hfalsy : truthy (expires_in_of d) = false) by (unfold expires_in_of; now rewrite Hei).
  destruct (get_access_token_refreshed w w' r d s 300 Hs Hrep Hst Hjs Hat Hne
              (or_intror (conj Hfalsy eq_refl)) eq_refl Hdt) as [H1 H2].
  destruct (get_access_token_refreshed absent
              (answering (Responds (with_body (JDict (dict_remove "expires_in" d)) r)) w')
              (with_body (JDict (dict_remove "expires_in" d)) r)
              (dict_remove "expires_in" d) s 300) as [H3 H4].
  - now apply stale_answering.
  - unfold absent. cbn. now rewrite Nat.eqb_refl.
  - exact Hst.
  - reflexivity.
  - rewrite dict_get_remove_other; [exact Hat | reflexivity].
  - exact Hne.
  - right. unfold expires_in_of. rewrite dict_get_remove. split; reflexivity.
  - reflexivity.
  - exact Hdt.
  - repeat split; [exact H1 | exact H2 | now rewrite H1, H3 | now rewrite H2, H4].
Qed.

Lemma falsy_expires_in_is_absent_witness :
  fst (_get_access_token Examples.world_expires_zero) = Returns "tok"
  /\ _token (self (snd (_get_access_token Examples.world_expires_zero)))
     = Some {| access_token := "tok"; expires_at := Examples.T0 + 300 * SECOND |}.
Proof.
  destruct (falsy_expires_in_is_absent
              Examples.world_expires_zero Examples.world_expires_zero
              (Examples.json_response 200 (Examples.token_body (JInt 0)))
              [("access_token", JStr "tok"); ("expires_in", JInt 0)] "tok" (JInt 0))
    as (H1 & H2 & _); try reflexivity.
  - left. split; reflexivity.
  - split; [exact H1 | exact H2].
Defined.

(** C8 (amended).  For a token response whose body is a JSON object, the
    getter ends in [HaloAuthError] exactly when the call fails or answers
    with an error status, the body does not decode, [access_token] is missing,
    empty or not a string, or [expires_in] is truthy and [int()] rejects it. *)
Theorem auth_error_conditions (w w' : world) :
  stale w w' ->
  object_reply (network w (List.length (calls w))) = true ->
  (exists e, fst (_get_access_token w) = Raises e /\ exc_cls e = HaloAuthError)
  <-> auth_failure (network w (List.length (calls w))) = true.
Proof.
  intros Hs Hobj. rewrite (get_access_token_stale w w' Hs).
  destruct (stale_frame w w' Hs) as (_ & Hcalls & Hnet & _).
  rewrite <- Hcalls, <- Hnet in *.
  pose proof (refresh_token_class w' Hobj) as H.
  destruct (fst (refresh_token w')) as [s | e].
  - rewrite H. split; [intros (e & He & _); discriminate | discriminate].
  - split.
    + intros (e' & [= <-] & Hc). now apply H.
    + intros Ha. exists e. split; [reflexivity | now apply H].
Qed.

Lemma auth_error_conditions_witness :
  (exists e, fst (_get_access_token Examples.world_empty_token) = Raises e
             /\ exc_cls e = HaloAuthError)
  <-> auth_failure (network Examples.world_empty_token 0) = true.
Proof.
  apply (auth_error_conditions Examples.world_empty_token Examples.world_empty_token).
  - left. split; reflexivity.
  - reflexivity.
Defined.

(** C8, as stated, fails for an empty [access_token]: the member is present
    and is a string, [expires_in] is an integer, and still the getter raises
    [HaloAuthError]. *)
Lemma empty_access_token_counterexample :
  spec_auth_failure (network Examples.world_empty_token 0) = false
  /\ fst (_get_access_token Examples.world_empty_token)
     = Raises (Exc HaloAuthError "Token response missing access_token" None).
Proof. split; reflexivity. Qed.

(** ** Requests and error logging *)

Lemma log_error_response_run (r : Response) (w : world) :
  _log_error_response r w = (Returns tt, add_log (error_record r) w).
Proof.
  unfold _log_error_response, error_record, error_body_arg, add_log.
  destruct (contains "json" _).
  - unfold response_json. destruct (json_result r) as [msg | parsed]; reflexivity.
  - reflexivity.
Qed.

Lemma take_length (n : nat) (s : string) : (String.length (take n s) <= n)%nat.
Proof.
  revert s. induction n as [|n IH]; intros [|c s]; cbn; try lia.
  specialize (IH s). lia.
Qed.

(** What [_request] does once the token is there. *)
Lemma request_after_token (method path : string) (params payload : option json)
    (headers : list (string * string)) (expected : list Z)
    (w w1 : world) (tok : string) :
  nonempty path = true ->
  _get_access_token w = (Returns tok, w1) ->
  (forall msg,
      network w1 (List.length (calls w1)) = Fails msg ->
      fst (_request method path params payload headers expected w)
      = Raises (Exc HaloAPIError "Failed to execute request to Halo Connect"
                    (Some (Exc RequestException msg None))))
  /\ (forall r,
      network w1 (List.length (calls w1)) = Responds r ->
      existsb (Z.eqb (status_code r)) expected = false ->
      fst (_request method path params payload headers expected w)
      = Raises (Exc HaloAPIError
                    ("Halo Connect responded with unexpected status "
                     ++ encode_int (status_code r) ++ ": " ++ text r) None)
      /\ logged (snd (_request method path params payload headers expected w))
         = (logged w1 ++ [error_record r])%list).
Proof.
  intros Hp Htok. unfold _request. rewrite Hp. cbn [negb].
  rewrite (bind_returns _ _ _ _ _ Htok).
  rewrite (bind_returns get _ w1 w1 w1 eq_refl).
  split.
  - intros msg Hrep.
    erewrite bind_raises; [reflexivity|].
    unfold try_except, session_call. rewrite Hrep. reflexivity.
  - intros r Hrep Hst.
    erewrite bind_returns;
      [ | unfold try_except, session_call; rewrite Hrep; reflexivity ].
    rewrite Hst. cbn [negb].
    unfold bind. rewrite log_error_response_run. split; reflexivity.
Qed.





Lemma repeat_str_length (n : nat) (c : ascii) :
  String.length (repeat_str n (String c "")) = n.
Proof. induction n as [|n IH]; cbn; congruence. Qed.

(** C7 (amended).  [_log_error_response] emits one ERROR record holding the
    status code and the body: the first 2048 characters of the text when the
    content type does not mention json or the body does not decode, and the
    whole decoded document otherwise.  [_request] emits that record for every
    response whose status is not among the expected ones. *)
Theorem error_response_log_record (r : Response) (w : world) :
  logged (snd (_log_error_response r w)) = (logged w ++ [error_record r])%list
  /\ args (error_record r) = [ArgInt (status_code r); error_body_arg r]
  /\ (forall parsed,
        contains "json" (match content_type r with Some v => v | None => "" end) = true ->
        json_result r = inr parsed ->
        error_body_arg r = ArgJson parsed)
  /\ (contains "json" (match content_type r with Some v => v | None => "" end) = false
      \/ (exists msg, json_result r = inl msg) ->
      error_body_arg r = ArgStr (take 2048 (text r))
      /\ (arg_chars (error_body_arg r) <= 2048)%nat)
  /\ (forall method path params payload headers expected w0 tok,
        nonempty path = true ->
        _get_access_token w0 = (Returns tok, w) ->
        network w (List.length (calls w)) = Responds r ->
        existsb (Z.eqb (status_code r)) expected = false ->
        logged (snd (_request method path params payload headers expected w0))
        = (logged w ++ [error_record r])%list).
Proof.
  split; [now rewrite log_error_response_run|]. split; [reflexivity|].
  split; [|split].
  - intros parsed Hc Hj. unfold error_body_arg. now rewrite Hc, Hj.
  - intros H.
    assert (E : error_body_arg r = ArgStr (take 2048 (text r))).
    { unfold error_body_arg.
      destruct (contains "json" _); [|reflexivity].
      destruct H as [H | [msg H]]; [discriminate | now rewrite H]. }
    split; [exact E|]. rewrite E. apply take_length.
  - intros method path params payload headers expected w0 tok Hp Htok Hrep Hst.
    destruct (request_after_token method path params payload headers expected
                w0 w tok Hp Htok) as [_ Hstatus].
    now destruct (Hstatus r Hrep Hst).
Qed.

Lemma error_response_log_record_witness :
  error_body_arg (Examples.text_response 502 (repeat_str 5000 "x"))
  = ArgStr (repeat_str 2048 "x")
  /\ (arg_chars (error_body_arg (Examples.text_response 502 (repeat_str 5000 "x")))
      <= 2048)%nat.
Proof.
  destruct (error_response_log_record
              (Examples.text_response 502 (repeat_str 5000 "x"))
              (Examples.world_calling (Fails "unused")))
    as (_ & _ & _ & Hcut & _).
  destruct Hcut as [E Hle]; [left; reflexivity|].
  split; [rewrite E; vm_compute; reflexivity | exact Hle].
Defined.

(** C7, as stated, fails: a JSON error body is logged whole.  A body that is
    one string of 3000 characters is logged with all its 3000 characters, and
    no bound holds for all responses. *)
Lemma json_error_body_unbounded_counterexample :
  logged (snd (_log_error_response Examples.big_error
                 (Examples.world_calling (Responds Examples.big_error))))
  = [{| level := ERROR; fmt := "Halo Connect error response: status=%s body=%s";
        args := [ArgInt 500; ArgJson (JStr (repeat_str 3000 "a"))] |}]
  /\ arg_chars (ArgJson (JStr (repeat_str 3000 "a"))) = 3000%nat
  /\ forall bound : nat,
       exists r, (bound < arg_chars (error_body_arg r))%nat.
Proof.
  split; [vm_compute; reflexivity|]. split; [vm_compute; reflexivity|].
  intros bound.
  exists (Examples.json_response 500 (JStr (repeat_str (S bound) "a"))).
  unfold error_body_arg. cbn [Examples.json_response content_type json_result].
  change (contains "json" "application/json") with true. cbn iota.
  cbn [arg_chars json_chars]. rewrite repeat_str_length. lia.
Qed.

(** ** The task log *)

Import Orchestrator.

Section TaskLog.
Context {App : Type}.
Implicit Types w : world App.

Lemma read_history_state w : snd (_read_history w) = w.
Proof.
  unfold _read_history, bind, get, ret, raise. cbv beta iota.
  destruct (log_file w) as [content|]; [|reflexivity].
  destruct (negb (nonempty (strip content))); [reflexivity|].
  destruct (loads (strip content)) as [msg | [ | b | n | s | xs | d]]; reflexivity.
Qed.

Lemma read_history_file w1 w2 :
  log_file w1 = log_file w2 -> fst (_read_history w1) = fst (_read_history w2).
Proof.
  intros H. unfold _read_history, bind, get, ret, raise. cbv beta iota. rewrite H.
  destruct (log_file w2) as [content|]; [|reflexivity].
  destruct (negb (nonempty (strip content))); [reflexivity|].
  destruct (loads (strip content)) as [msg | [ | b | n | s | xs | d]]; reflexivity.
Qed.

Lemma read_history_run w (r : outcome (list json)) :
  fst (_read_history w) = r -> _read_history w = (r, w).
Proof.
  intros <-. rewrite <- (read_history_state w) at 3. now destruct (_read_history w).
Qed.

Lemma strip_dumps_list (l : list json) :
  strip (dumps (JList l) ++ NL) = dumps (JList l).
Proof.
  destruct (dumps_list_shape l) as [body Hb].
  rewrite Hb. unfold strip. cbn [append lstrip].
  change (isspace "[") with false. cbn iota.
  change (String "[" ((body ++ "]") ++ NL)) with ((String "[" (body ++ "]")) ++ NL).
  rewrite rstrip_newline.
  change (String "[" (body ++ "]")) with (String "[" body ++ "]").
  now apply rstrip_last.
Qed.

(** A file written by [log] reads back as the history it was written from. *)
Lemma read_history_written w (l : list json) :
  forallb well_formed l = true ->
  log_file w = Some (dumps (JList l) ++ NL) ->
  fst (_read_history w) = Returns l.
Proof.
  intros Hwf Hf. unfold _read_history, bind, get, ret, raise. cbv beta iota.
  rewrite Hf, strip_dumps_list.
  assert (Hne : nonempty (dumps (JList l)) = true)
    by (destruct (dumps_list_shape l) as [body ->]; reflexivity).
  rewrite Hne. cbn [negb].
  rewrite loads_dumps; [reflexivity | exact Hwf].
Qed.

(** A history that was read has unique keys at every depth. *)
Lemma read_history_well_formed w (h : list json) :
  fst (_read_history w) = Returns h -> forallb well_formed h = true.
Proof.
  unfold _read_history, bind, get, ret, raise. cbv beta iota.
  destruct (log_file w) as [content|]; [|now intros [= <-]].
  destruct (negb (nonempty (strip content))); [now intros [= <-]|].
  destruct (loads (strip content)) as [msg | j] eqn:E; [discriminate|].
  apply loads_well_formed in E.
  destruct j; try discriminate. now intros [= <-].
Qed.

Lemma log_run w (task_name status : string) (start_time : option moment)
    (message : option string) (details : option (list (string * json)))
    (h : list json) :
  fst (_read_history w) = Returns h ->
  log task_name status start_time message details w
  = (Returns tt, logged_state task_name status start_time message details h w).
Proof.
  intros Hh. unfold log.
  rewrite (bind_returns _utc_now _ w (set_utc_reads (S (utc_reads w)) w)
             (utc_clock w (utc_reads w)) eq_refl).
  assert (Hh' : fst (_read_history (set_utc_reads (S (utc_reads w)) w)) = Returns h)
    by (rewrite (read_history_file (set_utc_reads (S (utc_reads w)) w) w eq_refl);
        exact Hh).
  rewrite (bind_returns _ _ _ _ _ (read_history_run _ _ Hh')).
  reflexivity.
Qed.

Lemma log_raises w (task_name status : string) (start_time : option moment)
    (message : option string) (details : option (list (string * json)))
    (e : pyexc) :
  fst (_read_history w) = Raises e ->
  log task_name status start_time message details w
  = (Raises e, set_utc_reads (S (utc_reads w)) w).
Proof.
  intros Hh. unfold log.
  rewrite (bind_returns _utc_now _ w (set_utc_reads (S (utc_reads w)) w)
             (utc_clock w (utc_reads w)) eq_refl).
  assert (Hh' : fst (_read_history (set_utc_reads (S (utc_reads w)) w)) = Raises e)
    by (rewrite (read_history_file (set_utc_reads (S (utc_reads w)) w) w eq_refl);
        exact Hh).
  now rewrite (bind_raises _ _ _ _ _ (read_history_run _ _ Hh')).
Qed.

(** On a corrupt log [_read_history] raises a [ValueError]. *)
Lemma read_history_corrupt w :
  corrupt_log w = true ->
  exists e, fst (_read_history w) = Raises e /\ exc_cls e = ValueError.
Proof.
  unfold corrupt_log, _read_history, bind, get, ret, raise. cbv beta iota.
  destruct (log_file w) as [content|]; [|discriminate].
  intros H. apply andb_prop in H. destruct H as [Hne Hc]. rewrite Hne. cbn [negb].
  destruct (loads (strip content)) as [msg | j] eqn:E.
  - eexists. split; reflexivity.
  - rewrite (loads_check _ _ E) in Hc.
    destruct j; try discriminate; eexists; split; reflexivity.
Qed.

End TaskLog.

Section TaskLogClaims.
Context {App : Type}.
Implicit Types w : world App.

(** C4 (amended).  When the log file exists and its content, stripped of
    leading and trailing whitespace, is non-empty and is not valid JSON
    ([json.loads] rejects it, whatever the reason) or is valid JSON that is
    not an array, [log] raises [ValueError] and leaves the file as it is. *)
Theorem corrupt_log_raises w (content task_name status : string)
    (start_time : option moment) (message : option string)
    (details : option (list (string * json))) :
  log_file w = Some content ->
  nonempty (strip content) = true ->
  ((exists msg, check (strip content) = inl msg)
   \/ (exists k, check (strip content) = inr k /\ is_array k = false)) ->
  exists e,
    fst (log task_name status start_time message details w) = Raises e
    /\ exc_cls e = ValueError
    /\ log_file (snd (log task_name status start_time message details w))
       = Some content.
Proof.
  intros Hf Hne Hbad.
  assert (Hr : exists e, fst (_read_history w) = Raises e /\ exc_cls e = ValueError).
  { apply read_history_corrupt. unfold corrupt_log. rewrite Hf, Hne. cbn [andb].
    destruct Hbad as [[msg ->] | (k & -> & ->)]; reflexivity. }
  destruct Hr as (e & He & Hc). exists e.
  rewrite (log_raises w _ _ _ _ _ e He). cbn [fst snd set_utc_reads log_file].
  auto.
Qed.

Lemma entry_well_formed (t : moment) (c : log_call) :
  details_well_formed c = true -> well_formed (entry_of t c) = true.
Proof.
  unfold details_well_formed, entry_of, log_entry.
  destruct c as [task status start [m|] [d|]]; cbn [lc_details lc_message];
    intros H; try destruct (nonempty m); cbn in *; try rewrite H; reflexivity.
Qed.

Lemma entry_of_records (t : moment) (c : log_call) : entry_records c (entry_of t c).
Proof.
  unfold entry_records, entry_of, log_entry. eexists. split; [reflexivity|].
  destruct c as [task status start [m|] [d|]]; cbn [lc_details lc_message lc_task lc_status];
    try destruct (nonempty m); cbn; repeat split; reflexivity.
Qed.







End TaskLogClaims.

Lemma corrupt_log_raises_witness :
  (exists e,
     fst (log "daily_recalls" "success" None None None Examples.corrupt_log_world)
     = Raises e
     /\ exc_cls e = ValueError
     /\ log_file (snd (log "daily_recalls" "success" None None None
                         Examples.corrupt_log_world))
        = Some "not json")
  /\ (exists e,
        fst (log "daily_recalls" "success" None None None
               (Scenarios.world_logging "[1.5, 2"))
        = Raises e
        /\ exc_cls e = ValueError
        /\ log_file (snd (log "daily_recalls" "success" None None None
                            (Scenarios.world_logging "[1.5, 2")))
           = Some "[1.5, 2")
  /\ (exists e,
        fst (log "daily_recalls" "success" None None None
               (Scenarios.world_logging "1.5e3"))
        = Raises e
        /\ exc_cls e = ValueError
        /\ log_file (snd (log "daily_recalls" "success" None None None
                            (Scenarios.world_logging "1.5e3")))
           = Some "1.5e3").
Proof.
  split; [|split].
  - apply (corrupt_log_raises Examples.corrupt_log_world "not json").
    + reflexivity.
    + reflexivity.
    + left. exists "Expecting value". reflexivity.
  - apply (corrupt_log_raises (Scenarios.world_logging "[1.5, 2") "[1.5, 2").
    + reflexivity.
    + reflexivity.
    + left. exists "Expecting ',' delimiter". reflexivity.
  - apply (corrupt_log_raises (Scenarios.world_logging "1.5e3") "1.5e3").
    + reflexivity.
    + reflexivity.
    + right. exists KNumber. split; reflexivity.
Defined.

(** C4, as stated, fails for a log file that holds one space: the content is
    not empty and is not valid JSON, and still [log] returns and replaces
    it. *)
Lemma blank_log_overwritten_counterexample :
  log_file Examples.blank_log_world = Some " "
  /\ nonempty " " = true
  /\ check " " = inl "Expecting value"
  /\ fst (log "daily_recalls" "success" None None None Examples.blank_log_world)
     = Returns tt
  /\ log_file (snd (log "daily_recalls" "success" None None None
                      Examples.blank_log_world))
     <> Some " ".
Proof.
  repeat split; try reflexivity. vm_compute. discriminate.
Qed.



(** ** The scheduler *)

Section Scheduler.
Context {App : Type}.
Implicit Types w : world App.

Lemma next_after_spec (time_of_day now : Z) :
  time_ok time_of_day = true ->
  schedulable now = true ->
  now < next_after time_of_day now
  /\ next_after time_of_day now - now <= DAY
  /\ next_after time_of_day now - date (next_after time_of_day now) * DAY = time_of_day
  /\ datetime_ok (next_after time_of_day now) = true
  /\ (forall m, now < m -> m - date m * DAY = time_of_day ->
                next_after time_of_day now <= m).
Proof.
  unfold time_ok, schedulable, datetime_ok, next_after, combine, date, MAX_DATETIME.
  intros Ht Hs.
  apply andb_prop in Ht. destruct Ht as [Ht0 Ht1].
  apply andb_prop in Hs. destruct Hs as [Hn Hd].
  apply andb_prop in Hn. destruct Hn as [Hn0 Hn1].
  apply Z.leb_le in Ht0, Hn0. apply Z.ltb_lt in Ht1, Hn1, Hd.
  assert (HD : DAY = 86400000000) by reflexivity.
  assert (HM : MAX_DAYS = 3652059) by reflexivity.
  pose proof (Z.div_mod now DAY ltac:(lia)) as Hdm.
  pose proof (Z.mod_pos_bound now DAY ltac:(lia)) as Hmb.
  set (q := now / DAY) in *. set (m := now mod DAY) in *.
  assert (Hq : 0 <= q) by (apply Z.div_pos; lia).
  assert (Hdate : forall x, 0 <= x < DAY -> forall k, (k * DAY + x) / DAY = k).
  { intros x Hx k. rewrite Z.add_comm, Z.div_add by lia.
    rewrite Z.div_small by lia. lia. }
  destruct (q * DAY + time_of_day <=? now) eqn:E.
  - apply Z.leb_le in E.
    replace (q * DAY + time_of_day + DAY) with ((q + 1) * DAY + time_of_day) by lia.
    rewrite (Hdate time_of_day ltac:(lia) (q + 1)).
    split; [lia|]. split; [lia|]. split; [lia|]. split; [lia|].
    intros m' Hm Htm. set (d := m' / DAY) in *. lia.
  - apply Z.leb_gt in E.
    rewrite (Hdate time_of_day ltac:(lia) q).
    split; [lia|]. split; [lia|]. split; [lia|]. split; [lia|].
    intros m' Hm Htm. set (d := m' / DAY) in *. lia.
Qed.

Lemma next_occurrence_run w (time_of_day : Z) :
  time_ok time_of_day = true ->
  schedulable (local_clock w (now_reads w)) = true ->
  next_occurrence time_of_day w
  = (Returns (next_after time_of_day (local_clock w (now_reads w))),
     set_now_reads (S (now_reads w)) w).
Proof.
  intros Ht Hs.
  destruct (next_after_spec _ _ Ht Hs) as (_ & _ & _ & Hok & _).
  unfold next_occurrence.
  rewrite (bind_returns datetime_now _ w (set_now_reads (S (now_reads w)) w)
             (local_clock w (now_reads w)) eq_refl).
  unfold next_after in *.
  destruct (combine (date (local_clock w (now_reads w))) time_of_day
            <=? local_clock w (now_reads w)); [|reflexivity].
  unfold bind, lift, timedelta_days, datetime_add.
  change (timedelta_ok (1 * DAY)) with true. cbv beta iota.
  change (1 * DAY) with DAY. now rewrite Hok.
Qed.

Lemma nth_error_list_set {A} (l : list A) (i : nat) (x v : A) :
  nth_error l i = Some x -> nth_error (list_set l i v) i = Some v.
Proof.
  revert i. induction l as [|y l IH]; intros [|i] H; cbn in *; try discriminate;
    [reflexivity | now apply IH].
Qed.

Lemma list_set_middle {A} (l1 l2 : list A) (x v : A) :
  list_set (l1 ++ x :: l2)%list (List.length l1) v = (l1 ++ v :: l2)%list.
Proof. induction l1 as [|y l1 IH]; cbn; [reflexivity | now rewrite IH]. Qed.

(** [log] touches the log file and the UTC clock only. *)
Lemma log_frame w (task_name status : string) (start_time : option moment)
    (message : option string) (details : option (list (string * json))) :
  let w' := snd (log task_name status start_time message details w) in
  tasks w' = tasks w /\ now_reads w' = now_reads w /\ local_clock w' = local_clock w
  /\ app w' = app w /\ utc_clock w' = utc_clock w.
Proof.
  destruct (fst (_read_history w)) as [h | e] eqn:E.
  - rewrite (log_run w _ _ _ _ _ h E). cbn. auto.
  - rewrite (log_raises w _ _ _ _ _ e E). cbn. auto.
Qed.

(** The state an attempt leaves when the history reads as [h]. *)
Lemma execute_run w (task_name : string) (act : Action App) (h : list json) :
  fst (_read_history w) = Returns h ->
  execute_with_logging task_name act w
  = (fst (act (app w)),
     let '(status, message, details) := locals_after (fst (act (app w))) in
     logged_state task_name status (Some (utc_clock w (utc_reads w))) message details h
       (set_app (snd (act (app w))) (set_utc_reads (S (utc_reads w)) w))).
Proof.
  intros Hh. unfold execute_with_logging.
  rewrite (bind_returns _utc_now _ w (set_utc_reads (S (utc_reads w)) w)
             (utc_clock w (utc_reads w)) eq_refl).
  unfold try_finally_with, call_action. cbn [app set_utc_reads].
  destruct (act (app w)) as [r a]. cbn [fst snd].
  destruct (locals_after r) as [[status message] details].
  rewrite (log_run _ task_name status _ message details h);
    [reflexivity|].
  rewrite <- Hh. now apply read_history_file.
Qed.

Lemma execute_frame w (task_name : string) (act : Action App) :
  let w' := snd (execute_with_logging task_name act w) in
  tasks w' = tasks w /\ now_reads w' = now_reads w /\ local_clock w' = local_clock w.
Proof.
  unfold execute_with_logging.
  rewrite (bind_returns _utc_now _ w (set_utc_reads (S (utc_reads w)) w)
             (utc_clock w (utc_reads w)) eq_refl).
  unfold try_finally_with, call_action. cbn [app set_utc_reads].
  destruct (act (app w)) as [r a].
  destruct (locals_after r) as [[status message] details].
  match goal with
  | |- context [log ?n ?s ?t ?m ?d ?x] =>
      pose proof (log_frame x n s t m d) as Hf;
      destruct (log n s t m d x) as [[u | e] w2]
  end; cbn in *; destruct Hf as (H1 & H2 & H3 & _); auto.
Qed.

End Scheduler.

Section SchedulerRuns.
Context {App : Type}.
Implicit Types w : world App.

Lemma mark_executed_run w (i : nat) (t : ScheduledTask App) :
  nth_error (tasks w) i = Some t ->
  time_ok (time_of_day t) = true ->
  schedulable (local_clock w (now_reads w)) = true ->
  mark_executed i w
  = (Returns tt,
     set_tasks (list_set (tasks w) i
                  (with_next_run t (next_after (time_of_day t)
                                      (local_clock w (now_reads w)))))
       (set_now_reads (S (now_reads w)) w)).
Proof.
  intros Hi Ht Hs. unfold mark_executed, _schedule_next.
  rewrite (bind_returns get _ w w w eq_refl). rewrite Hi.
  rewrite (bind_returns _ _ _ _ _ (next_occurrence_run w _ Ht Hs)).
  reflexivity.
Qed.

(** The guarded attempt of the poll loop: whatever happens inside, the task
    list and the local clock are as before. *)
Lemma attempt_frame w (task_name : string) (act : Action App) :
  let w' := snd (try_except (execute_with_logging task_name act ;;; ret tt)%py
                   [ (is_Exception, fun _ => ret tt) ] w) in
  tasks w' = tasks w /\ now_reads w' = now_reads w /\ local_clock w' = local_clock w.
Proof.
  pose proof (execute_frame w task_name act) as Hf.
  unfold try_except, bind, ret.
  destruct (execute_with_logging task_name act w) as [[res | e] w1];
    cbn [snd fst select_handler] in *; [exact Hf|].
  destruct (is_Exception (exc_cls e)); exact Hf.
Qed.

Lemma run_if_due_skips w (now : Z) (i : nat) (t : ScheduledTask App) :
  nth_error (tasks w) i = Some t ->
  (now >=? next_run t) = false ->
  run_if_due now i w = (Returns tt, w).
Proof.
  intros Hi Hd. unfold run_if_due.
  rewrite (bind_returns get _ w w w eq_refl). now rewrite Hi, Hd.
Qed.

(** After an attempt, whatever its outcome, the task is scheduled at the
    next occurrence of its time of day after the clock reading taken then. *)
Lemma run_if_due_marks w (now : Z) (i : nat) (t : ScheduledTask App) :
  nth_error (tasks w) i = Some t ->
  (now >=? next_run t) = true ->
  time_ok (time_of_day t) = true ->
  schedulable (local_clock w (now_reads w)) = true ->
  nth_error (tasks (snd (run_if_due now i w))) i
  = Some (with_next_run t (next_after (time_of_day t) (local_clock w (now_reads w)))).
Proof.
  intros Hi Hd Ht Hs. unfold run_if_due.
  rewrite (bind_returns get _ w w w eq_refl). rewrite Hi, Hd.
  unfold try_finally, try_finally_with.
  pose proof (attempt_frame w (name t) (action t)) as Hf.
  destruct (try_except _ _ w) as [r w1]. cbn [snd] in Hf.
  destruct Hf as (Htasks & Hreads & Hclock).
  rewrite (mark_executed_run w1 i t); rewrite ?Htasks, ?Hreads, ?Hclock; try assumption.
  cbn [snd tasks set_tasks]. now apply nth_error_list_set with (x := t).
Qed.

(** C3.  At registration and after every execution attempt, whatever its
    outcome, [next_run] is the next occurrence of [time_of_day] after the
    clock reading [now] taken then: tomorrow at that time when today's
    occurrence is at or before [now], today at that time otherwise; it is
    never in the past, and no occurrence of [time_of_day] lies between [now]
    and it. *)
Theorem next_run_is_next_occurrence w (time_of_day : Z) :
  let now := local_clock w (now_reads w) in
  let today := combine (date now) time_of_day in
  time_ok time_of_day = true ->
  schedulable now = true ->
  exists n,
    fst (next_occurrence time_of_day w) = Returns n
    /\ n = (if today <=? now then today + DAY else today)
    /\ now < n
    /\ (forall m, now < m -> m - date m * DAY = time_of_day -> n <= m)
    /\ (forall task_name act,
          fst (add_daily_task task_name time_of_day act w) = Returns tt
          /\ tasks (snd (add_daily_task task_name time_of_day act w))
             = (tasks w ++ [{| name := task_name; time_of_day := time_of_day;
                               action := act; next_run := n |}])%list)
    /\ (forall polled i t,
          nth_error (tasks w) i = Some t ->
          Orchestrator.time_of_day t = time_of_day ->
          (polled >=? next_run t) = true ->
          nth_error (tasks (snd (run_if_due polled i w))) i
          = Some (with_next_run t n)).
Proof.
  intros now today Ht Hs.
  exists (next_after time_of_day now).
  rewrite (next_occurrence_run w _ Ht Hs).
  destruct (next_after_spec _ _ Ht Hs) as (Hlt & _ & _ & _ & Hmin).
  split; [reflexivity|]. split; [reflexivity|]. split; [exact Hlt|].
  split; [exact Hmin|]. split.
  - intros task_name act. unfold add_daily_task.
    rewrite (bind_returns _ _ _ _ _ (next_occurrence_run w _ Ht Hs)).
    split; reflexivity.
  - intros polled i t Hi Htod Hd. subst time_of_day.
    now apply run_if_due_marks.
Qed.

End SchedulerRuns.

Lemma next_run_is_next_occurrence_witness :
  (exists n,
      fst (next_occurrence (9 * HOUR - Examples.MINUTE)
             (Examples.orch_world None (fun _ => Examples.NINE) []))
      = Returns n
      /\ n = Examples.T0 + DAY + 9 * HOUR - Examples.MINUTE
      /\ Examples.NINE < n)
  /\ (exists n,
      fst (next_occurrence (9 * HOUR + Examples.MINUTE)
             (Examples.orch_world None (fun _ => Examples.NINE) []))
      = Returns n
      /\ n = Examples.T0 + 9 * HOUR + Examples.MINUTE
      /\ Examples.NINE < n).
Proof.
  split.
  - destruct (next_run_is_next_occurrence
                (Examples.orch_world None (fun _ => Examples.NINE) [])
                (9 * HOUR - Examples.MINUTE) eq_refl eq_refl)
      as (n & H1 & H2 & H3 & _).
    exists n. split; [exact H1|]. split; [rewrite H2; reflexivity | exact H3].
  - destruct (next_run_is_next_occurrence
                (Examples.orch_world None (fun _ => Examples.NINE) [])
                (9 * HOUR + Examples.MINUTE) eq_refl eq_refl)
      as (n & H1 & H2 & H3 & _).
    exists n. split; [exact H1|]. split; [rewrite H2; reflexivity | exact H3].
Defined.

(** ** The command line *)

Section CommandLine.
Context {App : Type} (run_recalls run_claims : Action App).
Implicit Types w : world App.

Lemma read_history_logged w (task_name status : string) (start_time : option moment)
    (message : option string) (details : option (list (string * json)))
    (h : list json) :
  forallb well_formed h = true ->
  details_well_formed {| lc_task := task_name; lc_status := status;
                         lc_start := start_time; lc_message := message;
                         lc_details := details |} = true ->
  fst (_read_history (logged_state task_name status start_time message details h w))
  = Returns (h ++ [entry_of (utc_clock w (utc_reads w))
                     {| lc_task := task_name; lc_status := status;
                        lc_start := start_time; lc_message := message;
                        lc_details := details |}])%list.
Proof.
  intros Hwf Hd. apply read_history_written; [|reflexivity].
  rewrite forallb_app, Hwf. cbn [forallb andb].
  now rewrite (entry_well_formed _ _ Hd).
Qed.


End CommandLine.



(** ** One poll cycle *)

Section PollCycle.
Context {App : Type}.
Implicit Types w : world App.

Lemma run_if_due_run w (now : Z) (i : nat) (t : ScheduledTask App) (h : list json) :
  nth_error (tasks w) i = Some t ->
  due now t = true ->
  fst (_read_history w) = Returns h ->
  survivable (fst (action t (app w))) = true ->
  time_ok (time_of_day t) = true ->
  schedulable (local_clock w (now_reads w)) = true ->
  run_if_due now i w = (Returns tt, after_attempt w i t h).
Proof.
  intros Hi Hd Hh Hsv Ht Hs. unfold run_if_due.
  rewrite (bind_returns get _ w w w eq_refl). rewrite Hi.
  unfold due in Hd. rewrite Hd.
  unfold try_finally, try_finally_with, try_except, after_attempt, attempt_call.
  unfold bind at 1. rewrite (execute_run w (name t) (action t) h Hh).
  destruct (action t (app w)) as [r a]. cbn [fst snd] in *.
  destruct (locals_after r) as [[status message] details] eqn:El.
  cbn [lc_task lc_status lc_start lc_message lc_details].
  set (w2 := logged_state _ _ _ _ _ _ _).
  destruct r as [res | exc]; cbn [survivable] in Hsv.
  - cbv beta iota. unfold ret at 1.
    rewrite (mark_executed_run w2 i t Hi Ht Hs). reflexivity.
  - cbv beta iota. cbn [select_handler]. rewrite Hsv. unfold ret at 1.
    rewrite (mark_executed_run w2 i t Hi Ht Hs). reflexivity.
Qed.

Lemma after_attempt_history w (i : nat) (t : ScheduledTask App) (h : list json) :
  forallb well_formed h = true ->
  (forall d, fst (action t (app w)) = Returns (JDict d) -> well_formed (JDict d) = true) ->
  fst (_read_history (after_attempt w i t h))
  = Returns (h ++ [entry_of (utc_clock w (S (utc_reads w)))
                     (attempt_call (name t) (utc_clock w (utc_reads w))
                        (fst (action t (app w))))])%list
  /\ forallb well_formed
       (h ++ [entry_of (utc_clock w (S (utc_reads w)))
                (attempt_call (name t) (utc_clock w (utc_reads w))
                   (fst (action t (app w))))])%list = true.
Proof.
  intros Hwf Hd.
  set (c := attempt_call (name t) (utc_clock w (utc_reads w)) (fst (action t (app w)))).
  assert (Hc : details_well_formed c = true).
  { subst c. unfold attempt_call, locals_after, details_well_formed.
    destruct (fst (action t (app w))) as [[ | b | n | s | xs | d] | exc];
      try reflexivity.
    - exact (Hd d eq_refl).
    - destruct (is_Exception (exc_cls exc)); reflexivity. }
  assert (Hall : forallb well_formed
                   (h ++ [entry_of (utc_clock w (S (utc_reads w))) c])%list = true).
  { rewrite forallb_app, Hwf. cbn [forallb andb].
    now rewrite (entry_well_formed _ c Hc). }
  split; [|exact Hall].
  rewrite (read_history_file (after_attempt w i t h)
             (logged_state (lc_task c) (lc_status c) (lc_start c) (lc_message c)
                (lc_details c) h
                (set_app (snd (action t (app w))) (set_utc_reads (S (utc_reads w)) w)))
             eq_refl).
  apply read_history_written; [exact Hall|].
  destruct c as [ct cs cst cm cd]. reflexivity.
Qed.

(** The loop over the tasks computes [cycle_tasks], [cycle_entries] and
    [app_after]. *)
Lemma for_each_cycle (now : Z) (rest : list (ScheduledTask App)) :
  forall (done : list (ScheduledTask App)) w (h : list json),
    tasks w = (done ++ rest)%list ->
    fst (_read_history w) = Returns h ->
    forallb well_formed h = true ->
    Forall well_behaved rest ->
    (forall k, schedulable (local_clock w k) = true) ->
    exists w',
      for_each (seq (List.length done) (List.length rest)) (run_if_due now) w
      = (Returns tt, w')
      /\ tasks w' = (done ++ cycle_tasks (local_clock w) now rest (now_reads w))%list
      /\ fst (_read_history w')
         = Returns (h ++ cycle_entries (utc_clock w) now rest (utc_reads w) (app w))%list
      /\ app w' = app_after now rest (app w).
Proof.
  induction rest as [|t rest IH]; intros done w h Htasks Hh Hwf Hwb Hclock.
  - exists w. cbn [List.length seq for_each cycle_tasks cycle_entries app_after].
    rewrite !List.app_nil_r in *. auto.
  - inversion Hwb as [|? ? (Ht & Hact) Hrest]; subst.
    assert (Hi : nth_error (tasks w) (List.length done) = Some t).
    { rewrite Htasks, nth_error_app2, Nat.sub_diag by lia. reflexivity. }
    cbn [List.length seq for_each cycle_tasks cycle_entries app_after].
    destruct (due now t) eqn:Hd.
    + destruct (Hact (app w)) as [Hsv Hdetails].
      rewrite (bind_returns _ _ _ _ _
                 (run_if_due_run w now _ t h Hi Hd Hh Hsv Ht (Hclock _))).
      destruct (after_attempt_history w (List.length done) t h Hwf Hdetails)
        as [Hh1 Hwf1].
      set (t' := with_next_run t (next_after (time_of_day t)
                                    (local_clock w (now_reads w)))).
      set (w1 := after_attempt w (List.length done) t h) in *.
      assert (Htasks1 : tasks w1 = ((done ++ [t']) ++ rest)%list).
      { subst w1 t'. cbn [after_attempt tasks set_tasks].
        rewrite Htasks, list_set_middle. now rewrite <- List.app_assoc. }
      destruct (IH (done ++ [t'])%list w1 _ Htasks1 Hh1 Hwf1 Hrest Hclock)
        as (w' & Hrun & Ht' & Hh' & Ha').
      exists w'. rewrite List.length_app, Nat.add_1_r in Hrun.
      split; [exact Hrun|].
      rewrite <- !List.app_assoc in Ht', Hh'. cbn [List.app] in Ht', Hh'.
      auto.
    + rewrite (bind_returns _ _ _ _ _ (run_if_due_skips w now _ t Hi Hd)).
      destruct (IH (done ++ [t])%list w h) as (w' & Hrun & Ht' & Hh' & Ha');
        try assumption.
      * rewrite Htasks. now rewrite <- List.app_assoc.
      * exists w'. rewrite List.length_app, Nat.add_1_r in Hrun.
        split; [exact Hrun|].
        rewrite <- !List.app_assoc in Ht'. cbn [List.app] in Ht'. auto.
Qed.

End PollCycle.

Section PollCycleClaims.
Context {App : Type}.
Implicit Types w : world App.

Lemma poll_tasks_cycle w (h : list json) :
  fst (_read_history w) = Returns h ->
  forallb well_formed h = true ->
  Forall well_behaved (tasks w) ->
  (forall k, schedulable (local_clock w k) = true) ->
  exists w',
    poll_tasks w = (Returns tt, w')
    /\ tasks w' = cycle_tasks (local_clock w) (local_clock w (now_reads w))
                    (tasks w) (S (now_reads w))
    /\ fst (_read_history w')
       = Returns (h ++ cycle_entries (utc_clock w) (local_clock w (now_reads w))
                         (tasks w) (utc_reads w) (app w))%list.
Proof.
  intros Hh Hwf Hwb Hclock. unfold poll_tasks.
  rewrite (bind_returns datetime_now _ w (set_now_reads (S (now_reads w)) w)
             (local_clock w (now_reads w)) eq_refl).
  rewrite (bind_returns get _ _ _ _ eq_refl).
  assert (Hh0 : fst (_read_history (set_now_reads (S (now_reads w)) w)) = Returns h)
    by (rewrite <- Hh; now apply read_history_file).
  destruct (for_each_cycle (local_clock w (now_reads w)) (tasks w) []
              (set_now_reads (S (now_reads w)) w) h eq_refl Hh0 Hwf Hwb Hclock)
    as (w' & Hrun & Ht & Hh' & _).
  exists w'. auto.
Qed.

Lemma cycle_entries_app (utc : nat -> moment) (now : Z)
    (l1 l2 : list (ScheduledTask App)) :
  forall (k : nat) (a : App),
    cycle_entries utc now (l1 ++ l2) k a
    = (cycle_entries utc now l1 k a
       ++ cycle_entries utc now l2 (k + 2 * due_count now l1) (app_after now l1 a))%list.
Proof.
  unfold due_count.
  induction l1 as [|t l1 IH]; intros k a; cbn [List.app cycle_entries app_after filter].
  - cbn. now rewrite Nat.add_0_r.
  - destruct (due now t); cbn [List.app List.length].
    + rewrite IH. do 3 f_equal. lia.
    + apply IH.
Qed.

Lemma cycle_tasks_app (clock : nat -> Z) (now : Z) (l1 l2 : list (ScheduledTask App)) :
  forall k : nat,
    cycle_tasks clock now (l1 ++ l2) k
    = (cycle_tasks clock now l1 k
       ++ cycle_tasks clock now l2 (k + due_count now l1))%list.
Proof.
  unfold due_count.
  induction l1 as [|t l1 IH]; intros k; cbn [List.app cycle_tasks filter].
  - cbn. now rewrite Nat.add_0_r.
  - destruct (due now t); cbn [List.app List.length]; rewrite IH; do 3 f_equal; lia.
Qed.

Lemma cycle_tasks_length (clock : nat -> Z) (now : Z) (l : list (ScheduledTask App)) :
  forall k : nat, List.length (cycle_tasks clock now l k) = List.length l.
Proof.
  induction l as [|t l IH]; intros k; cbn [cycle_tasks]; [reflexivity|].
  destruct (due now t); cbn [List.length]; now rewrite IH.
Qed.

Lemma attempt_entry_task (m1 m2 : moment) (task_name : string) (r : outcome json) :
  exists d, entry_of m2 (attempt_call task_name m1 r) = JDict d
            /\ dict_get "task" d = Some (JStr task_name).
Proof.
  destruct (entry_of_records m2 (attempt_call task_name m1 r))
    as (d & Hd & Ht & _).
  exists d. split; [exact Hd|]. rewrite Ht. f_equal. f_equal.
  unfold attempt_call. now destruct (locals_after r) as [[? ?] ?].
Qed.

(** One entry for every due task, in the order of the task list. *)
Lemma cycle_entries_tasks (utc : nat -> moment) (now : Z) (l : list (ScheduledTask App)) :
  forall (k : nat) (a : App),
    Forall2 entry_of_task (filter (due now) l) (cycle_entries utc now l k a).
Proof.
  induction l as [|t l IH]; intros k a; cbn [filter cycle_entries]; [constructor|].
  destruct (due now t); [|apply IH].
  constructor; [|apply IH]. apply attempt_entry_task.
Qed.

End PollCycleClaims.

Section FailingTask.
Context {App : Type}.
Implicit Types w : world App.

(** C2 (amended).  In a poll cycle over well-behaved tasks, with a readable
    log, a due task whose action raises an exception derived from [Exception]
    gets exactly one entry with status "failed" and the exception's message
    (no [message] member when that message is empty); the exception does not
    leave the cycle, the loop goes on to sleep and to its next turn, and every
    other due task before and after it is executed and logged, once each and
    in order; the failing task's [next_run] is then the next occurrence of its
    time of day strictly after the clock reading [mark_executed] takes after
    the attempt (the reading that follows the cycle's own and those of the due
    tasks before it), so at that reading the task is no longer due, and no
    occurrence of its time of day lies between that reading and [next_run]. *)
Theorem failing_task_is_isolated w (before after : list (ScheduledTask App))
    (t : ScheduledTask App) (exc : pyexc) (h : list json) :
  let now := local_clock w (now_reads w) in
  tasks w = (before ++ t :: after)%list ->
  due now t = true ->
  fst (action t (app_after now before (app w))) = Raises exc ->
  fst (_read_history w) = Returns h ->
  Forall well_behaved (tasks w) ->
  (forall k, schedulable (local_clock w k) = true) ->
  fst (poll_tasks w) = Returns tt
  /\ (forall fuel,
        stop_event w = false ->
        poll_loop (S fuel) w = (sleep ;;; poll_loop fuel)%py (snd (poll_tasks w)))
  /\ (exists eb e ea d,
        fst (_read_history (snd (poll_tasks w))) = Returns (h ++ eb ++ e :: ea)%list
        /\ Forall2 entry_of_task (filter (due now) before) eb
        /\ Forall2 entry_of_task (filter (due now) after) ea
        /\ e = JDict d
        /\ dict_get "task" d = Some (JStr (name t))
        /\ dict_get "status" d = Some (JStr "failed")
        /\ dict_get "message" d
           = (if nonempty (exc_str exc) then Some (JStr (exc_str exc)) else None))
  /\ (let marked := local_clock w (S (now_reads w) + due_count now before) in
      let today := combine (date marked) (time_of_day t) in
      let n := if today <=? marked then today + DAY else today in
      nth_error (tasks (snd (poll_tasks w))) (List.length before)
      = Some (with_next_run t n)
      /\ marked < n
      /\ due marked (with_next_run t n) = false
      /\ (forall m, marked < m -> m - date m * DAY = time_of_day t -> n <= m)).
Proof.
  intros now Htasks Hd Hexc Hh Hwb Hclock.
  pose proof (read_history_well_formed w h Hh) as Hwf.
  destruct (poll_tasks_cycle w h Hh Hwf Hwb Hclock) as (w' & Hrun & Ht' & Hh').
  rewrite Hrun. cbn [fst snd]. fold now in Ht', Hh'.
  assert (Hwt : well_behaved t).
  { rewrite Htasks in Hwb. apply Forall_app in Hwb. destruct Hwb as [_ Hwb].
    now inversion Hwb. }
  destruct Hwt as [Htod Hact]. destruct (Hact (app_after now before (app w))) as [Hsv _].
  rewrite Hexc in Hsv. cbn [survivable] in Hsv.
  split; [reflexivity|]. split; [|split].
  - intros fuel Hstop. cbn [poll_loop].
    rewrite (bind_returns get _ w w w eq_refl), Hstop.
    now rewrite (bind_returns _ _ _ _ _ Hrun).
  - rewrite Htasks, cycle_entries_app in Hh'. cbn [cycle_entries] in Hh'.
    rewrite Hd, Hexc in Hh'.
    match type of Hh' with
    | _ = Returns (_ ++ ?eb ++ ?e :: ?ea)%list => exists eb, e, ea
    end.
    destruct (entry_of_records
                (utc_clock w (S (utc_reads w + 2 * due_count now before)))
                (attempt_call (name t)
                   (utc_clock w (utc_reads w + 2 * due_count now before))
                   (Raises exc)))
      as (d & Hed & Htask & Hstatus & Hmsg & _).
    exists d. split; [exact Hh'|].
    split; [apply cycle_entries_tasks|]. split; [apply cycle_entries_tasks|].
    split; [exact Hed|].
    unfold attempt_call, locals_after in Htask, Hstatus, Hmsg.
    rewrite Hsv in Htask, Hstatus, Hmsg.
    cbn [lc_task lc_status lc_message] in Htask, Hstatus, Hmsg. auto.
  - destruct (next_after_spec (time_of_day t)
                (local_clock w (S (now_reads w) + due_count now before))
                Htod (Hclock _)) as (Hlt & _ & _ & _ & Hmin).
    unfold next_after in Hlt, Hmin.
    split; [|split; [exact Hlt | split; [|exact Hmin]]].
    + rewrite Ht', Htasks, cycle_tasks_app. cbn [cycle_tasks]. rewrite Hd.
      rewrite nth_error_app2; rewrite cycle_tasks_length; [|lia].
      now rewrite Nat.sub_diag.
    + unfold due. cbn [next_run with_next_run]. rewrite Z.geb_leb.
      apply Z.leb_gt. exact Hlt.
Qed.

End FailingTask.

Lemma failing_task_is_isolated_witness :
  fst (poll_tasks Examples.world_nine) = Returns tt
  /\ exists eb e ea d,
       fst (_read_history (snd (poll_tasks Examples.world_nine)))
       = Returns ([] ++ eb ++ e :: ea)%list
       /\ Forall2 entry_of_task (@nil (ScheduledTask unit)) eb
       /\ Forall2 entry_of_task [Examples.fine_task] ea
       /\ e = JDict d
       /\ dict_get "task" d = Some (JStr "daily_recalls")
       /\ dict_get "status" d = Some (JStr "failed")
       /\ dict_get "message" d = Some (JStr "boom").
Proof.
  destruct (failing_task_is_isolated Examples.world_nine [] [Examples.fine_task]
              Examples.boom_task (Exc ValueError "boom" None) [])
    as (Hret & _ & Hlog & _); try reflexivity.
  - change (tasks Examples.world_nine)
      with [Examples.boom_task; Examples.fine_task].
    constructor; [|constructor; [|constructor]];
      (split; [reflexivity|]; intros []; split; [reflexivity|]; intros d H).
    + discriminate H.
    + injection H as <-. reflexivity.
  - split; [exact Hret | exact Hlog].
Defined.

(** C2, as stated, fails for a task that is caught up on: due since
    yesterday 09:00 and polled today at 08:00, the failing task is rescheduled
    for 09:00 of the very day of the attempt, and the poll at 09:00 runs it
    again: the log then holds two failed entries of the same day. *)
Lemma failing_task_retriggered_same_day_counterexample :
  (exists t,
      tasks Examples.world_catching_up = [t]
      /\ next_run t = Examples.NINE - DAY)
  /\ (exists t',
      nth_error (tasks (snd (poll_tasks Examples.world_catching_up))) 0 = Some t'
      /\ next_run t' = Examples.NINE
      /\ date (next_run t') = date (Examples.T0 + 8 * HOUR))
  /\ exists d1 d2,
       fst (_read_history
              (snd ((poll_tasks ;;; poll_tasks)%py Examples.world_catching_up)))
       = Returns [JDict d1; JDict d2]
       /\ dict_get "status" d1 = Some (JStr "failed")
       /\ dict_get "status" d2 = Some (JStr "failed").
Proof.
  split; [|split].
  - eexists. split; [vm_compute; reflexivity | vm_compute; reflexivity].
  - eexists. split; [vm_compute; reflexivity|]. split; vm_compute; reflexivity.
  - eexists. eexists. split; [vm_compute; reflexivity|]. split; reflexivity.
Qed.

(* ================================================================== *)
(** * Further properties of the orchestrator *)
(* ================================================================== *)

Import Loop.

(** ** What a poll cycle keeps *)

Section Frames.
Context {App : Type}.
Implicit Types w : world App.

Lemma controls_kept_refl w : controls_kept w w.
Proof. unfold controls_kept. tauto. Qed.

Lemma controls_kept_trans w1 w2 w3 :
  controls_kept w1 w2 -> controls_kept w2 w3 -> controls_kept w1 w3.
Proof.
  unfold controls_kept.
  intros (A1 & A2 & A3 & A4 & A5 & A6 & A7) (B1 & B2 & B3 & B4 & B5 & B6 & B7).
  repeat split; congruence.
Qed.

Lemma keeps_ret {A} (a : A) : keeps (ret (S := world App) a).
Proof. intros w. apply controls_kept_refl. Qed.

Lemma keeps_raise {A} (e : pyexc) : keeps (raise (S := world App) (A := A) e).
Proof. intros w. apply controls_kept_refl. Qed.

Lemma keeps_lift {A} (r : outcome A) : keeps (lift (S := world App) r).
Proof. intros w. apply controls_kept_refl. Qed.

Lemma keeps_get : keeps (get (S := world App)).
Proof. intros w. apply controls_kept_refl. Qed.

Lemma keeps_bind {A B} (m : M (world App) A) (k : A -> M (world App) B) :
  keeps m -> (forall a, keeps (k a)) -> keeps (bind m k).
Proof.
  intros Hm Hk w. unfold bind. specialize (Hm w).
  destruct (m w) as [[a | e] w1]; cbn [snd] in *; [|exact Hm].
  eapply controls_kept_trans; [exact Hm | apply Hk].
Qed.

Lemma keeps_try_except {A} (body : M (world App) A)
    (clauses : list ((exc_class -> bool) * (pyexc -> M (world App) A))) :
  keeps body ->
  Forall (fun c => forall e, keeps (snd c e)) clauses ->
  keeps (try_except body clauses).
Proof.
  intros Hb Hc w. unfold try_except. specialize (Hb w).
  destruct (body w) as [[a | e] w1]; cbn [snd] in *; [exact Hb|].
  assert (Hs : match select_handler clauses e with
               | Some h => keeps h
               | None => True
               end).
  { induction Hc as [|[catches handler] rest Hh _ IH]; cbn [select_handler]; [exact I|].
    destruct (catches (exc_cls e)); [apply Hh | exact IH]. }
  destruct (select_handler clauses e) as [h|]; [|exact Hb].
  eapply controls_kept_trans; [exact Hb | apply Hs].
Qed.

Lemma keeps_try_finally_with {A} (body : M (world App) A)
    (fin : outcome A -> M (world App) unit) :
  keeps body -> (forall r, keeps (fin r)) -> keeps (try_finally_with body fin).
Proof.
  intros Hb Hf w. unfold try_finally_with. specialize (Hb w).
  destruct (body w) as [r w1]. specialize (Hf r w1).
  destruct (fin r w1) as [[u | e] w2]; cbn [snd] in *;
    eapply controls_kept_trans; eassumption.
Qed.

Lemma keeps_utc_now : keeps (_utc_now (App := App)).
Proof. intros w. cbn. unfold controls_kept. tauto. Qed.

Lemma keeps_datetime_now : keeps (datetime_now (App := App)).
Proof. intros w. cbn. unfold controls_kept. tauto. Qed.

Lemma keeps_read_history : keeps (_read_history (App := App)).
Proof. intros w. rewrite read_history_state. apply controls_kept_refl. Qed.

Lemma keeps_log (task_name status : string) (start_time : option moment)
    (message : option string) (details : option (list (string * json))) :
  keeps (log (App := App) task_name status start_time message details).
Proof.
  unfold log. apply keeps_bind; [apply keeps_utc_now|]. intros completed_at.
  apply keeps_bind; [apply keeps_read_history|]. intros history w.
  cbn. unfold controls_kept. tauto.
Qed.

Lemma keeps_execute (task_name : string) (act : Action App) :
  keeps (execute_with_logging task_name act).
Proof.
  unfold execute_with_logging. apply keeps_bind; [apply keeps_utc_now|].
  intros start_time. apply keeps_try_finally_with.
  - intros w. unfold call_action. destruct (act (app w)) as [r a]. cbn.
    unfold controls_kept. tauto.
  - intros r. destruct (locals_after r) as [[status message] details].
    apply keeps_log.
Qed.

Lemma keeps_next_occurrence (time_of_day : Z) :
  keeps (next_occurrence (App := App) time_of_day).
Proof.
  unfold next_occurrence. apply keeps_bind; [apply keeps_datetime_now|].
  intros now. destruct (_ <=? _); [|apply keeps_ret].
  apply keeps_bind; [apply keeps_lift|]. intros one_day. apply keeps_lift.
Qed.

Lemma keeps_mark_executed (i : nat) : keeps (mark_executed (App := App) i).
Proof.
  unfold mark_executed, _schedule_next. apply keeps_bind; [apply keeps_get|].
  intros w0. destruct (nth_error (tasks w0) i) as [t|]; [|apply keeps_ret].
  apply keeps_bind; [apply keeps_next_occurrence|]. intros candidate w.
  cbn. unfold controls_kept. tauto.
Qed.

Lemma keeps_run_if_due (now : Z) (i : nat) : keeps (run_if_due (App := App) now i).
Proof.
  unfold run_if_due. apply keeps_bind; [apply keeps_get|]. intros w0.
  destruct (nth_error (tasks w0) i) as [task|]; [|apply keeps_ret].
  destruct (now >=? next_run task); [|apply keeps_ret].
  unfold try_finally. apply keeps_try_finally_with.
  - apply keeps_try_except.
    + apply keeps_bind; [apply keeps_execute|]. intros _. apply keeps_ret.
    + constructor; [|constructor]. intros e. apply keeps_ret.
  - intros _. apply keeps_mark_executed.
Qed.

Lemma keeps_for_each (indices : list nat) (body : nat -> M (world App) unit) :
  (forall i, keeps (body i)) -> keeps (for_each indices body).
Proof.
  intros Hb. induction indices as [|i rest IH]; cbn [for_each]; [apply keeps_ret|].
  apply keeps_bind; [apply Hb|]. intros _. exact IH.
Qed.

Lemma keeps_poll_tasks : keeps (poll_tasks (App := App)).
Proof.
  unfold poll_tasks. apply keeps_bind; [apply keeps_datetime_now|]. intros now.
  apply keeps_bind; [apply keeps_get|]. intros w0.
  apply keeps_for_each. intros i. apply keeps_run_if_due.
Qed.

End Frames.
(** ** A poll cycle over a log that cannot be read *)

Section Unlogged.
Context {App : Type}.
Implicit Types w : world App.

Lemma read_history_raises w (e : pyexc) :
  fst (_read_history w) = Raises e -> exc_cls e = ValueError.
Proof.
  unfold _read_history, bind, get, ret, raise. cbv beta iota.
  destruct (log_file w) as [content|]; [|discriminate].
  destruct (negb (nonempty (strip content))); [discriminate|].
  destruct (loads (strip content)) as [msg | [ | b | n | s | xs | d]];
    cbn; try discriminate; now intros [= <-].
Qed.

(** The attempt runs the action; the error of the logger then replaces
    whatever the action produced. *)
Lemma execute_unreadable w (task_name : string) (act : Action App) (e : pyexc) :
  fst (_read_history w) = Raises e ->
  exists w1,
    execute_with_logging task_name act w = (Raises e, w1)
    /\ app w1 = snd (act (app w)) /\ log_file w1 = log_file w
    /\ tasks w1 = tasks w /\ now_reads w1 = now_reads w
    /\ local_clock w1 = local_clock w.
Proof.
  intros Hh. unfold execute_with_logging.
  rewrite (bind_returns _utc_now _ w (set_utc_reads (S (utc_reads w)) w)
             (utc_clock w (utc_reads w)) eq_refl).
  unfold try_finally_with, call_action. cbn [app set_utc_reads].
  destruct (act (app w)) as [r a]. cbn [fst snd].
  destruct (locals_after r) as [[status message] details].
  rewrite (log_raises _ task_name status _ message details e);
    [|rewrite <- Hh; now apply read_history_file].
  eexists. split; [reflexivity|]. cbn. auto.
Qed.

Lemma run_if_due_unreadable w (now : Z) (i : nat) (t : ScheduledTask App) (e : pyexc) :
  nth_error (tasks w) i = Some t ->
  due now t = true ->
  fst (_read_history w) = Raises e ->
  time_ok (time_of_day t) = true ->
  schedulable (local_clock w (now_reads w)) = true ->
  exists w',
    run_if_due now i w = (Returns tt, w')
    /\ tasks w' = list_set (tasks w) i
                    (with_next_run t (next_after (time_of_day t)
                                        (local_clock w (now_reads w))))
    /\ now_reads w' = S (now_reads w) /\ local_clock w' = local_clock w
    /\ app w' = snd (action t (app w)) /\ log_file w' = log_file w.
Proof.
  intros Hi Hd Hh Ht Hs. unfold run_if_due.
  rewrite (bind_returns get _ w w w eq_refl). rewrite Hi.
  unfold due in Hd. rewrite Hd.
  destruct (execute_unreadable w (name t) (action t) e Hh)
    as (w1 & Hrun & Happ & Hfile & Htasks & Hreads & Hclock).
  unfold try_finally, try_finally_with, try_except.
  unfold bind at 1. rewrite Hrun. cbn [select_handler].
  rewrite (read_history_raises w e Hh). cbn [is_Exception]. unfold ret at 1.
  rewrite (mark_executed_run w1 i t); rewrite ?Htasks, ?Hreads, ?Hclock; try assumption.
  eexists. split; [reflexivity|]. cbn. auto.
Qed.

Lemma for_each_unlogged (now : Z) (rest : list (ScheduledTask App)) :
  forall (done : list (ScheduledTask App)) w (e : pyexc),
    tasks w = (done ++ rest)%list ->
    fst (_read_history w) = Raises e ->
    Forall (fun t => time_ok (time_of_day t) = true) rest ->
    (forall k, schedulable (local_clock w k) = true) ->
    exists w',
      for_each (seq (List.length done) (List.length rest)) (run_if_due now) w
      = (Returns tt, w')
      /\ tasks w' = (done ++ cycle_tasks (local_clock w) now rest (now_reads w))%list
      /\ app w' = app_after now rest (app w)
      /\ log_file w' = log_file w.
Proof.
  induction rest as [|t rest IH]; intros done w e Htasks Hh Hok Hclock.
  - exists w. cbn [List.length seq for_each cycle_tasks app_after].
    rewrite !List.app_nil_r in *. auto.
  - inversion Hok as [|? ? Ht Hrest]; subst.
    assert (Hi : nth_error (tasks w) (List.length done) = Some t).
    { rewrite Htasks, nth_error_app2, Nat.sub_diag by lia. reflexivity. }
    cbn [List.length seq for_each cycle_tasks app_after].
    destruct (due now t) eqn:Hd.
    + destruct (run_if_due_unreadable w now _ t e Hi Hd Hh Ht (Hclock _))
        as (w1 & Hrun & Ht1 & Hreads1 & Hclock1 & Happ1 & Hfile1).
      rewrite (bind_returns _ _ _ _ _ Hrun).
      set (t' := with_next_run t (next_after (time_of_day t)
                                    (local_clock w (now_reads w)))) in *.
      assert (Htasks1 : tasks w1 = ((done ++ [t']) ++ rest)%list).
      { rewrite Ht1, Htasks, list_set_middle. now rewrite <- List.app_assoc. }
      assert (Hh1 : fst (_read_history w1) = Raises e)
        by (rewrite <- Hh; now apply read_history_file).
      assert (Hc1 : forall k, schedulable (local_clock w1 k) = true)
        by (intros k; rewrite Hclock1; apply Hclock).
      destruct (IH (done ++ [t'])%list w1 e Htasks1 Hh1 Hrest Hc1)
        as (w' & Hrun' & Ht' & Ha' & Hf').
      exists w'. rewrite List.length_app, Nat.add_1_r in Hrun'.
      split; [exact Hrun'|].
      rewrite <- List.app_assoc in Ht'. cbn [List.app] in Ht'.
      rewrite Hclock1, Hreads1 in Ht'. rewrite Happ1 in Ha'.
      split; [exact Ht'|]. split; [exact Ha' | congruence].
    + rewrite (bind_returns _ _ _ _ _ (run_if_due_skips w now _ t Hi Hd)).
      destruct (IH (done ++ [t])%list w e) as (w' & Hrun' & Ht' & Ha' & Hf');
        try assumption.
      * rewrite Htasks. now rewrite <- List.app_assoc.
      * exists w'. rewrite List.length_app, Nat.add_1_r in Hrun'.
        split; [exact Hrun'|].
        rewrite <- List.app_assoc in Ht'. cbn [List.app] in Ht'. auto.
Qed.

Lemma well_behaved_time_ok (ts : list (ScheduledTask App)) :
  Forall well_behaved ts -> Forall (fun t => time_ok (time_of_day t) = true) ts.
Proof. apply Forall_impl. now intros t [H _]. Qed.

(** Whatever the state of the log, a cycle over well-behaved tasks returns,
    having run and rescheduled every due task. *)
Lemma poll_tasks_total w :
  Forall well_behaved (tasks w) ->
  (forall k, schedulable (local_clock w k) = true) ->
  exists w',
    poll_tasks w = (Returns tt, w')
    /\ tasks w' = cycle_tasks (local_clock w) (local_clock w (now_reads w))
                    (tasks w) (S (now_reads w))
    /\ app w' = app_after (local_clock w (now_reads w)) (tasks w) (app w)
    /\ (forall h, fst (_read_history w) = Returns h ->
          fst (_read_history w')
          = Returns (h ++ cycle_entries (utc_clock w) (local_clock w (now_reads w))
                            (tasks w) (utc_reads w) (app w))%list)
    /\ (forall e, fst (_read_history w) = Raises e -> log_file w' = log_file w).
Proof.
  intros Hwb Hclock. unfold poll_tasks.
  rewrite (bind_returns datetime_now _ w (set_now_reads (S (now_reads w)) w)
             (local_clock w (now_reads w)) eq_refl).
  rewrite (bind_returns get _ _ _ _ eq_refl).
  set (w0 := set_now_reads (S (now_reads w)) w).
  assert (Hfile : fst (_read_history w0) = fst (_read_history w))
    by now apply read_history_file.
  destruct (fst (_read_history w)) as [h | e] eqn:Hh.
  - pose proof (read_history_well_formed w h Hh) as Hwf.
    destruct (for_each_cycle (local_clock w (now_reads w)) (tasks w) [] w0 h
                eq_refl Hfile Hwf Hwb Hclock)
      as (w' & Hrun & Ht & Hh' & Ha).
    exists w'. split; [exact Hrun|]. split; [exact Ht|]. split; [exact Ha|].
    split; [now intros h' [= <-] | discriminate].
  - destruct (for_each_unlogged (local_clock w (now_reads w)) (tasks w) [] w0 e
                eq_refl Hfile (well_behaved_time_ok _ Hwb) Hclock)
      as (w' & Hrun & Ht & Ha & Hf).
    exists w'. split; [exact Hrun|]. split; [exact Ht|]. split; [exact Ha|].
    split; [discriminate | now intros e' _].
Qed.

End Unlogged.
(** ** How the loop ends *)

Section LoopEnds.
Context {App : Type}.
Implicit Types w : world App.

Lemma cycle_tasks_names (clock : nat -> Z) (now : Z) (ts : list (ScheduledTask App)) :
  forall k, map name (cycle_tasks clock now ts k) = map name ts.
Proof.
  induction ts as [|t ts IH]; intros k; cbn [cycle_tasks map]; [reflexivity|].
  destruct (due now t); cbn [map with_next_run name]; now rewrite IH.
Qed.

Lemma cycle_tasks_well_behaved (clock : nat -> Z) (now : Z)
    (ts : list (ScheduledTask App)) :
  Forall well_behaved ts -> forall k, Forall well_behaved (cycle_tasks clock now ts k).
Proof.
  induction 1 as [|t ts Ht _ IH]; intros k; cbn [cycle_tasks]; [constructor|].
  destruct (due now t); constructor; try apply IH; exact Ht.
Qed.

Lemma cycle_entries_names (utc : nat -> moment) (now : Z) (ts : list (ScheduledTask App)) :
  forall (k : nat) (a : App),
    Forall (entry_names (map name ts)) (cycle_entries utc now ts k a).
Proof.
  induction ts as [|t ts IH]; intros k a; cbn [cycle_entries map]; [constructor|].
  assert (Hweak : forall l, Forall (entry_names (map name ts)) l ->
                            Forall (entry_names (name t :: map name ts)) l).
  { intros l. apply Forall_impl. intros e (d & nm & Hd & Hn & Hin).
    exists d, nm. split; [exact Hd|]. split; [exact Hn | now right]. }
  destruct (due now t); [|apply Hweak, IH].
  constructor; [|apply Hweak, IH].
  destruct (attempt_entry_task (utc k) (utc (S k)) (name t) (fst (action t a)))
    as (d & Hd & Hn).
  exists d, (name t). split; [exact Hd|]. split; [exact Hn | now left].
Qed.

(** One turn of the loop: the cycle, then the sleep. *)
Lemma poll_loop_turn w (fuel : nat) :
  stop_event w = false ->
  Forall well_behaved (tasks w) ->
  (forall k, schedulable (local_clock w k) = true) ->
  exists w1,
    poll_tasks w = (Returns tt, w1)
    /\ poll_loop (S fuel) w = poll_loop fuel (snd (sleep w1))
    /\ controls_kept w w1
    /\ map name (tasks w1) = map name (tasks w)
    /\ Forall well_behaved (tasks w1)
    /\ (forall h, fst (_read_history w) = Returns h ->
          exists mid,
            fst (_read_history w1) = Returns (h ++ mid)%list
            /\ Forall (entry_names (map name (tasks w))) mid)
    /\ (forall e, fst (_read_history w) = Raises e -> log_file w1 = log_file w).
Proof.
  intros Hstop Hwb Hclock.
  destruct (poll_tasks_total w Hwb Hclock) as (w1 & Hrun & Ht & _ & Hh & Hf).
  exists w1. split; [exact Hrun|]. split; [|split; [|split; [|split; [|split]]]].
  - cbn [poll_loop]. rewrite (bind_returns get _ w w w eq_refl), Hstop.
    rewrite (bind_returns _ _ _ _ _ Hrun).
    now rewrite (bind_returns sleep _ w1 (snd (sleep w1)) tt) by reflexivity.
  - pose proof (keeps_poll_tasks w) as Hk. now rewrite Hrun in Hk.
  - rewrite Ht. apply cycle_tasks_names.
  - rewrite Ht. now apply cycle_tasks_well_behaved.
  - intros h Hr. eexists. split; [exact (Hh h Hr)|]. apply cycle_entries_names.
  - exact Hf.
Qed.

(** On the main thread the loop ends with the sleep during which the first
    termination signal arrives. *)
Lemma poll_loop_stops (n : nat) :
  forall w (fuel : nat),
    stop_event w = false ->
    handlers_installed w = true ->
    first_signal w n ->
    Forall well_behaved (tasks w) ->
    (forall k, schedulable (local_clock w k) = true) ->
    (n + 2 <= fuel)%nat ->
    exists w',
      poll_loop fuel w = (Returns true, w')
      /\ stop_event w' = true
      /\ sleeps w' = (sleeps w + S n)%nat
      /\ utc_clock w' = utc_clock w
      /\ (forall h, fst (_read_history w) = Returns h ->
            exists mid,
              fst (_read_history w') = Returns (h ++ mid)%list
              /\ Forall (entry_names (map name (tasks w))) mid)
      /\ (forall e, fst (_read_history w) = Raises e -> log_file w' = log_file w).
Proof.
  induction n as [|n IH]; intros w fuel Hstop Hinst [Hquiet Hsig] Hwb Hclock Hfuel.
  - destruct fuel as [|[|fuel]]; try lia.
    destruct (poll_loop_turn w (S fuel) Hstop Hwb Hclock)
      as (w1 & _ & Hloop & Hk & _ & _ & Hh & Hf).
    destruct Hk as (K1 & K2 & K3 & K4 & K5 & K6 & K7).
    rewrite Hloop. cbn [poll_loop sleep modify snd].
    rewrite (bind_returns get _ _ _ _ eq_refl).
    cbn [stop_event set_sleeps set_stop_event].
    rewrite K1, K2, K3, K4, Hstop, Hinst. rewrite Nat.add_0_r in Hsig. rewrite Hsig.
    cbn [orb andb]. eexists. split; [reflexivity|].
    cbn [stop_event sleeps utc_clock set_sleeps set_stop_event].
    split; [reflexivity|]. split; [lia|]. split; [exact K7|]. split.
    + intros h Hr. destruct (Hh h Hr) as (mid & Hr1 & Hm). exists mid.
      split; [|exact Hm]. rewrite <- Hr1. now apply read_history_file.
    + exact Hf.
  - destruct fuel as [|fuel]; try lia.
    destruct (poll_loop_turn w fuel Hstop Hwb Hclock)
      as (w1 & _ & Hloop & Hk & Hnames & Hwb1 & Hh & Hf).
    destruct Hk as (K1 & K2 & K3 & K4 & K5 & K6 & K7).
    rewrite Hloop.
    set (w2 := snd (sleep w1)).
    assert (Hstop2 : stop_event w2 = false).
    { subst w2. cbn. rewrite K1, K2, K3, K4, Hstop, Hinst.
      specialize (Hquiet 0%nat ltac:(lia)). rewrite Nat.add_0_r in Hquiet.
      now rewrite Hquiet. }
    assert (Hinst2 : handlers_installed w2 = true) by (subst w2; cbn; congruence).
    assert (Hsig2 : signals w2 = signals w) by (subst w2; cbn; congruence).
    assert (Hsl2 : sleeps w2 = S (sleeps w)) by (subst w2; cbn; congruence).
    assert (Htasks2 : tasks w2 = tasks w1) by reflexivity.
    assert (Hclock2 : local_clock w2 = local_clock w) by (subst w2; cbn; congruence).
    assert (Hutc2 : utc_clock w2 = utc_clock w) by (subst w2; cbn; congruence).
    assert (Hfile2 : log_file w2 = log_file w1) by reflexivity.
    destruct (IH w2 fuel Hstop2 Hinst2) as (w' & Hrun & Hs' & Hsl' & Hutc' & Hh' & Hf').
    + unfold first_signal. rewrite Hsig2, Hsl2. split.
      * intros k Hk. replace (S (sleeps w) + k)%nat with (sleeps w + S k)%nat by lia.
        apply Hquiet. lia.
      * now replace (S (sleeps w) + n)%nat with (sleeps w + S n)%nat by lia.
    + now rewrite Htasks2.
    + intros k. rewrite Hclock2. apply Hclock.
    + lia.
    + exists w'. split; [exact Hrun|]. split; [exact Hs'|].
      split; [rewrite Hsl', Hsl2; lia|].
      split; [now rewrite Hutc', Hutc2|]. split.
      * intros h Hr. destruct (Hh h Hr) as (mid1 & Hr1 & Hm1).
        destruct (Hh' (h ++ mid1)%list) as (mid2 & Hr2 & Hm2).
        { rewrite <- Hr1. now apply read_history_file. }
        exists (mid1 ++ mid2)%list. rewrite List.app_assoc. split; [exact Hr2|].
        apply Forall_app. split; [exact Hm1|].
        now rewrite Htasks2, Hnames in Hm2.
      * intros e Hr. rewrite (Hf' e); [rewrite Hfile2; now apply (Hf e)|].
        rewrite <- Hr. apply read_history_file. rewrite Hfile2. now apply (Hf e).
Qed.

(** Off the main thread no handler is installed, and the loop goes on. *)
Lemma poll_loop_runs (fuel : nat) :
  forall w,
    stop_event w = false ->
    handlers_installed w = false ->
    Forall well_behaved (tasks w) ->
    (forall k, schedulable (local_clock w k) = true) ->
    exists w',
      poll_loop fuel w = (Returns false, w')
      /\ stop_event w' = false
      /\ sleeps w' = (sleeps w + fuel)%nat.
Proof.
  induction fuel as [|fuel IH]; intros w Hstop Hinst Hwb Hclock.
  - exists w. cbn. split; [reflexivity|]. split; [exact Hstop | lia].
  - destruct (poll_loop_turn w fuel Hstop Hwb Hclock)
      as (w1 & _ & Hloop & Hk & _ & Hwb1 & _ & _).
    destruct Hk as (K1 & K2 & K3 & K4 & K5 & K6 & K7).
    rewrite Hloop. set (w2 := snd (sleep w1)).
    destruct (IH w2) as (w' & Hrun & Hs' & Hsl').
    + subst w2. cbn. now rewrite K1, K2, Hstop, Hinst.
    + subst w2. cbn. congruence.
    + exact Hwb1.
    + intros k. subst w2. cbn. rewrite K6. apply Hclock.
    + exists w'. split; [exact Hrun|]. split; [exact Hs'|].
      rewrite Hsl'. subst w2. cbn. rewrite K4. lia.
Qed.

End LoopEnds.
(** ** Entries and attempts *)

Section Entries.
Context {App : Type}.
Implicit Types w : world App.

Lemma entry_timestamps (t : moment) (c : log_call) :
  exists d,
    entry_of t c = JDict d
    /\ dict_get "started_at" d
       = Some (JStr (_format_timestamp (match lc_start c with Some s => s | None => t end)))
    /\ dict_get "completed_at" d = Some (JStr (_format_timestamp t)).
Proof.
  unfold entry_of, log_entry. eexists. split; [reflexivity|].
  destruct c as [task status start [m|] [d|]]; cbn [lc_details lc_message lc_start];
    try destruct (nonempty m); cbn; split; reflexivity.
Qed.

Lemma attempt_details_well_formed (task_name : string) (start : moment) (r : outcome json) :
  (forall d, r = Returns (JDict d) -> well_formed (JDict d) = true) ->
  details_well_formed (attempt_call task_name start r) = true.
Proof.
  intros Hd. unfold attempt_call, locals_after, details_well_formed.
  destruct r as [[ | b | n | s | xs | d] | exc]; try reflexivity.
  - exact (Hd d eq_refl).
  - destruct (is_Exception (exc_cls exc)); reflexivity.
Qed.

(** With a readable log an attempt hands on what the action produced and
    appends the entry of its closing call to [log]. *)
Lemma attempt_logged w (task_name : string) (act : Action App) (h : list json) :
  fst (_read_history w) = Returns h ->
  (forall d, fst (act (app w)) = Returns (JDict d) -> well_formed (JDict d) = true) ->
  fst (execute_with_logging task_name act w) = fst (act (app w))
  /\ app (snd (execute_with_logging task_name act w)) = snd (act (app w))
  /\ fst (_read_history (snd (execute_with_logging task_name act w)))
     = Returns (h ++ [entry_of (utc_clock w (S (utc_reads w)))
                        (attempt_call task_name (utc_clock w (utc_reads w))
                           (fst (act (app w))))])%list.
Proof.
  intros Hh Hd.
  pose proof (read_history_well_formed w h Hh) as Hwf.
  pose proof (attempt_details_well_formed task_name (utc_clock w (utc_reads w))
                (fst (act (app w))) Hd) as Hc.
  rewrite (execute_run w task_name act h Hh).
  unfold attempt_call in *.
  destruct (locals_after (fst (act (app w)))) as [[status message] details].
  cbn [fst snd]. split; [reflexivity|]. split; [reflexivity|].
  now apply read_history_logged.
Qed.

End Entries.

(** ** The task log and the attempts: further properties *)

Section LogProperties.
Context {App : Type}.
Implicit Types w : world App.


(** X2.  With a readable log, an attempt whose action returns hands the result
    on unchanged and appends one entry with status "success", no message,
    the two clock readings as [started_at] and [completed_at], and a
    [details] member exactly when the result is a dict. *)
Theorem successful_attempt_entry w (task_name : string) (act : Action App)
    (h : list json) (result : json) :
  let run := execute_with_logging task_name act w in
  fst (_read_history w) = Returns h ->
  fst (act (app w)) = Returns result ->
  well_formed result = true ->
  exists d,
    fst run = Returns result
    /\ app (snd run) = snd (act (app w))
    /\ fst (_read_history (snd run)) = Returns (h ++ [JDict d])%list
    /\ dict_get "task" d = Some (JStr task_name)
    /\ dict_get "status" d = Some (JStr "success")
    /\ dict_get "message" d = None
    /\ dict_get "details" d
       = match result with JDict r => Some (JDict r) | _ => None end
    /\ dict_get "started_at" d
       = Some (JStr (_format_timestamp (utc_clock w (utc_reads w))))
    /\ dict_get "completed_at" d
       = Some (JStr (_format_timestamp (utc_clock w (S (utc_reads w))))).
Proof.
  intros run Hh Hr Hwf. subst run.
  destruct (attempt_logged w task_name act h Hh) as (H1 & H2 & H3).
  { intros d Hd. rewrite Hr in Hd. injection Hd as ->. exact Hwf. }
  rewrite Hr in H1, H3.
  set (c := attempt_call task_name (utc_clock w (utc_reads w)) (Returns result)) in *.
  destruct (entry_of_records (utc_clock w (S (utc_reads w))) c)
    as (d & Hed & Htask & Hstatus & Hmsg & Hdet).
  destruct (entry_timestamps (utc_clock w (S (utc_reads w))) c)
    as (d' & Hed' & Hstart & Hdone).
  rewrite Hed in Hed'. injection Hed' as <-.
  exists d. rewrite <- Hed. split; [exact H1|]. split; [exact H2|].
  split; [exact H3|].
  subst c. unfold attempt_call, locals_after in *.
  destruct result; cbn [lc_task lc_status lc_message lc_details lc_start option_map] in *;
    auto 10.
Qed.

(** X3.  An exception outside [Exception] (a [KeyboardInterrupt], a
    [SystemExit]) raised by the action is raised again by the attempt, and
    the entry the attempt appends says "success", without a message. *)
Theorem base_exception_logged_as_success w (task_name : string) (act : Action App)
    (h : list json) (exc : pyexc) :
  let run := execute_with_logging task_name act w in
  fst (_read_history w) = Returns h ->
  fst (act (app w)) = Raises exc ->
  is_Exception (exc_cls exc) = false ->
  exists d,
    fst run = Raises exc
    /\ fst (_read_history (snd run)) = Returns (h ++ [JDict d])%list
    /\ dict_get "task" d = Some (JStr task_name)
    /\ dict_get "status" d = Some (JStr "success")
    /\ dict_get "message" d = None
    /\ dict_get "details" d = None.
Proof.
  intros run Hh Hr Hexc. subst run.
  destruct (attempt_logged w task_name act h Hh) as (H1 & _ & H3).
  { intros d Hd. rewrite Hr in Hd. discriminate. }
  rewrite Hr in H1, H3.
  set (c := attempt_call task_name (utc_clock w (utc_reads w)) (Raises exc)) in *.
  destruct (entry_of_records (utc_clock w (S (utc_reads w))) c)
    as (d & Hed & Htask & Hstatus & Hmsg & Hdet).
  exists d. rewrite <- Hed. split; [exact H1|]. split; [exact H3|].
  subst c. unfold attempt_call, locals_after in *. rewrite Hexc in *.
  cbn [lc_task lc_status lc_message lc_details option_map] in *. auto.
Qed.

(** X4.  When the log is corrupt (its text, more than white space, is not
    valid JSON or is not an array), an attempt still runs its action, and then
    raises the logger's [ValueError] in place of whatever the action returned
    or raised; the file is left as it is. *)
Theorem unreadable_log_replaces_outcome w (task_name : string) (act : Action App) :
  let run := execute_with_logging task_name act w in
  corrupt_log w = true ->
  (exists e, fst run = Raises e /\ exc_cls e = ValueError)
  /\ app (snd run) = snd (act (app w))
  /\ log_file (snd run) = log_file w.
Proof.
  intros run Hc. subst run.
  destruct (read_history_corrupt w Hc) as (e & Hh & Hcls).
  destruct (execute_unreadable w task_name act e Hh) as (w1 & Hrun & Happ & Hfile & _).
  rewrite Hrun. cbn [fst snd].
  split; [now exists e | auto].
Qed.

(** X5.  A poll cycle over a corrupt log returns all the same: every due task
    is run and rescheduled, whatever its action returns or raises, and nothing
    is written. *)
Theorem unreadable_log_silences_cycle w :
  let now := local_clock w (now_reads w) in
  corrupt_log w = true ->
  Forall (fun t => time_ok (time_of_day t) = true) (tasks w) ->
  (forall k, schedulable (local_clock w k) = true) ->
  fst (poll_tasks w) = Returns tt
  /\ app (snd (poll_tasks w)) = app_after now (tasks w) (app w)
  /\ tasks (snd (poll_tasks w))
     = cycle_tasks (local_clock w) now (tasks w) (S (now_reads w))
  /\ log_file (snd (poll_tasks w)) = log_file w.
Proof.
  intros now Hc Hok Hclock.
  destruct (read_history_corrupt w Hc) as (e & Hh & _). unfold poll_tasks.
  rewrite (bind_returns datetime_now _ w (set_now_reads (S (now_reads w)) w)
             (local_clock w (now_reads w)) eq_refl).
  rewrite (bind_returns get _ _ _ _ eq_refl).
  destruct (for_each_unlogged now (tasks w) [] (set_now_reads (S (now_reads w)) w) e
              eq_refl) as (w' & Hrun & Ht & Ha & Hf); try assumption.
  { rewrite <- Hh. now apply read_history_file. }
  repeat match goal with
         | |- context [for_each ?l ?b ?x] =>
             replace (for_each l b x) with (@Returns unit tt, w')
               by (symmetry; exact Hrun)
         end.
  cbn [fst snd]. auto.
Qed.

End LogProperties.
(** ** Starting and stopping the scheduler *)

Section StartProperties.
Context {App : Type}.
Implicit Types w : world App.

Lemma start_stops w (n fuel : nat) :
  stop_event w = false ->
  first_signal w n ->
  Forall well_behaved (tasks w) ->
  (forall k, schedulable (local_clock w k) = true) ->
  (n + 2 <= fuel)%nat ->
  exists w',
    start true fuel w = (Returns (Some tt), w')
    /\ stop_event w' = true
    /\ sleeps w' = (sleeps w + S n)%nat
    /\ utc_clock w' = utc_clock w
    /\ (forall h, fst (_read_history w) = Returns h ->
          exists mid,
            fst (_read_history w') = Returns (h ++ mid)%list
            /\ Forall (entry_names (map name (tasks w))) mid)
    /\ (forall e, fst (_read_history w) = Raises e -> log_file w' = log_file w).
Proof.
  intros Hstop Hsig Hwb Hclock Hfuel.
  destruct (poll_loop_stops n (set_handlers_installed true w) fuel Hstop eq_refl
              Hsig Hwb Hclock Hfuel)
    as (w1 & Hrun & Hs1 & Hsl1 & Hutc1 & Hh1 & Hf1).
  exists (set_stop_event true w1). unfold start.
  rewrite (bind_returns (modify (set_handlers_installed true)) _ w
             (set_handlers_installed true w) tt eq_refl).
  unfold try_finally_with, bind. rewrite Hrun. cbn [modify].
  split; [reflexivity|]. split; [reflexivity|]. split; [exact Hsl1|].
  split; [exact Hutc1|]. split.
  - intros h Hr. destruct (Hh1 h) as (mid & Hr1 & Hm).
    { rewrite <- Hr. now apply read_history_file. }
    exists mid. split; [|exact Hm]. rewrite <- Hr1. now apply read_history_file.
  - intros e Hr. cbn [log_file set_stop_event]. apply (Hf1 e).
    rewrite <- Hr. now apply read_history_file.
Qed.

(** X6.  On the main thread [start] installs the signal handlers, and the
    loop ends with the sleep during which the first termination signal
    arrives: [start] returns after that many sleeps, with the stop flag set.
    A scheduler that has stopped stays stopped: a further [start] returns at
    once, without polling, sleeping or reading a clock. *)
Theorem signal_stops_scheduler w (n fuel : nat) :
  let stopped := snd (start true fuel w) in
  stop_event w = false ->
  first_signal w n ->
  Forall well_behaved (tasks w) ->
  (forall k, schedulable (local_clock w k) = true) ->
  (n + 2 <= fuel)%nat ->
  fst (start true fuel w) = Returns (Some tt)
  /\ stop_event stopped = true
  /\ sleeps stopped = (sleeps w + S n)%nat
  /\ forall (on_main_thread : bool) (fuel' : nat),
       (1 <= fuel')%nat ->
       fst (start on_main_thread fuel' stopped) = Returns (Some tt)
       /\ sleeps (snd (start on_main_thread fuel' stopped)) = sleeps stopped
       /\ now_reads (snd (start on_main_thread fuel' stopped)) = now_reads stopped
       /\ app (snd (start on_main_thread fuel' stopped)) = app stopped
       /\ log_file (snd (start on_main_thread fuel' stopped)) = log_file stopped.
Proof.
  intros stopped Hstop Hsig Hwb Hclock Hfuel.
  destruct (start_stops w n fuel Hstop Hsig Hwb Hclock Hfuel)
    as (w' & Hrun & Hs & Hsl & _).
  subst stopped. rewrite Hrun. cbn [fst snd].
  split; [reflexivity|]. split; [exact Hs|]. split; [exact Hsl|].
  intros on_main_thread [|fuel'] Hf; [lia|].
  unfold start, try_finally_with, bind, modify, ret, get.
  destruct on_main_thread; cbn [poll_loop bind get stop_event set_handlers_installed];
    unfold bind, get, ret; cbn [stop_event set_handlers_installed];
    rewrite Hs; cbn; auto.
Qed.

(** X7.  Off the main thread [start] installs no handler, so no signal sets
    the stop flag: over well-behaved tasks the loop is still running after
    any number of cycles, having slept once per cycle. *)
Theorem scheduler_off_main_thread_runs_on w (fuel : nat) :
  stop_event w = false ->
  handlers_installed w = false ->
  Forall well_behaved (tasks w) ->
  (forall k, schedulable (local_clock w k) = true) ->
  fst (start false fuel w) = Returns None
  /\ stop_event (snd (start false fuel w)) = false
  /\ sleeps (snd (start false fuel w)) = (sleeps w + fuel)%nat.
Proof.
  intros Hstop Hinst Hwb Hclock.
  destruct (poll_loop_runs fuel w Hstop Hinst Hwb Hclock) as (w' & Hrun & Hs & Hsl).
  unfold start.
  rewrite (bind_returns (ret tt) _ w w tt eq_refl).
  unfold try_finally_with, bind. rewrite Hrun. cbn. auto.
Qed.

End StartProperties.

Section RunScheduler.
Context {App : Type} (run_recalls run_claims : Action App).
Implicit Types w : world App.

Lemma add_daily_task_run w (task_name : string) (run_time : Z) (act : Action App) :
  time_ok run_time = true ->
  schedulable (local_clock w (now_reads w)) = true ->
  add_daily_task task_name run_time act w
  = (Returns tt,
     set_tasks (tasks w ++ [{| name := task_name; time_of_day := run_time;
                               action := act;
                               next_run := next_after run_time
                                             (local_clock w (now_reads w)) |}])%list
       (set_now_reads (S (now_reads w)) w)).
Proof.
  intros Ht Hs. unfold add_daily_task.
  now rewrite (bind_returns _ _ _ _ _ (next_occurrence_run w _ Ht Hs)).
Qed.

(** [run_scheduler] up to its first call of [log]: a fresh scheduler with the
    two daily tasks. *)
Lemma run_scheduler_registers w (on_main_thread : bool) (fuel : nat) :
  (forall k, schedulable (local_clock w k) = true) ->
  exists w2,
    run_scheduler run_recalls run_claims on_main_thread fuel w
    = (log "scheduler" "started" None (Some "Daily scheduler started.") None ;;;
       try_finally_with (start on_main_thread fuel)
         (fun r => match r with
                   | Returns None => ret tt
                   | _ => log "scheduler" "stopped" None
                            (Some "Daily scheduler stopped.") None
                   end))%py w2
    /\ map name (tasks w2) = ["daily_recalls"; "daily_claims"]
    /\ map action (tasks w2) = [run_recalls; run_claims]
    /\ map time_of_day (tasks w2) = [9 * HOUR; 17 * HOUR]
    /\ stop_event w2 = false
    /\ log_file w2 = log_file w /\ app w2 = app w
    /\ sleeps w2 = sleeps w /\ signals w2 = signals w
    /\ local_clock w2 = local_clock w.
Proof.
  intros Hclock. unfold run_scheduler.
  rewrite (bind_returns (scheduler_init 60) _ w (snd (scheduler_init 60 w)) tt eq_refl).
  rewrite (bind_returns _ _ _ _ _
             (add_daily_task_run (snd (scheduler_init 60 w)) "daily_recalls" (9 * HOUR)
                run_recalls eq_refl (Hclock _))).
  match goal with
  | |- context [bind (add_daily_task _ _ _) _ ?x] =>
      rewrite (bind_returns _ _ _ _ _
                 (add_daily_task_run x "daily_claims" (17 * HOUR) run_claims eq_refl
                    (Hclock _)))
  end.
  eexists. split; [reflexivity|]. cbn. auto 10.
Qed.

(** X8.  [run_scheduler] brackets its run in the log: with a readable log, on
    the main thread, and a termination signal arriving during some sleep, it
    returns, and the log then holds what it held before, the entry
    "scheduler started", the entries of the attempts of the two daily tasks,
    and the entry "scheduler stopped" last; [main] returns 0. *)
Theorem scheduler_run_is_bracketed w (n fuel : nat) (h : list json) :
  let run := run_scheduler run_recalls run_claims true fuel w in
  fst (_read_history w) = Returns h ->
  well_behaved_action run_recalls ->
  well_behaved_action run_claims ->
  (forall k, schedulable (local_clock w k) = true) ->
  first_signal w n ->
  (n + 2 <= fuel)%nat ->
  exists e1 mid e2,
    fst run = Returns (Some tt)
    /\ fst (main run_recalls run_claims run_scheduler_cmd true fuel w) = Returns (Some 0)
    /\ fst (_read_history (snd run)) = Returns (h ++ e1 :: mid ++ [e2])%list
    /\ scheduler_entry "started" "Daily scheduler started." e1
    /\ Forall (entry_names ["daily_recalls"; "daily_claims"]) mid
    /\ scheduler_entry "stopped" "Daily scheduler stopped." e2
    /\ sleeps (snd run) = (sleeps w + S n)%nat.
Proof.
  intros run Hh Hr Hc Hclock Hsig Hfuel.
  assert (Hmain : main run_recalls run_claims run_scheduler_cmd true fuel w
                  = (r <- run_scheduler run_recalls run_claims true fuel ;;
                     ret (match r with Some _ => Some 0 | None => None end))%py w)
    by reflexivity.
  rewrite Hmain. unfold bind at 1. subst run.
  destruct (run_scheduler_registers w true fuel Hclock)
    as (w2 & -> & Hnames & Hacts & Htimes & Hstop2 & Hfile2 & Happ2 & Hsl2 & Hsig2 & Hclock2).
  assert (Hh2 : fst (_read_history w2) = Returns h)
    by (rewrite <- Hh; now apply read_history_file).
  pose proof (read_history_well_formed w h Hh) as Hwf.
  rewrite (bind_returns _ _ _ _ _ (log_run w2 _ _ _ _ _ h Hh2)).
  set (c1 := {| lc_task := "scheduler"; lc_status := "started"; lc_start := None;
                lc_message := Some "Daily scheduler started."; lc_details := None |}).
  set (w3 := logged_state _ _ _ _ _ h w2).
  set (e1 := entry_of (utc_clock w2 (utc_reads w2)) c1).
  assert (Hh3 : fst (_read_history w3) = Returns (h ++ [e1])%list)
    by (apply read_history_logged; [exact Hwf | reflexivity]).
  assert (Hwb3 : Forall well_behaved (tasks w3)).
  { change (tasks w3) with (tasks w2).
    destruct (tasks w2) as [|t1 [|t2 [|t3 ts]]]; try discriminate.
    injection Hnames as _ _. injection Hacts as Ha1 Ha2. injection Htimes as Ht1 Ht2.
    constructor; [|constructor; [|constructor]]; split.
    - now rewrite Ht1.
    - rewrite Ha1. exact Hr.
    - now rewrite Ht2.
    - rewrite Ha2. exact Hc. }
  destruct (start_stops w3 n fuel) as (w4 & Hrun & Hs4 & Hsl4 & Hutc4 & Hh4 & _);
    try assumption.
  { unfold first_signal in *. change (signals w3) with (signals w2).
    change (sleeps w3) with (sleeps w2). now rewrite Hsig2, Hsl2. }
  { intros k. change (local_clock w3) with (local_clock w2). rewrite Hclock2.
    apply Hclock. }
  destruct (Hh4 _ Hh3) as (mid & Hr4 & Hmid).
  change (tasks w3) with (tasks w2) in Hmid. rewrite Hnames in Hmid.
  pose proof (read_history_well_formed w4 _ Hr4) as Hwf4.
  set (c2 := {| lc_task := "scheduler"; lc_status := "stopped"; lc_start := None;
                lc_message := Some "Daily scheduler stopped."; lc_details := None |}).
  set (e2 := entry_of (utc_clock w4 (utc_reads w4)) c2).
  unfold try_finally_with. rewrite Hrun.
  rewrite (log_run w4 _ _ _ _ _ _ Hr4). cbn [fst snd].
  exists e1, mid, e2.
  split; [reflexivity|]. split; [reflexivity|]. split.
  - rewrite (read_history_logged (App := App) w4 "scheduler" "stopped" None
               (Some "Daily scheduler stopped.") None _ Hwf4 eq_refl).
    fold c2. fold e2. rewrite <- !List.app_assoc. reflexivity.
  - split; [|split; [exact Hmid|split]].
    + destruct (entry_of_records (utc_clock w2 (utc_reads w2)) c1)
        as (d & Hd & H1 & H2 & H3 & H4).
      exists d. auto.
    + destruct (entry_of_records (utc_clock w4 (utc_reads w4)) c2)
        as (d & Hd & H1 & H2 & H3 & H4).
      exists d. auto.
    + cbn [sleeps logged_state set_log_file set_utc_reads]. rewrite Hsl4.
      change (sleeps w3) with (sleeps w2). now rewrite Hsl2.
Qed.

(** X9.  [run_scheduler] does not start over a corrupt log: its first call of
    [log] raises the logger's [ValueError] before the loop is entered, so no
    task runs and nothing is written, not even the entry "stopped"; the
    process exits with status 1. *)
Theorem scheduler_refuses_unreadable_log w (on_main_thread : bool) (fuel : nat) :
  let run := run_scheduler run_recalls run_claims on_main_thread fuel w in
  corrupt_log w = true ->
  (forall k, schedulable (local_clock w k) = true) ->
  (exists e, fst run = Raises e /\ exc_cls e = ValueError)
  /\ app (snd run) = app w
  /\ sleeps (snd run) = sleeps w
  /\ log_file (snd run) = log_file w
  /\ exit_status (fst (main run_recalls run_claims run_scheduler_cmd
                         on_main_thread fuel w)) = Some 1.
Proof.
  intros run Hc Hclock.
  destruct (read_history_corrupt w Hc) as (e & Hh & Hcls).
  assert (Hmain : main run_recalls run_claims run_scheduler_cmd on_main_thread fuel w
                  = (r <- run_scheduler run_recalls run_claims on_main_thread fuel ;;
                     ret (match r with Some _ => Some 0 | None => None end))%py w)
    by reflexivity.
  rewrite Hmain. unfold bind at 1. subst run.
  destruct (run_scheduler_registers w on_main_thread fuel Hclock)
    as (w2 & -> & _ & _ & _ & _ & Hfile2 & Happ2 & Hsl2 & _).
  assert (Hh2 : fst (_read_history w2) = Raises e)
    by (rewrite <- Hh; now apply read_history_file).
  rewrite (bind_raises _ _ _ _ _ (log_raises w2 _ _ _ _ _ e Hh2)).
  cbn [fst snd exit_status]. rewrite Hcls. cbn.
  split; [now exists e | auto 10].
Qed.

End RunScheduler.

(* ================================================================== *)
(** * Further properties of the Halo Connect clients *)
(* ================================================================== *)

Section ClientProperties.
Import HaloClient HaloFHIRClient HaloSQLClient ClientTerms.

(** ** Dictionaries *)

Lemma dict_get_set_same {V} (k : string) (v : V) (d : list (string * V)) :
  dict_get k (dict_set k v d) = Some v.
Proof.
  induction d as [|[k' v'] d IH]; cbn [dict_set dict_get].
  - now rewrite String.eqb_refl.
  - destruct (String.eqb k k') eqn:E; cbn [dict_get]; rewrite ?String.eqb_refl, ?E;
      [reflexivity | exact IH].
Qed.

Lemma dict_get_set_other {V} (k k' : string) (v : V) (d : list (string * V)) :
  k <> k' -> dict_get k (dict_set k' v d) = dict_get k d.
Proof.
  intros Hne. apply String.eqb_neq in Hne.
  induction d as [|[k2 v2] d IH]; cbn [dict_set dict_get].
  - now rewrite Hne.
  - destruct (String.eqb k' k2) eqn:E; cbn [dict_get].
    + apply String.eqb_eq in E. subst k2. now rewrite Hne.
    + destruct (String.eqb k k2); [reflexivity | exact IH].
Qed.

Lemma dict_get_absent {V} (k : string) (d : list (string * V)) :
  ~ In k (map fst d) -> dict_get k d = None.
Proof.
  induction d as [|[k' v'] d IH]; cbn [dict_get map fst In]; [reflexivity|].
  intros H. destruct (String.eqb k k') eqn:E.
  - apply String.eqb_eq in E. subst. tauto.
  - apply IH. tauto.
Qed.

(** [d.update(extra)] for a dict [extra]: its items win over those of [d]. *)
Lemma dict_get_update {V} (k : string) (extra : list (string * V)) :
  NoDup (map fst extra) ->
  forall d : list (string * V),
    dict_get k (dict_update d extra)
    = match dict_get k extra with
      | Some v => Some v
      | None => dict_get k d
      end.
Proof.
  unfold dict_update.
  induction extra as [|[k1 v1] extra IH]; intros Hnd d; cbn [fold_left dict_get fst snd];
    [reflexivity|].
  cbn [map fst] in Hnd. inversion Hnd as [|? ? Hnotin Hnd']; subst.
  rewrite (IH Hnd').
  destruct (String.eqb k k1) eqn:E.
  - apply String.eqb_eq in E. subst k1.
    now rewrite (dict_get_absent k extra Hnotin), dict_get_set_same.
  - apply String.eqb_neq in E. rewrite (dict_get_set_other k k1 v1 d E).
    reflexivity.
Qed.

(** ** Slashes *)

Lemma rstrip_char_last (x : ascii) (s : string) :
  last_char (rstrip_char x s) <> Some x.
Proof.
  induction s as [|c s IH]; cbn [rstrip_char last_char]; [discriminate|].
  destruct (rstrip_char x s) as [|c' s'] eqn:E.
  - destruct (Ascii.eqb c x) eqn:Ec; cbn [last_char]; [discriminate|].
    apply Ascii.eqb_neq in Ec. congruence.
  - exact IH.
Qed.

Lemma rstrip_char_tail (x : ascii) (s : string) :
  exists k : nat, s = rstrip_char x s ++ repeat_str k (String x "").
Proof.
  induction s as [|c s [k IH]]; cbn [rstrip_char].
  - exists 0%nat. reflexivity.
  - destruct (rstrip_char x s) as [|c' s'] eqn:E.
    + destruct (Ascii.eqb c x) eqn:Ec.
      * apply Ascii.eqb_eq in Ec. subst c. exists (S k).
        cbn [append repeat_str]. cbn [append] in IH. now rewrite IH at 1.
      * exists k. cbn [append]. cbn [append] in IH. now rewrite IH at 1.
    + exists k. cbn [append]. now rewrite IH at 1.
Qed.

Lemma lstrip_char_first (x : ascii) (s : string) :
  first_char (lstrip_char x s) <> Some x.
Proof.
  induction s as [|c s IH]; cbn [lstrip_char first_char]; [discriminate|].
  destruct (Ascii.eqb c x) eqn:Ec; [exact IH|].
  cbn [first_char]. apply Ascii.eqb_neq in Ec. congruence.
Qed.

(** ** The constructor *)

(** X10.  The constructor accepts its arguments exactly when the base URL,
    the token URL, the client id and the client secret are all given and not
    empty, and raises [ValueError] otherwise.  The client it returns holds no
    token, and its base URL is the given one without its trailing slashes:
    it never ends in a slash. *)
Theorem constructor_validates_and_normalises
    (token_url base_url : string) (client_id client_secret scope audience : option string)
    (timeout max_retries token_refresh_buffer : Z) :
  let made := __init__ token_url base_url client_id client_secret scope audience
                timeout max_retries token_refresh_buffer in
  ((exists c, made = Returns c)
   <-> nonempty base_url = true /\ nonempty token_url = true
       /\ (exists id, client_id = Some id /\ nonempty id = true)
       /\ (exists secret, client_secret = Some secret /\ nonempty secret = true))
  /\ (forall e, made = Raises e -> exc_cls e = ValueError)
  /\ (forall c, made = Returns c ->
        _token c = None
        /\ last_char (HaloClient.base_url c) <> Some "/"%char
        /\ (exists k : nat, base_url = HaloClient.base_url c ++ repeat_str k "/")
        /\ HaloClient.token_url c = token_url
        /\ Some (HaloClient.client_id c) = client_id
        /\ Some (HaloClient.client_secret c) = client_secret
        /\ HaloClient.token_refresh_buffer c = token_refresh_buffer).
Proof.
  intros made. subst made. unfold __init__.
  destruct (nonempty base_url) eqn:Hb; cbn [negb].
  2:{ split; [|split]; [split | | ].
      - intros [c H]. discriminate.
      - intros (H & _). discriminate.
      - now intros e [= <-].
      - intros c H. discriminate. }
  destruct (nonempty token_url) eqn:Ht; cbn [negb].
  2:{ split; [|split]; [split | | ].
      - intros [c H]. discriminate.
      - intros (_ & H & _). discriminate.
      - now intros e [= <-].
      - intros c H. discriminate. }
  destruct client_id as [id|], client_secret as [secret|];
    try (split; [|split]; [split | | ];
         [ intros [c H]; discriminate
         | intros (_ & _ & [x [H _]] & [y [H' _]]); discriminate
         | now intros e [= <-]
         | intros c H; discriminate ]).
  destruct (nonempty id) eqn:Hi, (nonempty secret) eqn:Hs; cbn [andb];
    try (split; [|split]; [split | | ];
         [ intros [c H]; discriminate
         | intros (_ & _ & [x [[= <-] H]] & [y [[= <-] H']]); congruence
         | now intros e [= <-]
         | intros c H; discriminate ]).
  split; [|split].
  - split; [|intros _; eexists; reflexivity].
    intros _. repeat split; eauto.
  - intros e H. discriminate.
  - intros c [= <-]. cbn. repeat split; auto.
    + apply rstrip_char_last.
    + apply rstrip_char_tail.
Qed.

(** ** Requests *)

(** What [_request] does once the token is there and the session answers. *)
Lemma request_answered (method path : string) (params payload : option json)
    (headers : list (string * string)) (expected : list Z)
    (w w1 : world) (tok : string) (r : Response) :
  nonempty path = true ->
  _get_access_token w = (Returns tok, w1) ->
  network w1 (List.length (calls w1)) = Responds r ->
  let sent := {| call_method := upper method;
                 call_url := base_url (self w1) ++ "/" ++ lstrip_char "/" path;
                 call_headers := sent_headers tok headers;
                 call_params := params; call_data := []; call_json := payload;
                 call_timeout := timeout (self w1) |} in
  _request method path params payload headers expected w
  = if existsb (Z.eqb (status_code r)) expected
    then (Returns r, snd (session_call sent w1))
    else (Raises (Exc HaloAPIError
                    ("Halo Connect responded with unexpected status "
                     ++ encode_int (status_code r) ++ ": " ++ text r) None),
          add_log (error_record r) (snd (session_call sent w1))).
Proof.
  intros Hp Htok Hrep sent. unfold _request. rewrite Hp. cbn [negb].
  rewrite (bind_returns _ _ _ _ _ Htok).
  rewrite (bind_returns get _ w1 w1 w1 eq_refl).
  fold (sent_headers tok headers). fold sent.
  assert (Hcall : try_except (session_call sent)
                    [ (is_RequestException,
                       fun exc =>
                         (emit ERROR "Request to Halo Connect failed: %s" [ArgExc exc] ;;;
                          raise (Exc HaloAPIError "Failed to execute request to Halo Connect"
                                   (Some exc)))%py) ] w1
                  = (Returns r, snd (session_call sent w1))).
  { unfold try_except, session_call. rewrite Hrep. reflexivity. }
  rewrite (bind_returns _ _ _ _ _ Hcall).
  destruct (existsb (Z.eqb (status_code r)) expected); cbn [negb]; [reflexivity|].
  unfold bind. now rewrite log_error_response_run.
Qed.

(** A client method: the request, then the decoding of the body. *)
Lemma resource_answered (method path : string) (params payload : option json)
    (headers : list (string * string)) (expected : list Z)
    (w w1 : world) (tok : string) (r : Response) :
  nonempty path = true ->
  _get_access_token w = (Returns tok, w1) ->
  network w1 (List.length (calls w1)) = Responds r ->
  let sent := {| call_method := upper method;
                 call_url := base_url (self w1) ++ "/" ++ lstrip_char "/" path;
                 call_headers := sent_headers tok headers;
                 call_params := params; call_data := []; call_json := payload;
                 call_timeout := timeout (self w1) |} in
  let run := (response <- _request method path params payload headers expected ;;
              response_json response)%py w in
  fst run = resource_outcome expected r
  /\ calls (snd run) = (calls w1 ++ [sent])%list
  /\ logged (snd run)
     = (if existsb (Z.eqb (status_code r)) expected then logged w1
        else logged w1 ++ [error_record r])%list.
Proof.
  intros Hp Htok Hrep sent run.
  assert (Hrun : run = (resource_outcome expected r,
                        if existsb (Z.eqb (status_code r)) expected
                        then snd (session_call sent w1)
                        else add_log (error_record r) (snd (session_call sent w1)))).
  { subst run. unfold bind.
    rewrite (request_answered method path params payload headers expected w w1 tok r
               Hp Htok Hrep).
    fold sent. unfold resource_outcome, response_json.
    destruct (existsb (Z.eqb (status_code r)) expected); [|reflexivity].
    destruct (json_result r) as [msg | v]; reflexivity. }
  rewrite Hrun. cbn [fst snd]. split; [reflexivity|].
  unfold session_call. rewrite Hrep.
  destruct (existsb (Z.eqb (status_code r)) expected); cbn; auto.
Qed.

(** X11.  What [_request] sends: with a token at hand and an answer whose
    status is among the expected ones, it makes exactly one call, to the base
    URL and the path joined by a single slash, with the given parameters and
    JSON payload and the client's timeout, logs nothing and returns the
    response.  Among the headers, those of the caller win over the defaults:
    [Authorization] is the bearer token and [Accept] is [application/json]
    unless the caller gives these keys. *)
Theorem request_sends_one_call (method path : string) (params payload : option json)
    (headers : list (string * string)) (expected : list Z)
    (w w1 : world) (tok : string) (r : Response) :
  let run := _request method path params payload headers expected w in
  nonempty path = true ->
  NoDup (map fst headers) ->
  _get_access_token w = (Returns tok, w1) ->
  network w1 (List.length (calls w1)) = Responds r ->
  existsb (Z.eqb (status_code r)) expected = true ->
  fst run = Returns r
  /\ logged (snd run) = logged w1
  /\ exists sent,
       calls (snd run) = (calls w1 ++ [sent])%list
       /\ call_url sent = base_url (self w1) ++ "/" ++ lstrip_char "/" path
       /\ first_char (lstrip_char "/" path) <> Some "/"%char
       /\ call_params sent = params
       /\ call_json sent = payload
       /\ call_data sent = []
       /\ call_timeout sent = timeout (self w1)
       /\ forall k,
            dict_get k (call_headers sent)
            = match dict_get k headers with
              | Some v => Some v
              | None => dict_get k [("Authorization", "Bearer " ++ tok);
                                    ("Accept", "application/json")]
              end.
Proof.
  intros run Hp Hnd Htok Hrep Hst. subst run.
  rewrite (request_answered method path params payload headers expected w w1 tok r
             Hp Htok Hrep).
  rewrite Hst. unfold session_call. rewrite Hrep. cbn [fst snd logged calls].
  split; [reflexivity|]. split; [reflexivity|].
  eexists. split; [reflexivity|]. cbn [call_url call_params call_json call_data
                                       call_timeout call_headers].
  split; [reflexivity|]. split; [apply lstrip_char_first|].
  repeat (split; [reflexivity|]).
  intros k. unfold sent_headers. now apply dict_get_update.
Qed.

(** ** The operations of the two clients *)

Lemma perform_rejected (op : operation) (w : world) :
  accepted op = false ->
  exists msg, perform op w = (Raises (Exc ValueError msg None), w).
Proof.
  destruct op as [id | id | id sp | payload | query]; cbn [accepted perform];
    intros H;
    unfold get_patient, get_appointment, search_appointments, create_appointment,
      run_sql.
  - rewrite H. eexists. reflexivity.
  - rewrite H. eexists. reflexivity.
  - rewrite H. eexists. reflexivity.
  - rewrite <- negb_andb, H. eexists. reflexivity.
  - rewrite <- negb_andb, H. eexists. reflexivity.
Qed.

Lemma perform_accepted (op : operation) :
  accepted op = true ->
  exists method path params payload headers,
    perform op
    = (response <- _request method path params payload headers (expected_statuses op) ;;
       response_json response)%py
    /\ nonempty path = true
    /\ forall (c : HaloBaseClient) (tok : string),
         call_of op c tok
         = {| call_method := upper method;
              call_url := base_url c ++ "/" ++ lstrip_char "/" path;
              call_headers := sent_headers tok headers;
              call_params := params; call_data := []; call_json := payload;
              call_timeout := timeout c |}.
Proof.
  destruct op as [id | id | id sp | payload | query]; cbn [accepted perform];
    intros H;
    unfold get_patient, get_appointment, search_appointments, create_appointment,
      run_sql.
  - rewrite H. cbn [negb]. do 5 eexists. split; [reflexivity|].
    split; reflexivity.
  - rewrite H. cbn [negb]. do 5 eexists. split; [reflexivity|].
    split; reflexivity.
  - rewrite H. cbn [negb]. do 5 eexists. split; [reflexivity|].
    split; reflexivity.
  - rewrite <- negb_andb, H. cbn [negb]. do 5 eexists. split; [reflexivity|].
    split; reflexivity.
  - rewrite <- negb_andb, H. cbn [negb]. do 5 eexists. split; [reflexivity|].
    split; reflexivity.
Qed.

Lemma client_method_outcome_calls (op : operation) (w w1 : world) (tok : string)
    (r : Response) :
  accepted op = true ->
  _get_access_token w = (Returns tok, w1) ->
  network w1 (List.length (calls w1)) = Responds r ->
  calls (snd (perform op w)) = (calls w1 ++ [call_of op (self w1) tok])%list.
Proof.
  intros Hok Htok Hrep.
  destruct (perform_accepted op Hok)
    as (method & path & params & payload & headers & -> & Hp & Hcall).
  rewrite Hcall.
  now destruct (resource_answered method path params payload headers
                  (expected_statuses op) w w1 tok r Hp Htok Hrep) as (_ & H & _).
Qed.

(** X12.  Each of the five client methods checks its argument before
    anything else: a rejected argument raises [ValueError] and nothing is
    sent, read or logged.  With an accepted argument, a token at hand and an
    answer from the session, the method makes exactly one call, the one of
    its resource, and hands on the decoded body when the status is 200 (or
    201, for the two methods that post); for any other status it logs the
    response and raises [HaloAPIError]. *)
Theorem client_method_outcome (op : operation) (w : world) :
  (accepted op = false ->
   exists msg, perform op w = (Raises (Exc ValueError msg None), w))
  /\ (forall w1 tok r,
        accepted op = true ->
        _get_access_token w = (Returns tok, w1) ->
        network w1 (List.length (calls w1)) = Responds r ->
        fst (perform op w) = resource_outcome (expected_statuses op) r
        /\ calls (snd (perform op w)) = (calls w1 ++ [call_of op (self w1) tok])%list
        /\ logged (snd (perform op w))
           = (if existsb (Z.eqb (status_code r)) (expected_statuses op) then logged w1
              else logged w1 ++ [error_record r])%list).
Proof.
  split; [apply perform_rejected|].
  intros w1 tok r Hok Htok Hrep.
  destruct (perform_accepted op Hok)
    as (method & path & params & payload & headers & -> & Hp & Hcall).
  rewrite Hcall.
  exact (resource_answered method path params payload headers (expected_statuses op)
           w w1 tok r Hp Htok Hrep).
Qed.

(** X13.  An answer with an expected status whose body does not decode makes
    the client method raise the decode error of [requests], which is a
    [ValueError] and not a [HaloClientError]; nothing is logged about it. *)
Theorem undecodable_body_escapes_client_errors (op : operation) (w w1 : world)
    (tok msg : string) (r : Response) :
  accepted op = true ->
  _get_access_token w = (Returns tok, w1) ->
  network w1 (List.length (calls w1)) = Responds r ->
  existsb (Z.eqb (status_code r)) (expected_statuses op) = true ->
  json_result r = inl msg ->
  exists e,
    fst (perform op w) = Raises e
    /\ e = Exc RequestsJSONDecodeError msg None
    /\ is_ValueError (exc_cls e) = true
    /\ is_HaloClientError (exc_cls e) = false
    /\ logged (snd (perform op w)) = logged w1.
Proof.
  intros Hok Htok Hrep Hst Hjs.
  destruct (perform_accepted op Hok)
    as (method & path & params & payload & headers & -> & Hp & _).
  destruct (resource_answered method path params payload headers (expected_statuses op)
              w w1 tok r Hp Htok Hrep) as (H1 & _ & H3).
  unfold resource_outcome in H1. rewrite Hst, Hjs in H1. rewrite Hst in H3.
  eexists. split; [exact H1|]. repeat split. exact H3.
Qed.

(** X14.  Without a token there is no request: when the token getter raises,
    the client method raises the same exception and sends nothing more.  For
    a client without a valid token whose token request fails as
    [auth_failure] says, the method raises [HaloAuthError] and the one call
    made is the token request. *)
Theorem no_request_without_token (op : operation) (w : world) :
  accepted op = true ->
  (forall e w1,
      _get_access_token w = (Raises e, w1) ->
      perform op w = (Raises e, w1))
  /\ (forall w',
        stale w w' ->
        object_reply (network w (List.length (calls w))) = true ->
        auth_failure (network w (List.length (calls w))) = true ->
        (exists e, fst (perform op w) = Raises e /\ exc_cls e = HaloAuthError)
        /\ calls (snd (perform op w)) = (calls w ++ [token_call (self w)])%list).
Proof.
  intros Hok.
  destruct (perform_accepted op Hok)
    as (method & path & params & payload & headers & -> & Hp & _).
  assert (Hraise : forall e w1,
             _get_access_token w = (Raises e, w1) ->
             (response <- _request method path params payload headers
                            (expected_statuses op) ;;
              response_json response)%py w = (Raises e, w1)).
  { intros e w1 Htok. unfold bind at 1. unfold _request. rewrite Hp. cbn [negb].
    now rewrite (bind_raises _ _ _ _ _ Htok). }
  split; [exact Hraise|].
  intros w' Hs Hobj Hauth.
  destruct (stale_frame w w' Hs) as (Hself & Hcalls & Hnet & _).
  pose proof (refresh_token_class w') as Hcls.
  rewrite Hcalls, Hnet in Hcls. specialize (Hcls Hobj).
  pose proof (refresh_token_posts w') as Hposts.
  rewrite Hself, Hcalls in Hposts.
  rewrite <- (get_access_token_stale w w' Hs) in Hcls, Hposts.
  destruct (_get_access_token w) as [[s | e] w1] eqn:Htok; cbn [fst snd] in *.
  - congruence.
  - rewrite (Hraise e w1 eq_refl). cbn [fst snd]. split; [|exact Hposts].
    exists e. split; [reflexivity|]. now apply Hcls.
Qed.

(** ** The search parameters *)

Lemma dict_get_filter {V} (P : string * V -> bool) (k : string) (d : list (string * V)) :
  NoDup (map fst d) ->
  dict_get k (filter P d)
  = match dict_get k d with
    | Some v => if P (k, v) then Some v else None
    | None => None
    end.
Proof.
  induction d as [|[k' v'] d IH]; cbn [filter dict_get map fst]; [reflexivity|].
  intros Hnd. inversion Hnd as [|? ? Hnotin Hnd']; subst.
  destruct (String.eqb k k') eqn:E.
  - apply String.eqb_eq in E. subst k'.
    destruct (P (k, v')); cbn [dict_get]; [now rewrite String.eqb_refl|].
    rewrite (IH Hnd'). now rewrite (dict_get_absent k d Hnotin).
  - destruct (P (k', v')); cbn [dict_get]; [rewrite E|]; exact (IH Hnd').
Qed.

Lemma filter_keys_NoDup {V} (P : string * V -> bool) (d : list (string * V)) :
  NoDup (map fst d) -> NoDup (map fst (filter P d)).
Proof.
  induction d as [|[k v] d IH]; cbn [filter map fst]; intros Hnd; [constructor|].
  inversion Hnd as [|? ? Hnotin Hnd']; subst.
  destruct (P (k, v)); cbn [map fst]; [|now apply IH].
  constructor; [|now apply IH].
  intros Hin. apply Hnotin. apply in_map_iff in Hin. destruct Hin as ([k' v'] & <- & Hin).
  apply filter_In in Hin. destruct Hin as [Hin _].
  apply in_map_iff. now exists (k', v').
Qed.

Lemma dict_update_NoDup {V} (extra d : list (string * V)) :
  NoDup (map fst d) -> NoDup (map fst (dict_update d extra)).
Proof.
  unfold dict_update. revert d.
  induction extra as [|[k v] extra IH]; intros d Hnd; cbn [fold_left fst snd];
    [exact Hnd|].
  apply IH. now apply dict_set_NoDup.
Qed.

Lemma dict_update_values {V} (P : V -> bool) (extra d : list (string * V)) :
  forallb (fun kv => P (snd kv)) d = true ->
  forallb (fun kv => P (snd kv)) extra = true ->
  forallb (fun kv => P (snd kv)) (dict_update d extra) = true.
Proof.
  unfold dict_update. revert d.
  induction extra as [|[k v] extra IH]; intros d Hd He; cbn [fold_left fst snd];
    [exact Hd|].
  cbn [forallb snd] in He. apply andb_prop in He. destruct He as [Hv He].
  apply IH; [|exact He]. now apply dict_set_values.
Qed.

Lemma forallb_filter_same {A} (P : A -> bool) (l : list A) :
  forallb P (filter P l) = true.
Proof.
  induction l as [|x l IH]; cbn [filter forallb]; [reflexivity|].
  destruct (P x) eqn:E; cbn [forallb]; [now rewrite E|exact IH].
Qed.

(** X15.  The parameters [search_appointments] sends are the patient and the
    keyword arguments that are not [None]: no parameter sent is [None], each
    key is sent once, and a keyword wins over the default, so that a keyword
    [patient] replaces the patient of the first argument. *)
Theorem search_parameters_sent (patient_id : string)
    (search_params : list (string * json)) :
  let params := dict_update [("patient", JStr patient_id)]
                  (filter is_not_none search_params) in
  NoDup (map fst search_params) ->
  (forall w w1 tok r,
      nonempty patient_id = true ->
      _get_access_token w = (Returns tok, w1) ->
      network w1 (List.length (calls w1)) = Responds r ->
      calls (snd (search_appointments patient_id search_params w))
      = (calls w1 ++ [api_call (self w1) tok "GET" "Appointment"
                        "application/fhir+json" (Some (JDict params)) None])%list)
  /\ (forall k,
        dict_get k params
        = match dict_get k search_params with
          | Some JNull | None => dict_get k [("patient", JStr patient_id)]
          | Some v => Some v
          end)
  /\ forallb is_not_none params = true
  /\ NoDup (map fst params).
Proof.
  intros params Hnd. split; [|split; [|split]].
  - intros w w1 tok r Hid Htok Hrep.
    exact (client_method_outcome_calls (SearchAppointments patient_id search_params)
             w w1 tok r Hid Htok Hrep).
  - intros k. subst params.
    rewrite (dict_get_update k _ (filter_keys_NoDup _ _ Hnd)).
    rewrite (dict_get_filter is_not_none k search_params Hnd).
    destruct (dict_get k search_params) as [[ | b | n | s | xs | d]|]; reflexivity.
  - subst params.
    apply (dict_update_values (fun v => match v with JNull => false | _ => true end));
      [reflexivity|].
    apply (forallb_filter_same is_not_none).
  - subst params. apply dict_update_NoDup. constructor; [intros [] | constructor].
Qed.

(** ** The life of a token *)

(** The state a successful refresh leaves: the token cached, one more reading
    of the clock, one more call. *)
Lemma refresh_token_state (w : world) (r : Response) (d : list (string * json))
    (s : string) (n : Z) :
  network w (List.length (calls w)) = Responds r ->
  http_error r = false ->
  json_result r = inr (JDict d) ->
  dict_get "access_token" d = Some (JStr s) ->
  nonempty s = true ->
  (truthy (expires_in_of d) = true /\ py_int (expires_in_of d) = Returns n
   \/ truthy (expires_in_of d) = false /\ n = 300) ->
  timedelta_ok (n * SECOND) = true ->
  datetime_ok (utcnow_clock w (clock_reads w) + n * SECOND) = true ->
  let w2 := snd (refresh_token w) in
  self w2 = set_token {| access_token := s;
                         expires_at := utcnow_clock w (clock_reads w) + n * SECOND |}
              (self w)
  /\ clock_reads w2 = S (clock_reads w)
  /\ utcnow_clock w2 = utcnow_clock w
  /\ network w2 = network w
  /\ calls w2 = (calls w ++ [token_call (self w)])%list.
Proof.
  intros Hrep Hst Hjs Hat Hs Hn Htd Hdt. run_py.
  rewrite Hrep, Hst.
  cbn [fst snd self utcnow_clock clock_reads network calls logged].
  rewrite Hjs, Hat.
  cbn [fst snd self utcnow_clock clock_reads network calls logged truthy is_str].
  rewrite Hs. cbn [negb orb]. fold (expires_in_of d).
  unfold timedelta_seconds, datetime_add.
  destruct Hn as [[Ht Hi] | [Ht ->]]; rewrite Ht;
    cbn [negb fst snd self utcnow_clock clock_reads network calls logged py_int];
    [rewrite Hi|]; rewrite Htd;
    cbn [fst snd self utcnow_clock clock_reads network calls logged];
    rewrite Hdt; cbn; auto.
Qed.

(** X16.  The life of a token.  After a refresh that cached a token for [n]
    seconds, the next call of the getter returns that token without any
    request as long as the clock, read again, plus the refresh buffer is
    before the expiry.  A token whose lifetime does not exceed the refresh
    buffer is never reused: with a clock that does not go back, the next call
    posts a token request again. *)
Theorem token_reuse_threshold (w w' : world) (r : Response)
    (d : list (string * json)) (s : string) (n : Z) :
  let refreshed := snd (_get_access_token w) in
  let buffer := token_refresh_buffer (self w) in
  let issued := utcnow_clock w (clock_reads w') in
  let next := utcnow_clock w (S (clock_reads w')) in
  let later := utcnow_clock w (S (S (clock_reads w'))) in
  stale w w' ->
  network w (List.length (calls w)) = Responds r ->
  http_error r = false ->
  json_result r = inr (JDict d) ->
  dict_get "access_token" d = Some (JStr s) ->
  nonempty s = true ->
  (truthy (expires_in_of d) = true /\ py_int (expires_in_of d) = Returns n
   \/ truthy (expires_in_of d) = false /\ n = 300) ->
  timedelta_ok (n * SECOND) = true ->
  datetime_ok (issued + n * SECOND) = true ->
  buffer_fits next buffer = true ->
  (next + buffer * SECOND < issued + n * SECOND ->
   fst (_get_access_token refreshed) = Returns s
   /\ calls (snd (_get_access_token refreshed))
      = (calls w ++ [token_call (self w)])%list)
  /\ (n <= buffer -> issued <= next -> issued <= later ->
      buffer_fits later buffer = true ->
      calls (snd (_get_access_token refreshed))
      = (calls w ++ [token_call (self w); token_call (self w)])%list).
Proof.
  intros refreshed buffer issued next later Hs Hrep Hst Hjs Hat Hne Hn Htd Hdt Hfit.
  destruct (stale_frame w w' Hs) as (Hself & Hcalls & Hnet & Hclock).
  assert (Hstate : self refreshed
                   = set_token {| access_token := s;
                                  expires_at := issued + n * SECOND |} (self w)
                   /\ clock_reads refreshed = S (clock_reads w')
                   /\ utcnow_clock refreshed = utcnow_clock w
                   /\ network refreshed = network w
                   /\ calls refreshed = (calls w ++ [token_call (self w)])%list).
  { subst refreshed issued. rewrite (get_access_token_stale w w' Hs).
    rewrite <- Hself, <- Hcalls, <- Hnet, <- Hclock in *.
    now apply (refresh_token_state w' r d s n). }
  destruct Hstate as (Hself2 & Hreads2 & Hclock2 & Hnet2 & Hcalls2).
  set (tok := {| access_token := s; expires_at := issued + n * SECOND |}) in *.
  assert (Htok2 : _token (self refreshed) = Some tok) by now rewrite Hself2.
  assert (Hbuf2 : token_refresh_buffer (self refreshed) = buffer)
    by now rewrite Hself2.
  split.
  - intros Hlt.
    rewrite (get_access_token_cached refreshed tok Htok2);
      rewrite ?Hclock2, ?Hreads2, ?Hbuf2; try assumption.
    cbn [fst snd tick utcnow calls]. now rewrite Hcalls2.
  - intros Hshort Hmono1 Hmono2 Hfit2.
    assert (Hstale2 : stale refreshed (tick (tick refreshed))).
    { right. exists tok. rewrite Hclock2, Hreads2, Hbuf2.
      cbn [expires_at tok]. unfold SECOND in *.
      repeat split; try assumption; lia. }
    rewrite (get_access_token_stale refreshed _ Hstale2), refresh_token_posts.
    cbn [tick utcnow snd calls self]. rewrite Hcalls2, Hself2.
    now rewrite <- List.app_assoc.
Qed.

(** ** What a refresh logs *)



End ClientProperties.

(* ================================================================== *)
(** * Properties of the appointment and recall agents *)
(* ================================================================== *)

Section AgentProperties.
Import PyRepr Agents.
Context (fromisoformat : string -> parse moment).


Lemma coerce_date_raises (value : pyobject) (e : pyexc) :
  _coerce_date fromisoformat value = Raises e -> exc_cls e = ValueError.
Proof.
  destruct value as [d | m | [ | b | n | s | xs | ms]]; cbn; try discriminate;
    try (now intros [= <-]).
  destruct (fromisoformat s); [now intros [= <-] | discriminate].
Qed.

Lemma parse_record_raises (entry : json) (e : pyexc) :
  (_parse_record fromisoformat) entry = Raises e -> exc_cls e = ValueError.
Proof.
  destruct entry as [ | b | n | s | xs | d]; cbn [Agents._parse_record];
    try (now intros [= <-]).
  destruct (dict_get "patient_id" d); [|now intros [= <-]].
  destruct (_coerce_date _ _) as [day | e'] eqn:E; [discriminate|].
  intros [= <-]. exact (coerce_date_raises _ _ E).
Qed.

Lemma parse_records_returns (xs : list json) (rs : list AppointmentRecord) :
  (parse_records fromisoformat) xs = Returns rs <-> (parse_to fromisoformat) xs rs.
Proof.
  unfold Agents.parse_to. revert rs.
  induction xs as [|x xs IH]; intros rs; cbn [Agents.parse_records].
  - split; [intros [= <-]; constructor | intros H; now inversion H].
  - destruct ((_parse_record fromisoformat) x) as [r | e] eqn:Ex.
    + destruct ((parse_records fromisoformat) xs) as [rs' | e] eqn:Exs.
      * split.
        -- intros [= <-]. constructor; [exact Ex | now apply IH].
        -- intros H. inversion H as [|? r0 ? rs0 H1 H2]; subst.
           rewrite Ex in H1. injection H1 as <-.
           apply IH in H2. now injection H2 as <-.
      * split; [discriminate|].
        intros H. inversion H as [|? r0 ? rs0 H1 H2]; subst.
        apply IH in H2. discriminate.
    + split; [discriminate|].
      intros H. inversion H as [|? r0 ? rs0 H1 H2]; subst. congruence.
Qed.

Lemma parse_records_raises (xs : list json) (e : pyexc) :
  (parse_records fromisoformat) xs = Raises e ->
  exists (before : list json) (x : json) (after : list json) (rs : list AppointmentRecord),
    xs = (before ++ x :: after)%list
    /\ (parse_to fromisoformat) before rs
    /\ (_parse_record fromisoformat) x = Raises e.
Proof.
  induction xs as [|x xs IH]; cbn [Agents.parse_records]; [discriminate|].
  destruct ((_parse_record fromisoformat) x) as [r | e'] eqn:Ex.
  - destruct ((parse_records fromisoformat) xs) as [rs' | e'] eqn:Exs; [discriminate|].
    intros [= <-]. destruct (IH eq_refl) as (before & y & after & rs & -> & Hb & Hy).
    exists (x :: before), y, after, (r :: rs).
    split; [reflexivity|]. split; [now constructor | exact Hy].
  - intros [= <-]. exists [], x, xs, []. split; [reflexivity|].
    split; [constructor | exact Ex].
Qed.

Lemma loads_blank (content : string) :
  skip_ws content = "" -> loads content = inl "Expecting value".
Proof. intros H. unfold loads. now rewrite H. Qed.

Lemma load_appointments_state (w : files) :
  snd (load_appointments fromisoformat w) = w.
Proof.
  unfold Agents.load_appointments, bind, get, ret, raise, lift. cbv beta iota.
  destruct (appointments_file w) as [content|]; [|reflexivity].
  destruct (loads content) as [msg | v]; [reflexivity|].
  destruct (iterate v); reflexivity.
Qed.

Lemma load_appointments_list (w : files) (content : string) (xs : list json) :
  appointments_file w = Some content ->
  loads content = inr (JList xs) ->
  fst (load_appointments fromisoformat w) = parse_records fromisoformat xs.
Proof.
  intros Hf Hl. unfold Agents.load_appointments, bind, get, lift. cbv beta iota.
  now rewrite Hf, Hl.
Qed.

(** X17.  The shapes of the appointments file.  Without a file there are no
    appointments.  A file that is empty or blank is an error (the content is
    not stripped and not tested for emptiness), and so is a document that is
    a number, a boolean or [null].  An empty object and an empty string load
    as no appointments, being iterables without items; a non-empty object or
    string is iterated, and its first key or character is rejected as an
    entry.  A list goes to the loop over its entries.  The agent's state is
    never changed. *)
Theorem appointments_file_shapes (w : files) :
  let loaded := fst (load_appointments fromisoformat w) in
  (appointments_file w = None -> loaded = Returns [])
  /\ (forall content,
        appointments_file w = Some content ->
        skip_ws content = "" ->
        exists e,
          loaded = Raises e
          /\ exc_cls e = ValueError
          /\ exc_str e = "Invalid appointment data in " ++ source_path w
                         ++ ": Expecting value")
  /\ (forall content v,
        appointments_file w = Some content ->
        loads content = inr v ->
        match v with
        | JNull | JBool _ | JInt _ =>
            loaded = Raises (Exc ValueError "Appointment data must be a list of records."
                               None)
        | JDict [] | JStr EmptyString => loaded = Returns []
        | JDict (_ :: _) | JStr (String _ _) =>
            loaded = Raises (Exc ValueError "Each appointment entry must be a dictionary."
                               None)
        | JList xs => loaded = parse_records fromisoformat xs
        end)
  /\ snd (load_appointments fromisoformat w) = w.
Proof.
  intros loaded. subst loaded.
  split; [|split; [|split; [|apply load_appointments_state]]].
  - intros Hf. unfold Agents.load_appointments, bind, get, ret. cbv beta iota.
    now rewrite Hf.
  - intros content Hf Hb.
    unfold Agents.load_appointments, bind, get, raise. cbv beta iota.
    rewrite Hf, (loads_blank content Hb).
    eexists. split; [reflexivity | split; reflexivity].
  - intros content v Hf Hl.
    unfold Agents.load_appointments, bind, get, ret, raise, lift. cbv beta iota.
    rewrite Hf, Hl.
    destruct v as [ | b | n | [|c s] | xs | [|[k x] ms]]; reflexivity.
Qed.

(** X22.  When an entry parses: exactly when it is an object with a member
    [patient_id] and a member [appointment_date] that is a string
    [fromisoformat] accepts.  The record then holds [str()] of the patient
    id, whatever its JSON type, [str()] of the patient name (the empty string
    when the member is missing), the date of the parsed datetime, and the
    truth value of [needs_recall] (false when missing).  In every other case
    the entry is rejected with a [ValueError]. *)
Theorem record_parses_exactly_when (entry : json) :
  (forall record,
      _parse_record fromisoformat entry = Returns record
      <-> exists d id s m,
            entry = JDict d
            /\ dict_get "patient_id" d = Some id
            /\ dict_get "appointment_date" d = Some (JStr s)
            /\ fromisoformat s = inr m
            /\ record = {| patient_id := py_str id;
                           patient_name := py_str (get_default d "patient_name" (JStr ""));
                           appointment_date := date_of m;
                           needs_recall :=
                             truthy (get_default d "needs_recall" (JBool false)) |})
  /\ (forall e, _parse_record fromisoformat entry = Raises e -> exc_cls e = ValueError)
  /\ (forall d, entry = JDict d -> dict_get "patient_id" d = None ->
        _parse_record fromisoformat entry
        = Raises (Exc ValueError "Missing required appointment field"
                    (Some (Exc (ExcOther "KeyError") "'patient_id'" None)))).
Proof.
  split; [|split; [apply parse_record_raises|]].
  - intros record. split.
    + destruct entry as [ | b | n | s | xs | d]; cbn [Agents._parse_record];
        try discriminate.
      destruct (dict_get "patient_id" d) as [id|] eqn:Hid; [|discriminate].
      unfold get_default at 1.
      destruct (dict_get "appointment_date" d) as [[ | b | n | s | xs | ms]|] eqn:Hd;
        cbn [Agents._coerce_date]; try discriminate.
      destruct (fromisoformat s) as [msg | m] eqn:Hm; [discriminate|].
      intros [= <-]. now exists d, id, s, m.
    + intros (d & id & s & m & -> & Hid & Hd & Hm & ->).
      cbn [Agents._parse_record]. rewrite Hid. unfold get_default at 1.
      rewrite Hd. cbn [Agents._coerce_date]. now rewrite Hm.
  - intros d -> Hid. cbn [Agents._parse_record]. now rewrite Hid.
Qed.

(** X18.  A list of entries loads all or nothing: [load_appointments] returns
    records exactly when every entry parses, one record per entry and in the
    order of the file; otherwise it raises the [ValueError] of the first
    entry that does not parse, and no record of the entries before it is
    handed on. *)
Theorem appointments_load_all_or_nothing (w : files) (content : string)
    (xs : list json) :
  let loaded := fst (load_appointments fromisoformat w) in
  appointments_file w = Some content ->
  loads content = inr (JList xs) ->
  (forall rs, loaded = Returns rs <-> parse_to fromisoformat xs rs)
  /\ (forall rs, loaded = Returns rs -> List.length rs = List.length xs)
  /\ (forall e,
        loaded = Raises e ->
        exc_cls e = ValueError
        /\ exists before x after rs,
             xs = (before ++ x :: after)%list
             /\ parse_to fromisoformat before rs
             /\ _parse_record fromisoformat x = Raises e).
Proof.
  intros loaded Hf Hl. subst loaded.
  rewrite (load_appointments_list w content xs Hf Hl).
  split; [|split].
  - intros rs. apply parse_records_returns.
  - intros rs H. apply parse_records_returns in H.
    symmetry. exact (Forall2_length H).
  - intros e H. destruct (parse_records_raises xs e H)
      as (before & x & after & rs & Hxs & Hb & Hx).
    split; [exact (parse_record_raises x e Hx)|].
    now exists before, x, after, rs.
Qed.

(** ** Recalls *)

Lemma due_records_filter (as_of : pydate) (rs : list AppointmentRecord) :
  due_records as_of rs = filter (is_due as_of) rs.
Proof.
  induction rs as [|r rs IH]; cbn [due_records filter]; [reflexivity|].
  unfold is_due at 1.
  destruct (needs_recall r); cbn [orb]; [now rewrite IH|].
  destruct (date_le (appointment_date r) as_of); now rewrite IH.
Qed.

Lemma load_appointments_run (w : files) :
  load_appointments fromisoformat w = (fst (load_appointments fromisoformat w), w).
Proof.
  rewrite <- (load_appointments_state w) at 3.
  now destruct (load_appointments fromisoformat w).
Qed.

Lemma load_appointments_file (w1 w2 : files) :
  appointments_file w1 = appointments_file w2 ->
  source_path w1 = source_path w2 ->
  fst (load_appointments fromisoformat w1) = fst (load_appointments fromisoformat w2).
Proof.
  intros Hf Hp. unfold Agents.load_appointments, bind, get, ret, raise, lift.
  cbv beta iota. rewrite Hf, Hp. destruct (appointments_file w2) as [content|];
    [|reflexivity].
  destruct (loads content) as [msg | v]; [reflexivity|].
  destruct (iterate v); reflexivity.
Qed.

Lemma load_appointments_raises (w : files) (e : pyexc) :
  fst (load_appointments fromisoformat w) = Raises e -> exc_cls e = ValueError.
Proof.
  unfold Agents.load_appointments, bind, get, ret, raise, lift. cbv beta iota.
  destruct (appointments_file w) as [content|]; [|discriminate].
  destruct (loads content) as [msg | v]; [now intros [= <-]|].
  destruct (iterate v) as [xs|] eqn:E; [|now intros [= <-]].
  cbn [fst]. intros H.
  destruct (parse_records_raises xs e H) as (_ & x & _ & _ & _ & _ & Hx).
  exact (parse_record_raises x e Hx).
Qed.

(** The state after the day has been settled: [date.today()] is read when
    no day is given. *)
Lemma or_today_run (as_of : option pydate) (w : files) :
  exists w1,
    or_today as_of w
    = (Returns (match as_of with Some d => d | None => today_clock w (today_reads w) end),
       w1)
    /\ appointments_file w1 = appointments_file w
    /\ source_path w1 = source_path w
    /\ today_clock w1 = today_clock w
    /\ today_reads w1 = match as_of with
                        | Some _ => today_reads w
                        | None => S (today_reads w)
                        end.
Proof.
  destruct as_of as [d|]; eexists; (split; [reflexivity|]); cbn; auto.
Qed.

Lemma get_due_run (as_of : option pydate) (w : files) :
  let day := match as_of with Some d => d | None => today_clock w (today_reads w) end in
  exists w1,
    get_patients_due_for_recall fromisoformat as_of w
    = (match fst (load_appointments fromisoformat w) with
       | Returns rs => Returns (filter (is_due day) rs)
       | Raises e => Raises e
       end, w1)
    /\ appointments_file w1 = appointments_file w
    /\ source_path w1 = source_path w
    /\ today_clock w1 = today_clock w
    /\ today_reads w1 = match as_of with
                        | Some _ => today_reads w
                        | None => S (today_reads w)
                        end.
Proof.
  intros day. destruct (or_today_run as_of w) as (w1 & Hrun & Hf & Hp & Hc & Hr).
  exists w1. unfold Agents.get_patients_due_for_recall.
  rewrite (bind_returns _ _ _ _ _ Hrun). fold day.
  unfold bind. rewrite (load_appointments_run w1).
  rewrite (load_appointments_file w1 w Hf Hp).
  destruct (fst (load_appointments fromisoformat w)) as [rs | e].
  - unfold ret. rewrite due_records_filter. auto.
  - auto.
Qed.

(** X19.  Who is due for a recall: of the records loaded, in the order of the
    file, exactly those flagged [needs_recall] and those whose appointment
    date is on or before the day asked about; a flagged record is due even
    when its appointment lies ahead.  The day is today's date when none is
    given, and the clock is read in that case only. *)
Theorem recall_selection (as_of : option pydate) (w : files) :
  let day := match as_of with Some d => d | None => today_clock w (today_reads w) end in
  let run := get_patients_due_for_recall fromisoformat as_of w in
  (forall rs,
      fst (load_appointments fromisoformat w) = Returns rs ->
      exists due,
        fst run = Returns due
        /\ due = filter (is_due day) rs
        /\ (forall r, In r due
                      <-> In r rs /\ (needs_recall r = true
                                      \/ date_le (appointment_date r) day = true)))
  /\ (forall e, fst (load_appointments fromisoformat w) = Raises e -> fst run = Raises e)
  /\ today_reads (snd run) = match as_of with
                             | Some _ => today_reads w
                             | None => S (today_reads w)
                             end.
Proof.
  intros day run. subst run.
  destruct (get_due_run as_of w) as (w1 & -> & _ & _ & _ & Hr). fold day.
  cbn [fst snd]. split; [|split; [|exact Hr]].
  - intros rs ->. eexists. split; [reflexivity|]. split; [reflexivity|].
    intros r. rewrite filter_In. unfold is_due. rewrite orb_true_iff. tauto.
  - now intros e ->.
Qed.

Lemma recall_entries_well_formed (day : pydate) (due : list AppointmentRecord) :
  forallb well_formed (map (recall_entry day) due) = true.
Proof. induction due as [|r due IH]; cbn; [reflexivity | exact IH]. Qed.

Lemma summary_well_formed (day : pydate) (due : list AppointmentRecord) :
  well_formed (summary_of day due) = true.
Proof.
  unfold summary_of. cbn [well_formed map fst snd forallb].
  rewrite recall_entries_well_formed. reflexivity.
Qed.

Lemma schedule_recalls_run (as_of : option pydate) (w : files) :
  let day := match as_of with Some d => d | None => today_clock w (today_reads w) end in
  exists w1,
    schedule_recalls fromisoformat as_of w
    = (match fst (load_appointments fromisoformat w) with
       | Returns rs => Returns (summary_of day (filter (is_due day) rs))
       | Raises e => Raises e
       end, w1)
    /\ appointments_file w1 = appointments_file w
    /\ source_path w1 = source_path w
    /\ today_clock w1 = today_clock w
    /\ today_reads w1 = match as_of with
                        | Some _ => today_reads w
                        | None => S (today_reads w)
                        end.
Proof.
  intros day. destruct (or_today_run as_of w) as (w1 & Hrun & Hf & Hp & Hc & Hr).
  unfold Agents.schedule_recalls. rewrite (bind_returns _ _ _ _ _ Hrun). fold day.
  destruct (get_due_run (Some day) w1) as (w2 & Hrun2 & Hf2 & Hp2 & Hc2 & Hr2).
  cbv zeta in Hrun2. unfold bind. rewrite Hrun2.
  rewrite (load_appointments_file w1 w Hf Hp).
  exists w2. split.
  - destruct (fst (load_appointments fromisoformat w)) as [rs | e]; [|reflexivity].
    unfold ret, summary_of. now rewrite List.length_map.
  - repeat split; congruence.
Qed.

(** X20.  The summary of a recall run: for the day asked about (today when
    none is given) it holds the day, one recall per due record, in order,
    with the record's patient and that day as [scheduled_for], and
    [scheduled_count], the number of these recalls.  The run fails only when
    the appointments cannot be loaded, and then with their [ValueError].
    Hence [run_recalls] is an action the scheduler can deal with, whatever
    the file holds: it returns a dict with unique keys or raises an exception
    derived from [Exception]. *)
Theorem recall_summary (as_of : option pydate) (w : files) :
  let day := match as_of with Some d => d | None => today_clock w (today_reads w) end in
  (forall rs,
      fst (load_appointments fromisoformat w) = Returns rs ->
      exists due,
        due = filter (is_due day) rs
        /\ fst (schedule_recalls fromisoformat as_of w)
           = Returns (JDict [("as_of", JStr (date_isoformat day));
                             ("scheduled_count", JInt (Z.of_nat (List.length due)));
                             ("recalls", JList (map (recall_entry day) due))]))
  /\ (forall e,
        fst (load_appointments fromisoformat w) = Raises e ->
        fst (schedule_recalls fromisoformat as_of w) = Raises e
        /\ exc_cls e = ValueError)
  /\ Loop.well_behaved_action (run_recalls fromisoformat).
Proof.
  intros day. split; [|split].
  - intros rs Hl. destruct (schedule_recalls_run as_of w) as (w1 & -> & _). fold day.
    rewrite Hl. eexists. split; reflexivity.
  - intros e Hl. destruct (schedule_recalls_run as_of w) as (w1 & -> & _).
    rewrite Hl. split; [reflexivity | exact (load_appointments_raises w e Hl)].
  - intros a. unfold Agents.run_recalls.
    destruct (schedule_recalls_run None a) as (a1 & -> & _). cbn [fst].
    destruct (fst (load_appointments fromisoformat a)) as [rs | e] eqn:Hl.
    + split; [reflexivity|]. intros d [= <-]. apply summary_well_formed.
    + split; [|discriminate]. cbn [Orchestrator.survivable].
      now rewrite (load_appointments_raises a e Hl).
Qed.

End AgentProperties.

Section RecallRun.
Import PyRepr Agents Orchestrator.
Context (fromisoformat : string -> parse moment) (run_claims : Action files).

(** X21.  The command [run_recalls], end to end, with a readable log: when
    the appointments load, [main] returns 0 and the log gains one entry for
    "daily_recalls" with status "success" whose details are the summary of
    today's recalls; when they do not load, the log gains an entry with
    status "failed" and the message of the [ValueError], which leaves
    [main]: the process exits with status 1. *)
Theorem recall_run_is_logged (w : world files) (on_main_thread : bool) (fuel : nat)
    (h : list json) :
  let run := main (run_recalls fromisoformat) run_claims run_recalls_cmd
               on_main_thread fuel w in
  let day := today_clock (app w) (today_reads (app w)) in
  fst (_read_history w) = Returns h ->
  (forall rs,
      fst (load_appointments fromisoformat (app w)) = Returns rs ->
      exists d,
        fst run = Returns (Some 0)
        /\ exit_status (fst run) = Some 0
        /\ fst (_read_history (snd run)) = Returns (h ++ [JDict d])%list
        /\ dict_get "task" d = Some (JStr "daily_recalls")
        /\ dict_get "status" d = Some (JStr "success")
        /\ dict_get "message" d = None
        /\ dict_get "details" d = Some (summary_of day (filter (is_due day) rs)))
  /\ (forall e,
        fst (load_appointments fromisoformat (app w)) = Raises e ->
        exists d,
          fst run = Raises e
          /\ exit_status (fst run) = Some 1
          /\ fst (_read_history (snd run)) = Returns (h ++ [JDict d])%list
          /\ dict_get "task" d = Some (JStr "daily_recalls")
          /\ dict_get "status" d = Some (JStr "failed")
          /\ dict_get "message" d
             = (if nonempty (exc_str e) then Some (JStr (exc_str e)) else None)
          /\ dict_get "details" d = None).
Proof.
  intros run day Hh.
  assert (Hrun : run = (execute_with_logging "daily_recalls" (run_recalls fromisoformat) ;;;
                        ret (Some 0))%py w) by reflexivity.
  destruct (schedule_recalls_run fromisoformat None (app w)) as (a1 & Hact & _).
  fold day in Hact.
  assert (Hfst : fst (run_recalls fromisoformat (app w))
                 = match fst (load_appointments fromisoformat (app w)) with
                   | Returns rs => Returns (summary_of day (filter (is_due day) rs))
                   | Raises e => Raises e
                   end)
    by (unfold Agents.run_recalls; now rewrite Hact).
  destruct (attempt_logged w "daily_recalls" (run_recalls fromisoformat) h Hh)
    as (H1 & _ & H3).
  { intros d Hd. rewrite Hfst in Hd.
    destruct (fst (load_appointments fromisoformat (app w))) as [rs | e];
      [|discriminate].
    injection Hd as Hd. rewrite <- Hd. apply summary_well_formed. }
  rewrite Hfst in H1, H3.
  split.
  - intros rs Hl. rewrite Hl in H1, H3.
    set (c := attempt_call _ _ _) in H3.
    destruct (entry_of_records (utc_clock w (S (utc_reads w))) c)
      as (d & Hed & Htask & Hstatus & Hmsg & Hdet).
    exists d. rewrite Hrun. unfold bind.
    destruct (execute_with_logging _ _ w) as [[res | exc] w1]; cbn [fst snd] in *;
      [|discriminate].
    rewrite <- Hed. split; [reflexivity|]. split; [reflexivity|]. split; [exact H3|].
    subst c. unfold attempt_call, locals_after, summary_of in *.
    cbn [lc_task lc_status lc_message lc_details option_map] in *. auto.
  - intros e Hl. rewrite Hl in H1, H3.
    pose proof (load_appointments_raises fromisoformat (app w) e Hl) as Hcls.
    set (c := attempt_call _ _ _) in H3.
    destruct (entry_of_records (utc_clock w (S (utc_reads w))) c)
      as (d & Hed & Htask & Hstatus & Hmsg & Hdet).
    exists d. rewrite Hrun. unfold bind.
    destruct (execute_with_logging _ _ w) as [[res | exc] w1]; cbn [fst snd] in *;
      [discriminate|].
    injection H1 as ->. cbn [exit_status]. rewrite Hcls. cbn [is_Exception].
    rewrite <- Hed. split; [reflexivity|]. split; [reflexivity|]. split; [exact H3|].
    subst c. unfold attempt_call, locals_after in *. rewrite Hcls in *.
    cbn [is_Exception lc_task lc_status lc_message lc_details option_map] in *. auto.
Qed.

End RecallRun.


(** ** The properties at work *)


Lemma successful_attempt_entry_witness :
  exists d,
    fst (execute_with_logging "daily_claims" Examples.succeeding Examples.no_log_world)
    = Returns (JDict [("scheduled", JInt 2)])
    /\ fst (_read_history
              (snd (execute_with_logging "daily_claims" Examples.succeeding
                      Examples.no_log_world)))
       = Returns [JDict d]
    /\ dict_get "status" d = Some (JStr "success")
    /\ dict_get "details" d = Some (JDict [("scheduled", JInt 2)]).
Proof.
  destruct (successful_attempt_entry Examples.no_log_world "daily_claims"
              Examples.succeeding [] (JDict [("scheduled", JInt 2)]))
    as (d & H1 & _ & H3 & _ & H5 & _ & H7 & _); try reflexivity.
  exists d. auto.
Defined.

Lemma base_exception_logged_as_success_witness :
  exists d,
    fst (execute_with_logging "daily_recalls" Scenarios.interrupted Examples.no_log_world)
    = Raises (Exc KeyboardInterrupt "" None)
    /\ fst (_read_history
              (snd (execute_with_logging "daily_recalls" Scenarios.interrupted
                      Examples.no_log_world)))
       = Returns [JDict d]
    /\ dict_get "status" d = Some (JStr "success").
Proof.
  destruct (base_exception_logged_as_success Examples.no_log_world "daily_recalls"
              Scenarios.interrupted [] (Exc KeyboardInterrupt "" None))
    as (d & H1 & H2 & _ & H4 & _); try reflexivity.
  exists d. auto.
Defined.

Lemma unreadable_log_replaces_outcome_witness :
  exists e,
    fst (execute_with_logging "daily_claims" Examples.succeeding
           Examples.corrupt_log_world) = Raises e
    /\ exc_cls e = ValueError
    /\ log_file (snd (execute_with_logging "daily_claims" Examples.succeeding
                        Examples.corrupt_log_world)) = Some "not json".
Proof.
  destruct (unreadable_log_replaces_outcome Examples.corrupt_log_world "daily_claims"
              Examples.succeeding)
    as ((e & H1 & H2) & _ & H4); [reflexivity|].
  exists e. split; [exact H1|]. split; [exact H2 | exact H4].
Defined.

Lemma unreadable_log_silences_cycle_witness :
  fst (poll_tasks Scenarios.world_nine_unreadable) = Returns tt
  /\ log_file (snd (poll_tasks Scenarios.world_nine_unreadable)) = Some "not json"
  /\ map next_run (tasks (snd (poll_tasks Scenarios.world_nine_unreadable)))
     = [Examples.NINE + DAY; Examples.NINE + DAY].
Proof.
  destruct (unreadable_log_silences_cycle Scenarios.world_nine_unreadable)
    as (H1 & _ & H3 & H4).
  - reflexivity.
  - repeat constructor.
  - intros k. reflexivity.
  - split; [exact H1|]. split; [exact H4|]. rewrite H3. reflexivity.
Defined.

Lemma world_signalled_well_behaved (file : option string) :
  Forall well_behaved (tasks (Scenarios.world_signalled file)).
Proof.
  change (tasks (Scenarios.world_signalled file))
    with [Examples.boom_task; Examples.fine_task].
  constructor; [|constructor; [|constructor]];
    (split; [reflexivity|]; intros []; split; [reflexivity|]; intros d H).
  - discriminate H.
  - injection H as <-. reflexivity.
Qed.

Lemma signal_stops_scheduler_witness :
  fst (start true 5 (Scenarios.world_signalled None)) = Returns (Some tt)
  /\ sleeps (snd (start true 5 (Scenarios.world_signalled None))) = 2%nat
  /\ fst (start true 5 (snd (start true 5 (Scenarios.world_signalled None))))
     = Returns (Some tt).
Proof.
  destruct (signal_stops_scheduler (Scenarios.world_signalled None) 1 5)
    as (H1 & _ & H3 & H4).
  - reflexivity.
  - split; [intros [|k] Hk; [reflexivity | lia] | reflexivity].
  - apply world_signalled_well_behaved.
  - intros k. reflexivity.
  - lia.
  - split; [exact H1|]. split; [exact H3|].
    destruct (H4 true 5%nat ltac:(lia)) as [H _]. exact H.
Defined.

Lemma scheduler_off_main_thread_runs_on_witness :
  fst (start false 4 (Scenarios.world_signalled None)) = Returns None
  /\ sleeps (snd (start false 4 (Scenarios.world_signalled None))) = 4%nat.
Proof.
  destruct (scheduler_off_main_thread_runs_on (Scenarios.world_signalled None) 4)
    as (H1 & _ & H3).
  - reflexivity.
  - reflexivity.
  - apply world_signalled_well_behaved.
  - intros k. reflexivity.
  - split; [exact H1 | exact H3].
Defined.

Lemma examples_well_behaved :
  well_behaved_action Examples.succeeding /\ well_behaved_action Examples.failing.
Proof.
  split; intros []; (split; [reflexivity|]); intros d H.
  - injection H as <-. reflexivity.
  - discriminate H.
Qed.

Lemma scheduler_run_is_bracketed_witness :
  exists e1 mid e2,
    fst (run_scheduler Examples.succeeding Examples.failing true 5
           (Scenarios.world_signalled None)) = Returns (Some tt)
    /\ fst (_read_history
              (snd (run_scheduler Examples.succeeding Examples.failing true 5
                      (Scenarios.world_signalled None))))
       = Returns ([] ++ e1 :: mid ++ [e2])%list
    /\ scheduler_entry "started" "Daily scheduler started." e1
    /\ scheduler_entry "stopped" "Daily scheduler stopped." e2.
Proof.
  destruct (scheduler_run_is_bracketed Examples.succeeding Examples.failing
              (Scenarios.world_signalled None) 1 5 [])
    as (e1 & mid & e2 & H1 & _ & H3 & H4 & _ & H6 & _).
  - reflexivity.
  - apply examples_well_behaved.
  - apply examples_well_behaved.
  - intros k. reflexivity.
  - split; [intros [|k] Hk; [reflexivity | lia] | reflexivity].
  - lia.
  - exists e1, mid, e2. auto.
Defined.

Lemma scheduler_refuses_unreadable_log_witness :
  exists e,
    fst (run_scheduler Examples.succeeding Examples.failing true 5
           Examples.corrupt_log_world) = Raises e
    /\ exc_cls e = ValueError
    /\ sleeps (snd (run_scheduler Examples.succeeding Examples.failing true 5
                      Examples.corrupt_log_world)) = 0%nat
    /\ exit_status (fst (main Examples.succeeding Examples.failing run_scheduler_cmd
                           true 5 Examples.corrupt_log_world)) = Some 1.
Proof.
  destruct (scheduler_refuses_unreadable_log Examples.succeeding Examples.failing
              Examples.corrupt_log_world true 5)
    as ((e & H1 & H2) & _ & H4 & _ & H6).
  - reflexivity.
  - intros k. reflexivity.
  - exists e. split; [exact H1|]. split; [exact H2|]. split; [exact H4 | exact H6].
Defined.

Section ClientWitnesses.
Import HaloClient HaloFHIRClient HaloSQLClient ClientTerms.

Lemma constructor_validates_and_normalises_witness :
  exists c,
    __init__ "https://api.haloconnect.com/oauth2/token"
      "https://api.haloconnect.com/fhir//" (Some "clinic") (Some "s3cret") None None
      30 3 60 = Returns c
    /\ base_url c = "https://api.haloconnect.com/fhir"
    /\ last_char (base_url c) <> Some "/"%char.
Proof.
  destruct (constructor_validates_and_normalises
              "https://api.haloconnect.com/oauth2/token"
              "https://api.haloconnect.com/fhir//" (Some "clinic") (Some "s3cret")
              None None 30 3 60) as ((_ & Hmake) & _ & Hprops).
  destruct Hmake as [c Hc].
  { split; [reflexivity|]. split; [reflexivity|].
    split; eexists; split; reflexivity. }
  exists c. split; [exact Hc|].
  destruct (Hprops c Hc) as (_ & Hlast & _).
  split; [|exact Hlast].
  vm_compute in Hc. injection Hc as <-. reflexivity.
Defined.

Lemma request_sends_one_call_witness :
  exists sent,
    calls (snd (_request "GET" "/Patient/17" None None
                  [("Accept", "application/fhir+json")] [200]
                  (Examples.world_calling
                     (Responds (Examples.json_response 200 (JDict []))))))
    = [sent]
    /\ call_url sent = "https://api.haloconnect.com/fhir/Patient/17"
    /\ dict_get "Accept" (call_headers sent) = Some "application/fhir+json"
    /\ dict_get "Authorization" (call_headers sent) = Some "Bearer cached".
Proof.
  destruct (request_sends_one_call "GET" "/Patient/17" None None
              [("Accept", "application/fhir+json")] [200]
              (Examples.world_calling (Responds (Examples.json_response 200 (JDict []))))
              (tick (Examples.world_calling
                       (Responds (Examples.json_response 200 (JDict [])))))
              "cached" (Examples.json_response 200 (JDict [])))
    as (_ & _ & sent & Hcalls & Hurl & _ & _ & _ & _ & _ & Hheaders);
    try reflexivity.
  { constructor; [intros [] | constructor]. }
  exists sent. split; [exact Hcalls|]. split; [rewrite Hurl; reflexivity|].
  split; rewrite Hheaders; reflexivity.
Defined.

Lemma client_method_outcome_witness :
  fst (get_patient "17"
         (Examples.world_calling
            (Responds (Examples.json_response 200 (JDict [("id", JStr "17")])))))
  = Returns (JDict [("id", JStr "17")])
  /\ exists msg,
       run_sql (JStr "")
         (Examples.world_calling (Fails "unused"))
       = (Raises (Exc ValueError msg None), Examples.world_calling (Fails "unused")).
Proof.
  split.
  - destruct (client_method_outcome (GetPatient "17")
                (Examples.world_calling
                   (Responds (Examples.json_response 200 (JDict [("id", JStr "17")])))))
      as [_ Hrun].
    destruct (Hrun (tick (Examples.world_calling
                            (Responds (Examples.json_response 200
                                         (JDict [("id", JStr "17")])))))
                "cached" (Examples.json_response 200 (JDict [("id", JStr "17")])))
      as (H & _); [reflexivity | reflexivity | reflexivity |].
    exact H.
  - destruct (client_method_outcome (RunSql (JStr ""))
                (Examples.world_calling (Fails "unused"))) as [Hbad _].
    exact (Hbad eq_refl).
Defined.

Lemma undecodable_body_escapes_client_errors_witness :
  exists e,
    fst (run_sql (JStr "select 1")
           (Examples.world_calling (Responds (Examples.text_response 200 "<html>"))))
    = Raises e
    /\ is_HaloClientError (exc_cls e) = false.
Proof.
  destruct (undecodable_body_escapes_client_errors (RunSql (JStr "select 1"))
              (Examples.world_calling (Responds (Examples.text_response 200 "<html>")))
              (tick (Examples.world_calling
                       (Responds (Examples.text_response 200 "<html>"))))
              "cached" "Expecting value" (Examples.text_response 200 "<html>"))
    as (e & H1 & _ & _ & H4 & _); try reflexivity.
  exists e. split; [exact H1 | exact H4].
Defined.

Lemma no_request_without_token_witness :
  (exists e,
      fst (get_patient "17" (Examples.demo_world None (fun _ => Fails "down"))) = Raises e
      /\ exc_cls e = HaloAuthError)
  /\ List.length (calls (snd (get_patient "17"
                                (Examples.demo_world None (fun _ => Fails "down")))))
     = 1%nat.
Proof.
  destruct (no_request_without_token (GetPatient "17")
              (Examples.demo_world None (fun _ => Fails "down")) eq_refl) as [_ H].
  destruct (H (Examples.demo_world None (fun _ => Fails "down"))) as [He Hcalls];
    try reflexivity.
  { left. split; reflexivity. }
  split; [exact He|].
  change (perform (GetPatient "17")) with (get_patient "17") in Hcalls.
  now rewrite Hcalls.
Defined.

Lemma search_parameters_sent_witness :
  let params := dict_update [("patient", JStr "p1")]
                  (filter is_not_none
                     [("status", JStr "booked"); ("date", JNull); ("patient", JStr "p2")]) in
  dict_get "patient" params = Some (JStr "p2")
  /\ dict_get "status" params = Some (JStr "booked")
  /\ dict_get "date" params = None.
Proof.
  destruct (search_parameters_sent "p1"
              [("status", JStr "booked"); ("date", JNull); ("patient", JStr "p2")])
    as (_ & Hget & _).
  { repeat constructor; cbn; intuition discriminate. }
  cbv zeta. rewrite !Hget. repeat split.
Defined.

Lemma token_reuse_threshold_witness :
  (fst (_get_access_token (snd (_get_access_token Examples.world_granting)))
   = Returns "tok"
   /\ List.length (calls (snd (_get_access_token
                                 (snd (_get_access_token Examples.world_granting)))))
      = 1%nat)
  /\ List.length
       (calls (snd (_get_access_token
                      (snd (_get_access_token
                              (Scenarios.world_serving 60
                                 (Examples.json_response 200
                                    (Examples.token_body (JInt 60)))))))))
     = 2%nat.
Proof.
  split.
  - destruct (token_reuse_threshold Examples.world_granting Examples.world_granting
                (Examples.json_response 200 (Examples.token_body (JInt 3600)))
                [("access_token", JStr "tok"); ("expires_in", JInt 3600)] "tok" 3600)
      as [Hreuse _];
      [left; split; reflexivity | reflexivity | reflexivity | reflexivity
        | reflexivity | reflexivity | left; split; reflexivity | reflexivity
        | reflexivity | reflexivity | ].
    destruct Hreuse as [H1 H2]; [reflexivity|].
    split; [exact H1 | now rewrite H2].
  - destruct (token_reuse_threshold
                (Scenarios.world_serving 60
                   (Examples.json_response 200 (Examples.token_body (JInt 60))))
                (Scenarios.world_serving 60
                   (Examples.json_response 200 (Examples.token_body (JInt 60))))
                (Examples.json_response 200 (Examples.token_body (JInt 60)))
                [("access_token", JStr "tok"); ("expires_in", JInt 60)] "tok" 60)
      as [_ Hagain];
      [left; split; reflexivity | reflexivity | reflexivity | reflexivity
        | reflexivity | reflexivity | left; split; reflexivity | reflexivity
        | reflexivity | reflexivity | ].
    rewrite Hagain; first [reflexivity | vm_compute; discriminate].
Defined.


End ClientWitnesses.

Section AgentWitnesses.
Import PyRepr Agents.

Lemma appointments_file_shapes_witness :
  (exists e,
     fst (load_appointments Scenarios.plain_date (Scenarios.clinic (Some ""))) = Raises e
     /\ exc_cls e = ValueError
     /\ exc_str e
        = "Invalid appointment data in data/appointments.json: Expecting value")
  /\ fst (load_appointments Scenarios.plain_date (Scenarios.clinic (Some "{}")))
     = Returns [].
Proof.
  split.
  - destruct (appointments_file_shapes Scenarios.plain_date (Scenarios.clinic (Some "")))
      as (_ & Hblank & _).
    exact (Hblank "" eq_refl eq_refl).
  - destruct (appointments_file_shapes Scenarios.plain_date
                (Scenarios.clinic (Some "{}"))) as (_ & _ & Hshape & _).
    exact (Hshape "{}" (JDict []) eq_refl eq_refl).
Defined.

Lemma record_parses_exactly_when_witness :
  _parse_record Scenarios.plain_date
    (JDict [("patient_id", JInt 17); ("appointment_date", JStr "2023-12-01")])
  = Returns {| patient_id := "17"; patient_name := "";
               appointment_date := Date 2023 12 1; needs_recall := false |}.
Proof.
  destruct (record_parses_exactly_when Scenarios.plain_date
              (JDict [("patient_id", JInt 17); ("appointment_date", JStr "2023-12-01")]))
    as (Hiff & _).
  apply Hiff.
  exists [("patient_id", JInt 17); ("appointment_date", JStr "2023-12-01")],
    (JInt 17), "2023-12-01", (Moment 2023 12 1 0 0 0 0).
  repeat split.
Defined.

Lemma appointments_load_all_or_nothing_witness :
  exists rs,
    fst (load_appointments Scenarios.plain_date
           (Scenarios.clinic (Some (dumps Scenarios.three_appointments)))) = Returns rs
    /\ map patient_id rs = ["17"; "p2"; "p3"]
    /\ List.length rs = 3%nat.
Proof.
  destruct (appointments_load_all_or_nothing Scenarios.plain_date
              (Scenarios.clinic (Some (dumps Scenarios.three_appointments)))
              (dumps Scenarios.three_appointments)
              [ JDict [("patient_id", JInt 17); ("patient_name", JStr "Ada");
                       ("appointment_date", JStr "2023-12-01")];
                JDict [("patient_id", JStr "p2"); ("patient_name", JNull);
                       ("appointment_date", JStr "2024-06-01");
                       ("needs_recall", JBool true)];
                JDict [("patient_id", JStr "p3");
                       ("appointment_date", JStr "2024-06-02")] ])
    as (Hiff & Hlen & _); [reflexivity | vm_compute; reflexivity |].
  exists [ {| patient_id := "17"; patient_name := "Ada";
              appointment_date := Date 2023 12 1; needs_recall := false |};
           {| patient_id := "p2"; patient_name := "None";
              appointment_date := Date 2024 6 1; needs_recall := true |};
           {| patient_id := "p3"; patient_name := "";
              appointment_date := Date 2024 6 2; needs_recall := false |} ].
  assert (Hload : fst (load_appointments Scenarios.plain_date
                         (Scenarios.clinic (Some (dumps Scenarios.three_appointments))))
                  = Returns [ {| patient_id := "17"; patient_name := "Ada";
                                 appointment_date := Date 2023 12 1;
                                 needs_recall := false |};
                              {| patient_id := "p2"; patient_name := "None";
                                 appointment_date := Date 2024 6 1;
                                 needs_recall := true |};
                              {| patient_id := "p3"; patient_name := "";
                                 appointment_date := Date 2024 6 2;
                                 needs_recall := false |} ]).
  { apply Hiff. repeat constructor. }
  split; [exact Hload|]. split; [reflexivity | exact (Hlen _ Hload)].
Defined.

Lemma recall_selection_witness :
  exists due,
    fst (get_patients_due_for_recall Scenarios.plain_date None
           (Scenarios.clinic (Some (dumps Scenarios.three_appointments))))
    = Returns due
    /\ map patient_id due = ["17"; "p2"]
    /\ map patient_name due = ["Ada"; "None"].
Proof.
  destruct (recall_selection Scenarios.plain_date None
              (Scenarios.clinic (Some (dumps Scenarios.three_appointments))))
    as (Hsel & _).
  destruct (Hsel [ {| patient_id := "17"; patient_name := "Ada";
                      appointment_date := Date 2023 12 1; needs_recall := false |};
                   {| patient_id := "p2"; patient_name := "None";
                      appointment_date := Date 2024 6 1; needs_recall := true |};
                   {| patient_id := "p3"; patient_name := "";
                      appointment_date := Date 2024 6 2; needs_recall := false |} ])
    as (due & Hrun & Hdue & _); [vm_compute; reflexivity|].
  exists due. split; [exact Hrun|]. rewrite Hdue. split; reflexivity.
Defined.

Lemma recall_summary_witness :
  exists recalls,
    fst (schedule_recalls Scenarios.plain_date None
           (Scenarios.clinic (Some (dumps Scenarios.three_appointments))))
    = Returns (JDict [("as_of", JStr "2024-01-01"); ("scheduled_count", JInt 2);
                      ("recalls", JList recalls)])
    /\ List.length recalls = 2%nat.
Proof.
  destruct (recall_summary Scenarios.plain_date None
              (Scenarios.clinic (Some (dumps Scenarios.three_appointments))))
    as (Hsum & _).
  destruct (Hsum [ {| patient_id := "17"; patient_name := "Ada";
                      appointment_date := Date 2023 12 1; needs_recall := false |};
                   {| patient_id := "p2"; patient_name := "None";
                      appointment_date := Date 2024 6 1; needs_recall := true |};
                   {| patient_id := "p3"; patient_name := "";
                      appointment_date := Date 2024 6 2; needs_recall := false |} ])
    as (due & Hdue & Hrun); [vm_compute; reflexivity|].
  eexists. rewrite Hrun, Hdue. split; reflexivity.
Defined.

Lemma recall_run_is_logged_witness :
  exists d,
    fst (main (run_recalls Scenarios.plain_date) Scenarios.claims_out_of_order run_recalls_cmd
           true 0 (Scenarios.recall_world None)) = Returns (Some 0)
    /\ fst (_read_history
              (snd (main (run_recalls Scenarios.plain_date) Scenarios.claims_out_of_order
                      run_recalls_cmd true 0 (Scenarios.recall_world None))))
       = Returns [JDict d]
    /\ dict_get "details" d
       = Some (JDict [("as_of", JStr "2024-01-01"); ("scheduled_count", JInt 0);
                      ("recalls", JList [])]).
Proof.
  destruct (recall_run_is_logged Scenarios.plain_date Scenarios.claims_out_of_order
              (Scenarios.recall_world None) true 0 [] eq_refl) as [Hok _].
  destruct (Hok [] eq_refl) as (d & H1 & _ & H3 & _ & _ & _ & H7).
  exists d. split; [exact H1|]. split; [exact H3 | exact H7].
Defined.

End AgentWitnesses.
